(** * AutoVNC front end: interaction capture and code synthesis

    A shallow embedding of the pure utilities and of the event handlers of the
    AutoVNC front end, together with the properties of the design document
    that concern them.

    JavaScript strings are sequences of UTF-16 code units; they are modelled
    as lists of code units.  JavaScript numbers are IEEE 754 binary64 values;
    they are modelled with the radix-2 specification of the standard library
    ([SpecFloat], precision 53, maximal exponent 1024). *)

From Stdlib Require Import String Ascii DecimalString.
From Stdlib Require Import List ZArith NArith Lia Bool.
From Stdlib Require Import Sorting.Permutation.
From Stdlib Require Import Floats.SpecFloat.
Import ListNotations.

(* ================================================================== *)
(** * Strings as lists of UTF-16 code units *)
(* ================================================================== *)

Module JsString.

Definition codeunit := N.
Definition jsstring := list codeunit.

(** An ASCII literal read as a JavaScript string. *)
Definition lit (s : String.string) : jsstring :=
  map Ascii.N_of_ascii (String.list_ascii_of_string s).

(** An ASCII literal in which every backquote stands for a double quote. *)
Definition litq (s : String.string) : jsstring :=
  map (fun c => if N.eqb c 96 then 34%N else c) (lit s).

Definition LF : codeunit := 10%N.
Definition SPACE : codeunit := 32%N.
Definition DQUOTE : codeunit := 34%N.

Fixpoint streq (a b : jsstring) : bool :=
  match a, b with
  | [], [] => true
  | x :: a', y :: b' => N.eqb x y && streq a' b'
  | _, _ => false
  end.

(** Truthiness of a string: only the empty string is falsy. *)
Definition truthy (s : jsstring) : bool :=
  match s with [] => false | _ :: _ => true end.

(** [s.split(sep)] for a separator of one code unit. *)
Fixpoint split (sep : codeunit) (s : jsstring) : list jsstring :=
  match s with
  | [] => [[]]
  | c :: s' =>
      if N.eqb c sep then [] :: split sep s'
      else match split sep s' with
           | [] => [[c]]
           | l :: ls => (c :: l) :: ls
           end
  end.

(** [ls.join(sep)] for a separator of one code unit. *)
Fixpoint join (sep : codeunit) (ls : list jsstring) : jsstring :=
  match ls with
  | [] => []
  | l :: ls' =>
      match ls' with
      | [] => l
      | _ :: _ => l ++ sep :: join sep ls'
      end
  end.

(** [ls.join(sep)] for an arbitrary separator. *)
Fixpoint joinWith (sep : jsstring) (ls : list jsstring) : jsstring :=
  match ls with
  | [] => []
  | l :: ls' =>
      match ls' with
      | [] => l
      | _ :: _ => l ++ sep ++ joinWith sep ls'
      end
  end.

(** WhiteSpace and LineTerminator code units of ECMA-262: the set removed
    by [trim] and matched by the regular expression class [\s]. *)
Definition isWhiteSpace (c : codeunit) : bool :=
  ((9 <=? c) && (c <=? 13) || (c =? 32) || (c =? 160) || (c =? 5760)
   || (8192 <=? c) && (c <=? 8202) || (c =? 8232) || (c =? 8233)
   || (c =? 8239) || (c =? 8287) || (c =? 12288) || (c =? 65279))%N.

Fixpoint trimStart (s : jsstring) : jsstring :=
  match s with
  | [] => []
  | c :: s' => if isWhiteSpace c then trimStart s' else s
  end.

Definition trimEnd (s : jsstring) : jsstring := rev (trimStart (rev s)).

Definition trim (s : jsstring) : jsstring := trimEnd (trimStart s).

(** [s.startsWith(p)]. *)
Fixpoint startsWith (p s : jsstring) : bool :=
  match p, s with
  | [], _ => true
  | _ :: _, [] => false
  | x :: p', y :: s' => N.eqb x y && startsWith p' s'
  end.

(** [s.includes(needle)]. *)
Fixpoint includes (needle s : jsstring) : bool :=
  startsWith needle s ||
  match s with
  | [] => false
  | _ :: s' => includes needle s'
  end.

(** [s.slice(n)] for [0 <= n]. *)
Definition sliceFrom (n : nat) (s : jsstring) : jsstring := skipn n s.

(** [s.match(/^\s*/)[0].length]: the number of leading white-space units. *)
Fixpoint leadingSpaces (s : jsstring) : nat :=
  match s with
  | [] => 0
  | c :: s' => if isWhiteSpace c then S (leadingSpaces s') else 0
  end.

End JsString.

Import JsString.

(* ================================================================== *)
(** * utils/codeUtils.js *)
(* ================================================================== *)

Module CodeUtils.

Record Separated := { generated : jsstring; manual : jsstring }.

(** [separateGeneratedFromManual(fullCode, generatedLineCount)]. *)
Definition separateGeneratedFromManual
           (fullCode : jsstring) (generatedLineCount : Z) : Separated :=
  if negb (truthy fullCode) then {| generated := []; manual := [] |}
  else
    let lines := split LF fullCode in
    if (generatedLineCount <=? 0)%Z
    then {| generated := []; manual := fullCode |}
    else
      let generatedLines := firstn (Z.to_nat generatedLineCount) lines in
      let manualLines := skipn (Z.to_nat generatedLineCount) lines in
      {| generated := join LF generatedLines;
         manual := join LF manualLines |}.

(** [concatenateCodes(generated, manual)]. *)
Definition concatenateCodes (generated manual : jsstring) : jsstring :=
  if negb (truthy generated) && negb (truthy manual) then []
  else if negb (truthy generated) then manual
  else if negb (truthy manual) then generated
  else generated ++ LF :: manual.

(** [countLines(code)]. *)
Definition countLines (code : jsstring) : Z :=
  if negb (truthy code) then 0%Z
  else Z.of_nat (length (split LF code)).

(** The loop of [extractManualCodeFallback]: [matchIndex] after scanning
    from index [i], as long as both arrays have an element at [i]. *)
Fixpoint matchLoop (fuel i matchIndex : nat)
         (generatedLines fullLines : list jsstring) : nat :=
  match fuel with
  | O => matchIndex
  | S fuel' =>
      match nth_error generatedLines i, nth_error fullLines i with
      | Some g, Some f =>
          if streq (trim g) (trim f)
          then matchLoop fuel' (S i) (S i) generatedLines fullLines
          else matchIndex
      | _, _ => matchIndex
      end
  end.

(** [extractManualCodeFallback(generatedCode, fullCode)]. *)
Definition extractManualCodeFallback
           (generatedCode fullCode : jsstring) : jsstring :=
  if negb (truthy generatedCode) || negb (truthy fullCode) then []
  else
    let generatedLines := split LF generatedCode in
    let fullLines := split LF fullCode in
    let matchIndex :=
      matchLoop (length generatedLines) 0 0 generatedLines fullLines in
    let manualLines := skipn matchIndex fullLines in
    trim (join LF manualLines).

Record Merged := { merged : jsstring; hasConflict : bool }.

(** Following the design document: the line-by-line longest common prefix
    of the old generated text and the live text, two lines matching when
    they agree up to surrounding white space. *)
Fixpoint commonLines (generatedLines fullLines : list jsstring) : nat :=
  match generatedLines, fullLines with
  | g :: generatedLines', f :: fullLines' =>
      if streq (trim g) (trim f)
      then S (commonLines generatedLines' fullLines')
      else 0
  | _, _ => 0
  end.

(** Following the design document: everything after the last matching
    line of the live text. *)
Definition manualRemainder (oldGenerated fullCode : jsstring) : jsstring :=
  let fullLines := split LF fullCode in
  join LF (skipn (commonLines (split LF oldGenerated) fullLines) fullLines).

(** [mergeGeneratedAndManual(newGenerated, oldGenerated, fullCode)]. *)
Definition mergeGeneratedAndManual
           (newGenerated oldGenerated fullCode : jsstring) : Merged :=
  if startsWith oldGenerated fullCode then
    let manual := sliceFrom (length oldGenerated) fullCode in
    {| merged := newGenerated ++ manual; hasConflict := false |}
  else
    let manual := extractManualCodeFallback oldGenerated fullCode in
    {| merged := newGenerated ++ LF :: manual; hasConflict := true |}.

(** ToInt32 on an integral number: the value modulo 2^32, read as a signed
    32-bit integer. *)
Definition toInt32 (z : Z) : Z :=
  ((z + 2147483648) mod 4294967296 - 2147483648)%Z.

(** [h << 5]. *)
Definition shl5 (h : Z) : Z := toInt32 (Z.shiftl (toInt32 h) 5).

(** One turn of the loop of [hashCode]: the sum is exact on numbers, the
    bitwise conjunction brings it back to 32 bits. *)
Definition hashStep (hash : Z) (char : codeunit) : Z :=
  let hash := (shl5 hash - hash + Z.of_N char)%Z in
  Z.land (toInt32 hash) (toInt32 hash).

Definition hashLoop (code : jsstring) : Z := fold_left hashStep code 0%Z.

Definition hexDigit (d : Z) : codeunit :=
  if (d <? 10)%Z then Z.to_N (48 + d) else Z.to_N (87 + d).

Fixpoint toHexDigits (fuel : nat) (n : Z) (acc : jsstring) : jsstring :=
  match fuel with
  | O => acc
  | S fuel' =>
      let acc' := hexDigit (n mod 16) :: acc in
      if (n <? 16)%Z then acc' else toHexDigits fuel' (n / 16) acc'
  end.

(** [n.toString(16)] for an integral [n >= 0]. *)
Definition toStringHex (n : Z) : jsstring :=
  toHexDigits (S (Z.to_nat (Z.log2 n))) n [].

(** [hashCode(code)]. *)
Definition hashCode (code : jsstring) : jsstring :=
  if negb (truthy code) then lit "0"
  else toStringHex (Z.abs (hashLoop code)).

(** The value of the polynomial with the code units of [code] as
    coefficients at the point 31, in exact arithmetic. *)
Definition polynomial31 (code : jsstring) : Z :=
  fold_left (fun h c => (31 * h + Z.of_N c)%Z) code 0%Z.

(** One of the digits [0-9a-f]. *)
Definition isHexDigit (c : codeunit) : bool :=
  ((48 <=? c) && (c <=? 57) || (97 <=? c) && (c <=? 102))%N.

(** The value of a text written in base 16 with the digits [0-9a-f]. *)
Definition hexValue (s : jsstring) : Z :=
  fold_left
    (fun v c => (16 * v + (if (Z.of_N c <? 58) then Z.of_N c - 48
                           else Z.of_N c - 87))%Z) s 0%Z.

(** [getManualCodeStartLine(generatedLineCount)]. *)
Definition getManualCodeStartLine (generatedLineCount : Z) : Z :=
  ((if (generatedLineCount =? 0)%Z then 0 else generatedLineCount) + 1)%Z.

(** [generatedCodeChanged(oldGenerated, newGenerated)]. *)
Definition generatedCodeChanged (oldGenerated newGenerated : jsstring)
  : bool :=
  if negb (truthy oldGenerated) && negb (truthy newGenerated) then false
  else negb (streq oldGenerated newGenerated).

End CodeUtils.

(* ================================================================== *)
(** * Numbers: IEEE 754 binary64 *)
(* ================================================================== *)

Module Num.

Definition number := spec_float.

Definition prec : Z := 53.
Definition emax : Z := 1024.

(** The number denoted by an integer literal. *)
Definition ofZ (z : Z) : number := binary_normalize prec emax z 0 false.

Definition NaN : number := S754_nan.
Definition add : number -> number -> number := SFadd prec emax.
Definition sub : number -> number -> number := SFsub prec emax.
Definition mul : number -> number -> number := SFmul prec emax.
Definition div : number -> number -> number := SFdiv prec emax.

(** [a < b], [a > b], [a <= b] and [a === b]; all are false on NaN. *)
Definition lt (a b : number) : bool := SFltb a b.
Definition gt (a b : number) : bool := SFltb b a.
Definition le (a b : number) : bool := SFleb a b.
Definition strictEq (a b : number) : bool := SFeqb a b.

Definition isNaN (a : number) : bool :=
  match a with S754_nan => true | _ => false end.

(** Truthiness of a number: zero and NaN are falsy. *)
Definition truthy (a : number) : bool :=
  match a with
  | S754_zero _ | S754_nan => false
  | _ => true
  end.

(** [Math.abs]. *)
Definition abs (a : number) : number := SFabs a.

(** [Math.round]: an integral value is returned as it is; any other value
    goes to the nearest integer, a tie going towards plus infinity; a
    result of zero keeps the sign of the argument. *)
Definition round (a : number) : number :=
  match a with
  | S754_finite s m e =>
      if (0 <=? e)%Z then a
      else
        let d := (2 ^ (- e))%Z in
        if (Zpos m mod d =? 0)%Z then a
        else
          let n := ((2 * cond_Zopp s (Zpos m) + d) / (2 * d))%Z in
          if (n =? 0)%Z then S754_zero s else ofZ n
  | _ => a
  end.

(** [Math.max] and [Math.min] of two numbers: NaN if either is NaN, and
    [+0] counts as larger than [-0]. *)
Definition max (a b : number) : number :=
  match SFcompare a b with
  | None => NaN
  | Some Lt => b
  | Some Gt => a
  | Some Eq => match a with S754_zero true => b | _ => a end
  end.

Definition min (a b : number) : number :=
  match SFcompare a b with
  | None => NaN
  | Some Lt => a
  | Some Gt => b
  | Some Eq => match a with S754_zero false => b | _ => a end
  end.

(** Number.isInteger. *)
Definition isInteger (a : number) : bool :=
  match a with
  | S754_zero _ => true
  | S754_finite _ m e =>
      (0 <=? e)%Z || (Zpos m mod 2 ^ (- e) =? 0)%Z
  | _ => false
  end.

(** The numbers of the format: canonical mantissa and exponent. *)
Definition valid (a : number) : bool := valid_binary prec emax a.

Definition isPositiveFinite (a : number) : bool :=
  match a with S754_finite false _ _ => true | _ => false end.

End Num.

Definition number := Num.number.

(** Built-in conversions of the language that the front end relies on and
    whose tables are not part of it. *)
Class Builtins := {
  (** Number::toString, as used by template literals. *)
  numberToString : number -> jsstring;
  (** String.prototype.toUpperCase. *)
  toUpperCase : jsstring -> jsstring;
  (** JSON.stringify applied to a string. *)
  jsonString : jsstring -> jsstring
}.

(* ================================================================== *)
(** * utils/codeValidation.js: [detectCodeConflicts] *)
(* ================================================================== *)

Module CodeValidation.

Record Conflict := { conflictType : jsstring; message : jsstring }.

Record Report := { hasConflicts : bool; conflicts : list Conflict }.

(** The patterns of [vncPatterns]: each one is a literal text, so that
    [pattern.test(s)] is [s.includes(text)]. *)
Definition vncPatterns : list jsstring :=
  [ lit "client.click("; lit "client.type("; lit "client.press(";
    lit "client.wait("; lit "vnc.click("; lit "vnc.type(";
    lit "vnc.press("; lit "vnc.wait(" ].

Definition isImportLine (l : jsstring) : bool :=
  startsWith (lit "import") (trim l) || startsWith (lit "from") (trim l).

(** [manualImport.split(' ')[1]], converted to a string by [includes]. *)
Definition secondWord (l : jsstring) : jsstring :=
  match nth_error (split SPACE l) 1 with
  | Some w => w
  | None => lit "undefined"
  end.

(** The conflict pushed for a manual [def run(]. *)
Definition redefineFunction : Conflict :=
  {| conflictType := lit "redefine-function";
     message := lit "Manual code redefines run() function - this will override generated code" |}.

(** [detectCodeConflicts(generatedCode, manualCode)]. *)
Definition detectCodeConflicts (generatedCode manualCode : jsstring)
  : Report :=
  if negb (truthy manualCode)
  then {| hasConflicts := false; conflicts := [] |}
  else
    let generatedLines := split LF generatedCode in
    let manualLines := split LF manualCode in
    let mixed :=
      if existsb (fun pattern => includes pattern manualCode) vncPatterns
      then [{| conflictType := lit "mixed-api";
               message := lit "Manual code uses VNC API - ensure consistency with generated code" |}]
      else [] in
    let importLines := filter isImportLine generatedLines in
    let manualImportLines := filter isImportLine manualLines in
    let duplicates :=
      flat_map
        (fun manualImport =>
           if existsb (fun imp => includes (secondWord manualImport) imp)
                      importLines
           then [{| conflictType := lit "duplicate-import";
                    message := lit "Duplicate import detected: "
                                 ++ trim manualImport |}]
           else [])
        manualImportLines in
    let redefined :=
      if includes (lit "def run(") manualCode
      then [redefineFunction]
      else [] in
    let conflicts := mixed ++ duplicates ++ redefined in
    {| hasConflicts := (0 <? length conflicts)%nat;
       conflicts := conflicts |}.

(** [getLineNumber(code, position)]. *)
Definition getLineNumber (code : jsstring) (position : nat) : Z :=
  Z.of_nat (length (split LF (firstn position code))).

Definition isQuote (c : codeunit) : bool := (c =? 34)%N || (c =? 39)%N.

(** [brackets[char]] is truthy for the three keys of the table. *)
Definition isOpening (c : codeunit) : bool :=
  (c =? 40)%N || (c =? 91)%N || (c =? 123)%N.

(** [Object.values(brackets).includes(char)]. *)
Definition isClosing (c : codeunit) : bool :=
  (c =? 41)%N || (c =? 93)%N || (c =? 125)%N.

(** The table [brackets], read from a key to its value. *)
Definition closingOf (c : codeunit) : codeunit :=
  if (c =? 40)%N then 41%N else if (c =? 91)%N then 93%N else 125%N.

(** [Object.keys(brackets).find(k => brackets[k] === char)] for a closing
    bracket [char]. *)
Definition openingOf (c : codeunit) : codeunit :=
  if (c =? 41)%N then 40%N else if (c =? 93)%N then 91%N else 123%N.

(** An entry of the stack of open brackets. *)
Record Open := { open_char : codeunit; open_line : Z }.

(** Where the scan of [validatePythonSyntax] stands: in the code, inside
    a string literal opened by [quote], or inside one just after a
    backslash. *)
Inductive Mode :=
| InCode
| InString (quote : codeunit)
| Escaped (quote : codeunit).

Record Syntax := {
  isValid : bool; errors : list jsstring; warnings : list jsstring }.

Section WithBuiltins.

Context {B : Builtins}.

Definition unexpectedClosing (char : codeunit) (line : Z) : jsstring :=
  lit "Unexpected closing bracket '" ++ [char] ++ lit "' on line "
    ++ numberToString (Num.ofZ line).

Definition unclosedBracket (o : Open) : jsstring :=
  lit "Unclosed bracket '" ++ [open_char o] ++ lit "' on line "
    ++ numberToString (Num.ofZ (open_line o)).

(** The loop over the positions of [code], together with its inner loop
    over a string literal: [rest] is the text from position [i] on, the
    stack has its top first. *)
Fixpoint scanBrackets (code rest : jsstring) (i : nat) (mode : Mode)
         (stack : list Open) (errors : list jsstring)
  : list Open * list jsstring :=
  match rest with
  | [] => (stack, errors)
  | char :: rest' =>
      match mode with
      | InString quote =>
          if (char =? quote)%N
          then scanBrackets code rest' (S i) InCode stack errors
          else if (char =? 92)%N
          then scanBrackets code rest' (S i) (Escaped quote) stack errors
          else scanBrackets code rest' (S i) (InString quote) stack errors
      | Escaped quote =>
          scanBrackets code rest' (S i) (InString quote) stack errors
      | InCode =>
          if isQuote char
          then scanBrackets code rest' (S i) (InString char) stack errors
          else if isOpening char then
            scanBrackets code rest' (S i) InCode
              ({| open_char := char; open_line := getLineNumber code i |}
                 :: stack)
              errors
          else if isClosing char then
            match stack with
            | top :: stack' =>
                if (open_char top =? openingOf char)%N
                then scanBrackets code rest' (S i) InCode stack' errors
                else scanBrackets code rest' (S i) InCode stack
                       (errors
                          ++ [unexpectedClosing char (getLineNumber code i)])
            | [] =>
                scanBrackets code rest' (S i) InCode stack
                  (errors ++ [unexpectedClosing char (getLineNumber code i)])
            end
          else scanBrackets code rest' (S i) InCode stack errors
      end
  end.

(** [validatePythonSyntax(code)]. *)
Definition validatePythonSyntax (code : jsstring) : Syntax :=
  if negb (truthy code) || (length (trim code) =? 0)%nat
  then {| isValid := false; errors := [lit "Code is empty"];
          warnings := [] |}
  else
    let '(stack, errors) := scanBrackets code code 0 InCode [] [] in
    let errors := errors ++ map unclosedBracket (rev stack) in
    let warnings :=
      (if negb (includes (lit "def run") code)
       then [lit "Code should define a run() function"]
       else [])
      ++
      (if includes (lit "print(") code && negb (includes (lit "# ") code)
       then [lit "Consider using comments instead of print() for debugging"]
       else []) in
    {| isValid := (length errors =? 0)%nat;
       errors := errors;
       warnings := warnings |}.

End WithBuiltins.

(** [' '.repeat(4 * n)]. *)
Definition indentation (indentLevel : nat) : jsstring :=
  concat (repeat (lit "    ") indentLevel).

(** [s.endsWith(':')]. *)
Definition endsWithColon (s : jsstring) : bool :=
  match rev s with
  | c :: _ => (c =? 58)%N
  | [] => false
  end.

Definition dedents (trimmed : jsstring) : bool :=
  startsWith (lit "else:") trimmed || startsWith (lit "elif ") trimmed
  || startsWith (lit "except:") trimmed
  || startsWith (lit "finally:") trimmed.

(** The loop of [formatPythonCode]: the lines pushed for [lines], starting
    at the indentation level [indentLevel]. *)
Fixpoint formatLines (lines : list jsstring) (indentLevel : nat)
  : list jsstring :=
  match lines with
  | [] => []
  | line :: lines' =>
      let trimmed := trim line in
      if negb (truthy trimmed) || startsWith (lit "#") trimmed
      then line :: formatLines lines' indentLevel
      else
        let indentLevel :=
          if dedents trimmed then Nat.max 0 (indentLevel - 1)
          else indentLevel in
        (indentation indentLevel ++ trimmed)
          :: formatLines lines'
               (if endsWithColon trimmed then S indentLevel
                else indentLevel)
  end.

(** [formatPythonCode(code)]. *)
Definition formatPythonCode (code : jsstring) : jsstring :=
  join LF (formatLines (split LF code) 0).

(** The texts in which every bracket has its partner, the characters that
    are not brackets being free. *)
Inductive Balanced : jsstring -> Prop :=
| Balanced_nil : Balanced []
| Balanced_other (c : codeunit) (w : jsstring) :
    isOpening c = false -> isClosing c = false ->
    Balanced w -> Balanced (c :: w)
| Balanced_pair (o : codeunit) (w1 w2 : jsstring) :
    isOpening o = true -> Balanced w1 -> Balanced w2 ->
    Balanced (o :: w1 ++ closingOf o :: w2).

(** The texts that close the open brackets of a stack (top first) one
    after the other, with balanced texts before, between and after the
    closing brackets. *)
Inductive Closes : list codeunit -> jsstring -> Prop :=
| Closes_nil (b : jsstring) : Balanced b -> Closes [] b
| Closes_cons (o : codeunit) (stack : list codeunit) (b w : jsstring) :
    Balanced b -> Closes stack w ->
    Closes (o :: stack) (b ++ closingOf o :: w).

Definition noQuote (s : jsstring) : bool :=
  forallb (fun c => negb (isQuote c)) s.

End CodeValidation.

(* ================================================================== *)
(** * utils/coordinates.js *)
(* ================================================================== *)

Module Coordinates.

(** The rectangle returned by [canvas.getBoundingClientRect()]. *)
Record Rect := {
  left : number; top : number; width : number; height : number }.

Record Point := { px : number; py : number }.

(** [scaleCoordinates(clientX, clientY, canvas, remoteWidth, remoteHeight)],
    the canvas being given by its bounding rectangle. *)
Definition scaleCoordinates (clientX clientY : number) (rect : Rect)
           (remoteWidth remoteHeight : number) : Point :=
  let canvasX := Num.sub clientX (left rect) in
  let canvasY := Num.sub clientY (top rect) in
  let canvasWidth := width rect in
  let canvasHeight := height rect in
  let remoteX := Num.round (Num.mul canvasX (Num.div remoteWidth canvasWidth)) in
  let remoteY := Num.round (Num.mul canvasY (Num.div remoteHeight canvasHeight)) in
  {| px := Num.max (Num.ofZ 0) (Num.min remoteX (Num.sub remoteWidth (Num.ofZ 1)));
     py := Num.max (Num.ofZ 0) (Num.min remoteY (Num.sub remoteHeight (Num.ofZ 1))) |}.

(** What the function computes on one axis. *)
Definition scaleAxis (local remoteDim displayDim : number) : number :=
  Num.max (Num.ofZ 0)
          (Num.min (Num.round (Num.mul local (Num.div remoteDim displayDim)))
                   (Num.sub remoteDim (Num.ofZ 1))).

(** Following the design document: [round(local * remoteDim / displayDim)]
    clamped to [[0, remoteDim - 1]], evaluated from left to right on
    numbers. *)
Definition toRemoteFormula (local remoteDim displayDim : number) : number :=
  Num.max (Num.ofZ 0)
          (Num.min (Num.round (Num.div (Num.mul local remoteDim) displayDim))
                   (Num.sub remoteDim (Num.ofZ 1))).

(** Following the design document: the same formula on integers in exact
    arithmetic, rounding being to the nearest integer with ties upwards. *)
Definition toRemoteExact (local remoteDim displayDim : Z) : Z :=
  Z.max 0 (Z.min ((2 * local * remoteDim + displayDim) / (2 * displayDim))
                 (remoteDim - 1)).

(** A local coordinate in the range of a dimension: an integral number
    between 0 and the dimension minus one. *)
Definition inRange (local dim : number) : bool :=
  Num.valid local && Num.isInteger local
  && Num.le (Num.ofZ 0) local && Num.le local (Num.sub dim (Num.ofZ 1)).

(** A region object. *)
Record Region := {
  rx : number; ry : number; rwidth : number; rheight : number }.

(** [scaleToCanvas(remoteX, remoteY, canvas, remoteWidth, remoteHeight)]. *)
Definition scaleToCanvas (remoteX remoteY : number) (rect : Rect)
           (remoteWidth remoteHeight : number) : Point :=
  let canvasWidth := width rect in
  let canvasHeight := height rect in
  {| px := Num.round (Num.mul remoteX (Num.div canvasWidth remoteWidth));
     py := Num.round (Num.mul remoteY (Num.div canvasHeight remoteHeight)) |}.

(** [scaleRegionToCanvas(region, canvas, remoteWidth, remoteHeight)]. *)
Definition scaleRegionToCanvas (region : Region) (rect : Rect)
           (remoteWidth remoteHeight : number) : Region :=
  let scaleX := Num.div (width rect) remoteWidth in
  let scaleY := Num.div (height rect) remoteHeight in
  {| rx := Num.round (Num.mul (rx region) scaleX);
     ry := Num.round (Num.mul (ry region) scaleY);
     rwidth := Num.round (Num.mul (rwidth region) scaleX);
     rheight := Num.round (Num.mul (rheight region) scaleY) |}.

(** [scaleRegionToRemote(region, canvas, remoteWidth, remoteHeight)]. *)
Definition scaleRegionToRemote (region : Region) (rect : Rect)
           (remoteWidth remoteHeight : number) : Region :=
  let scaleX := Num.div remoteWidth (width rect) in
  let scaleY := Num.div remoteHeight (height rect) in
  {| rx := Num.round (Num.mul (rx region) scaleX);
     ry := Num.round (Num.mul (ry region) scaleY);
     rwidth := Num.round (Num.mul (rwidth region) scaleX);
     rheight := Num.round (Num.mul (rheight region) scaleY) |}.

(** An integral number of the format. *)
Definition integral (a : number) : bool := Num.valid a && Num.isInteger a.

(** A canvas whose bounding rectangle starts at the origin. *)
Definition canvasAtOrigin (w h : Z) : Rect :=
  {| left := Num.ofZ 0; top := Num.ofZ 0;
     width := Num.ofZ w; height := Num.ofZ h |}.

End Coordinates.

(* ================================================================== *)
(** * utils/codeGenerator.js *)
(* ================================================================== *)

Module CodeGenerator.

Record Region := {
  region_x : number; region_y : number;
  region_width : number; region_height : number }.

(** A step object.  A field that may be absent ([undefined]) is an
    option. *)
Record Step := {
  step_type : jsstring;
  step_order : option number;
  step_x : option number;
  step_y : option number;
  step_end_x : option number;
  step_end_y : option number;
  step_template : option jsstring;
  step_text : option jsstring;
  step_keys : option (list jsstring);
  step_region : option Region;
  step_case_sensitive : bool;
  step_timeout : option number;
  step_duration : option number;
  step_delay_before : option number;
  step_description : option jsstring;
  step_direction : option jsstring;
  step_clicks : option number }.

(** The object returned by [generateCodeWithMetadata]. *)
Record CodeWithMetadata := {
  md_code : jsstring; md_lineCount : Z; md_hash : jsstring }.

Section WithBuiltins.

Context {B : Builtins}.

(** A template-literal hole filled with a number that may be absent. *)
Definition showNumber (v : option number) : jsstring :=
  match v with
  | Some n => numberToString n
  | None => lit "undefined"
  end.

Definition showString (v : option jsstring) : jsstring :=
  match v with
  | Some t => t
  | None => lit "undefined"
  end.

Definition optTruthy (v : option jsstring) : bool :=
  match v with Some t => truthy t | None => false end.

Definition numTruthy (v : option number) : bool :=
  match v with Some n => Num.truthy n | None => false end.

(** The hint argument built from [step.x] and [step.y] when both are
    defined and neither is NaN. *)
Definition pointHint (step : Step) : jsstring :=
  match step_x step, step_y step with
  | Some x, Some y =>
      if negb (Num.isNaN x) && negb (Num.isNaN y)
      then lit ", hint=(" ++ numberToString (Num.round x) ++ lit ", "
             ++ numberToString (Num.round y) ++ lit ")"
      else []
  | _, _ => []
  end.

(** The three pointer cases share their shape up to the method name. *)
Definition pointerCode (method : jsstring) (step : Step) : jsstring :=
  if optTruthy (step_template step) then
    lit "vnc." ++ method ++ litq "(`" ++ showString (step_template step)
      ++ litq "`, timeout=30.0" ++ pointHint step ++ lit ")"
  else
    lit "vnc." ++ method ++ lit "(" ++ showNumber (step_x step)
      ++ lit ", " ++ showNumber (step_y step) ++ lit ")".

(** [s.replace(/"/g, '\\"')]. *)
Definition escapeQuotes (s : jsstring) : jsstring :=
  flat_map (fun c => if N.eqb c DQUOTE then [92%N; DQUOTE] else [c]) s.

Definition textOrEmpty (v : option jsstring) : jsstring :=
  match v with Some t => t | None => [] end.

Definition hasKeys (v : option (list jsstring)) : bool :=
  match v with Some (_ :: _) => true | _ => false end.

(** [keys.map(k => `Keys.${k.toUpperCase()}`).join(', ')]. *)
Definition keysList (v : option (list jsstring)) : jsstring :=
  match v with
  | Some ks =>
      joinWith (lit ", ") (map (fun k => lit "Keys." ++ toUpperCase k) ks)
  | None => []
  end.

Definition regionArg (r : Region) : jsstring :=
  lit ", region=(" ++ numberToString (region_x r) ++ lit ", "
    ++ numberToString (region_y r) ++ lit ", "
    ++ numberToString (region_width r) ++ lit ", "
    ++ numberToString (region_height r) ++ lit ")".

(** [${step.timeout || 30}]. *)
Definition timeoutOr30 (step : Step) : jsstring :=
  if numTruthy (step_timeout step) then showNumber (step_timeout step)
  else numberToString (Num.ofZ 30).

(** [stepToCode(step)]; [None] stands for [null]. *)
Definition stepToCode (step : Step) : option jsstring :=
  let t := step_type step in
  if streq t (lit "click") then Some (pointerCode (lit "click") step)
  else if streq t (lit "double_click")
  then Some (pointerCode (lit "double_click") step)
  else if streq t (lit "right_click")
  then Some (pointerCode (lit "right_click") step)
  else if streq t (lit "type") then
    let text := escapeQuotes (textOrEmpty (step_text step)) in
    let keysArg :=
      if hasKeys (step_keys step)
      then lit ", [" ++ keysList (step_keys step) ++ lit "]"
      else [] in
    Some (litq "vnc.type(`" ++ text ++ litq "`" ++ keysArg ++ lit ")")
  else if streq t (lit "key_press") then
    if hasKeys (step_keys step)
    then Some (lit "vnc.press(" ++ keysList (step_keys step) ++ lit ")")
    else None
  else if streq t (lit "key_combo") then
    if hasKeys (step_keys step)
    then Some (lit "vnc.key_combo(" ++ keysList (step_keys step) ++ lit ")")
    else None
  else if streq t (lit "wait_for_image") then
    let '(regionA, hintA) :=
      match step_region step with
      | Some r =>
          let hintX :=
            Num.round (Num.add (region_x r)
                               (Num.div (region_width r) (Num.ofZ 2))) in
          let hintY :=
            Num.round (Num.add (region_y r)
                               (Num.div (region_height r) (Num.ofZ 2))) in
          (regionArg r,
           if negb (Num.isNaN hintX) && negb (Num.isNaN hintY)
           then lit ", hint=(" ++ numberToString hintX ++ lit ", "
                  ++ numberToString hintY ++ lit ")"
           else [])
      | None => ([], pointHint step)
      end in
    Some (litq "vnc.wait_for_image(`" ++ showString (step_template step)
            ++ litq "`, timeout=" ++ timeoutOr30 step
            ++ regionA ++ hintA ++ lit ")")
  else if streq t (lit "wait_for_text") then
    let text := escapeQuotes (textOrEmpty (step_text step)) in
    let regionA :=
      match step_region step with
      | Some r => regionArg r
      | None => []
      end in
    let caseArg :=
      if step_case_sensitive step then lit ", case_sensitive=true"
      else [] in
    Some (litq "vnc.wait_for_text(`" ++ text ++ litq "`, timeout="
            ++ timeoutOr30 step ++ regionA ++ caseArg ++ lit ")")
  else if streq t (lit "wait") then
    Some (lit "vnc.wait("
            ++ (if numTruthy (step_duration step)
                then showNumber (step_duration step)
                else numberToString (Num.ofZ 1))
            ++ lit ")")
  else if streq t (lit "screenshot") then
    Some (litq "vnc.save_screenshot(`screenshot.png`)")
  else if streq t (lit "drag") then
    Some (lit "vnc.drag(" ++ showNumber (step_x step) ++ lit ", "
            ++ showNumber (step_y step) ++ lit ", "
            ++ showNumber (step_end_x step) ++ lit ", "
            ++ showNumber (step_end_y step) ++ lit ")")
  else None.

(** The comparator [(a, b) => a.order - b.order]; an absent order makes
    the difference NaN, and so does the difference of two equal
    infinities. *)
Definition orderOf (step : Step) : number :=
  match step_order step with Some n => n | None => Num.NaN end.

Definition compareOrder (a b : Step) : number :=
  Num.sub (orderOf a) (orderOf b).

(** [[...steps].sort(comparator)].  When the order fields are finite
    numbers the comparator is consistent, and the language fixes the
    result: the steps in ascending order, steps of equal order in the order
    of the array.  Insertion from the right, which moves [a] behind [b] only
    when the comparator is positive, computes this list.  When a difference
    is NaN the comparator is not consistent and the language leaves the
    order of the result to the engine: there [sortSteps] is not bound to be
    the order that a given engine produces.  What is proved below about
    lists with such orders uses only that the result holds the steps of the
    array. *)
Fixpoint insertStep (a : Step) (sorted : list Step) : list Step :=
  match sorted with
  | [] => [a]
  | b :: rest =>
      if Num.gt (compareOrder a b) (Num.ofZ 0)
      then b :: insertStep a rest
      else a :: sorted
  end.

Definition sortSteps (steps : list Step) : list Step :=
  fold_right insertStep [] steps.

(** The constant 0.1 of the source text. *)
Definition oneTenth : number := Num.div (Num.ofZ 1) (Num.ofZ 10).

(** The lines pushed for one step by the loop of [generateCode]. *)
Definition stepLines (step : Step) : list jsstring :=
  (match step_delay_before step with
   | Some d =>
       if Num.gt d oneTenth
       then [lit "    vnc.wait(" ++ numberToString d ++ lit ")"]
       else []
   | None => []
   end)
  ++
  (match stepToCode step with
   | Some codeLine =>
       if truthy codeLine then
         (if optTruthy (step_description step)
          then [lit "    # " ++ showString (step_description step)]
          else [])
         ++ [lit "    " ++ codeLine]
       else []
   | None => []
   end).

Definition bodyLines (steps : list Step) : list jsstring :=
  match steps with
  | [] => [lit "    pass"]
  | _ :: _ => flat_map stepLines (sortSteps steps)
  end.

Definition headerLines (isoNow scriptName description : jsstring)
  : list jsstring :=
  [ litq "```";
    lit "AutoVNC Script: " ++ scriptName;
    lit "Generated: " ++ isoNow;
    [];
    (if truthy description then description else lit "No description");
    litq "```";
    [];
    lit "from autovnc import Keys";
    [];
    [];
    lit "def run(vnc):";
    litq "    ```Execute the automation script.```" ].

Definition harnessLines : list jsstring :=
  [ [];
    litq "if __name__ == `__main__`:";
    lit "    from autovnc import VNCClient, ExecutionContext";
    lit "    import os";
    [];
    lit "    # Connection configuration";
    litq "    HOST = os.environ.get(`VNC_HOST`, `localhost`)";
    litq "    PORT = int(os.environ.get(`VNC_PORT`, 5900))";
    litq "    PASSWORD = os.environ.get(`VNC_PASSWORD`, None)";
    [];
    lit "    client = VNCClient(HOST, PORT, password=PASSWORD)";
    lit "    try:";
    lit "        client.connect()";
    lit "        ctx = ExecutionContext(client)";
    lit "        ctx.wait(2) # Wait for connection to stabilize";
    lit "        run(ctx)";
    lit "    finally:";
    lit "        # Only disconnect if running in headless mode";
    litq "        if os.environ.get(`AUTOVNC_HEADLESS`, `false`).lower() == `true`:";
    lit "            client.disconnect()" ].

(** [generateCode(steps, scriptName, description)].  The call reads the
    clock: [isoNow] is the value of [new Date().toISOString()] at the
    time of the call. *)
Definition generateCode (isoNow : jsstring) (steps : list Step)
           (scriptName description : jsstring) : jsstring :=
  join LF (headerLines isoNow scriptName description
             ++ bodyLines steps ++ harnessLines).

(** [generateCodeWithMetadata(steps, scriptName, description)]; the loop
    over the code units is written out in the function. *)
Definition generateCodeWithMetadata (isoNow : jsstring) (steps : list Step)
           (scriptName description : jsstring) : CodeWithMetadata :=
  let code := generateCode isoNow steps scriptName description in
  let lineCount := Z.of_nat (length (split LF code)) in
  let hash :=
    fold_left
      (fun hash char =>
         let hash := (CodeUtils.shl5 hash - hash + Z.of_N char)%Z in
         Z.land (CodeUtils.toInt32 hash) (CodeUtils.toInt32 hash))
      code 0%Z in
  {| md_code := code;
     md_lineCount := lineCount;
     md_hash := CodeUtils.toStringHex (Z.abs hash) |}.

End WithBuiltins.

End CodeGenerator.

(* ================================================================== *)
(** * components/VNCViewer.jsx: the pointer and wheel handlers *)
(* ================================================================== *)

(** The step object that the viewer hands to its callbacks [onStep] and
    [onInteraction]. *)
Module Recording.

Record StepData := {
  sd_type : jsstring;
  sd_originalType : option jsstring;
  sd_direction : option jsstring;
  sd_clicks : option number;
  sd_x : option number;
  sd_y : option number;
  sd_end_x : option number;
  sd_end_y : option number;
  sd_width : option number;
  sd_height : option number;
  sd_text : option jsstring;
  sd_keys : option (list jsstring);
  sd_template_data : option jsstring;
  sd_smartTemplate : option jsstring;
  sd_timeout : option number;
  sd_description : option jsstring;
  sd_timestamp : option Z;
  sd_delay_before : option number }.

(** The object literal of a pointer, drag or wheel step: the fields that
    these literals do not mention are absent. *)
Definition pointerStep (type : jsstring) (x y : number)
           (description : jsstring) (timestamp : Z) (delay_before : number)
  : StepData :=
  {| sd_type := type; sd_originalType := None;
     sd_direction := None; sd_clicks := None;
     sd_x := Some x; sd_y := Some y;
     sd_end_x := None; sd_end_y := None;
     sd_width := None; sd_height := None;
     sd_text := None; sd_keys := None;
     sd_template_data := None; sd_smartTemplate := None;
     sd_timeout := None;
     sd_description := Some description;
     sd_timestamp := Some timestamp;
     sd_delay_before := Some delay_before |}.

Definition withDrag (end_x end_y : number) (sd : StepData) : StepData :=
  {| sd_type := sd_type sd; sd_originalType := sd_originalType sd;
     sd_direction := sd_direction sd; sd_clicks := sd_clicks sd;
     sd_x := sd_x sd; sd_y := sd_y sd;
     sd_end_x := Some end_x; sd_end_y := Some end_y;
     sd_width := sd_width sd; sd_height := sd_height sd;
     sd_text := sd_text sd; sd_keys := sd_keys sd;
     sd_template_data := sd_template_data sd;
     sd_smartTemplate := sd_smartTemplate sd;
     sd_timeout := sd_timeout sd;
     sd_description := sd_description sd;
     sd_timestamp := sd_timestamp sd;
     sd_delay_before := sd_delay_before sd |}.

Definition withScroll (direction : jsstring) (clicks : number)
           (sd : StepData) : StepData :=
  {| sd_type := sd_type sd; sd_originalType := sd_originalType sd;
     sd_direction := Some direction; sd_clicks := Some clicks;
     sd_x := sd_x sd; sd_y := sd_y sd;
     sd_end_x := sd_end_x sd; sd_end_y := sd_end_y sd;
     sd_width := sd_width sd; sd_height := sd_height sd;
     sd_text := sd_text sd; sd_keys := sd_keys sd;
     sd_template_data := sd_template_data sd;
     sd_smartTemplate := sd_smartTemplate sd;
     sd_timeout := sd_timeout sd;
     sd_description := sd_description sd;
     sd_timestamp := sd_timestamp sd;
     sd_delay_before := sd_delay_before sd |}.

(** The three assignments of the smart-record block. *)
Definition withSmart (smartTemplate originalType : jsstring)
           (sd : StepData) : StepData :=
  {| sd_type := lit "smart_click"; sd_originalType := Some originalType;
     sd_direction := sd_direction sd; sd_clicks := sd_clicks sd;
     sd_x := sd_x sd; sd_y := sd_y sd;
     sd_end_x := sd_end_x sd; sd_end_y := sd_end_y sd;
     sd_width := sd_width sd; sd_height := sd_height sd;
     sd_text := sd_text sd; sd_keys := sd_keys sd;
     sd_template_data := sd_template_data sd;
     sd_smartTemplate := Some smartTemplate;
     sd_timeout := sd_timeout sd;
     sd_description := sd_description sd;
     sd_timestamp := sd_timestamp sd;
     sd_delay_before := sd_delay_before sd |}.

End Recording.

(* ================================================================== *)
(** * utils/stepUtils.js *)
(* ================================================================== *)

Module StepUtils.

Import CodeGenerator.

(** [createBlankStep(type)].  The identifier drawn at random is left out;
    [null] is represented like an absent field. *)
Definition createBlankStep (type : jsstring) : Step :=
  {| step_type := type;
     step_order := Some (Num.ofZ 0);
     step_x := Some (Num.ofZ 0); step_y := Some (Num.ofZ 0);
     step_end_x := Some (Num.ofZ 0); step_end_y := Some (Num.ofZ 0);
     step_template := Some [];
     step_text := Some [];
     step_keys := Some [];
     step_region := None;
     step_case_sensitive := false;
     step_timeout := Some (Num.ofZ 30);
     step_duration := Some (Num.ofZ 1);
     step_delay_before := None;
     step_description := Some [];
     step_direction := None;
     step_clicks := None |}.

Record Validation := { isValid : bool; errors : list jsstring }.

Definition isPointerType (t : jsstring) : bool :=
  streq t (lit "click") || streq t (lit "double_click")
  || streq t (lit "right_click").

Definition isKeyType (t : jsstring) : bool :=
  streq t (lit "key_press") || streq t (lit "key_combo").

(** [validateStep(step)]. *)
Definition validateStep (step : Step) : Validation :=
  let t := step_type step in
  let errors :=
    (if negb (truthy t) then [lit "Step type is required"] else [])
    ++
    (if isPointerType t then
       if negb (optTruthy (step_template step))
          && (match step_x step with None => true | Some _ => false end
              || match step_y step with None => true | Some _ => false end)
       then [lit "Either template or X,Y coordinates required"]
       else []
     else if streq t (lit "type") then
       if negb (optTruthy (step_text step)) && negb (hasKeys (step_keys step))
       then [lit "Either text or keys required"]
       else []
     else if isKeyType t then
       if negb (hasKeys (step_keys step)) then [lit "Keys required"] else []
     else if streq t (lit "wait_for_image") then
       if negb (optTruthy (step_template step))
       then [lit "Template image required"]
       else []
     else if streq t (lit "wait_for_text") then
       if negb (optTruthy (step_text step))
       then [lit "Text to wait for is required"]
       else []
     else []) in
  {| isValid := Nat.eqb (length errors) 0; errors := errors |}.

(** The fields that [createStepFromVNC] reads on its argument. *)
Record VncData := {
  vnc_type : jsstring;
  vnc_x : option number;
  vnc_y : option number;
  vnc_end_x : option number;
  vnc_end_y : option number;
  vnc_text : option jsstring;
  vnc_keys : option (list jsstring);
  vnc_duration : option number;
  vnc_timeout : option number;
  vnc_description : option jsstring;
  vnc_delay_before : option number }.

Definition set_x (v : option number) (step : Step) : Step :=
  {| step_type := step_type step; step_order := step_order step;
     step_x := v; step_y := step_y step; step_end_x := step_end_x step;
     step_end_y := step_end_y step; step_template := step_template step;
     step_text := step_text step; step_keys := step_keys step;
     step_region := step_region step;
     step_case_sensitive := step_case_sensitive step;
     step_timeout := step_timeout step;
     step_duration := step_duration step;
     step_delay_before := step_delay_before step;
     step_description := step_description step;
     step_direction := step_direction step;
     step_clicks := step_clicks step |}.

Definition set_y (v : option number) (step : Step) : Step :=
  {| step_type := step_type step; step_order := step_order step;
     step_x := step_x step; step_y := v; step_end_x := step_end_x step;
     step_end_y := step_end_y step; step_template := step_template step;
     step_text := step_text step; step_keys := step_keys step;
     step_region := step_region step;
     step_case_sensitive := step_case_sensitive step;
     step_timeout := step_timeout step;
     step_duration := step_duration step;
     step_delay_before := step_delay_before step;
     step_description := step_description step;
     step_direction := step_direction step;
     step_clicks := step_clicks step |}.

Definition set_end_x (v : option number) (step : Step) : Step :=
  {| step_type := step_type step; step_order := step_order step;
     step_x := step_x step; step_y := step_y step; step_end_x := v;
     step_end_y := step_end_y step; step_template := step_template step;
     step_text := step_text step; step_keys := step_keys step;
     step_region := step_region step;
     step_case_sensitive := step_case_sensitive step;
     step_timeout := step_timeout step;
     step_duration := step_duration step;
     step_delay_before := step_delay_before step;
     step_description := step_description step;
     step_direction := step_direction step;
     step_clicks := step_clicks step |}.

Definition set_end_y (v : option number) (step : Step) : Step :=
  {| step_type := step_type step; step_order := step_order step;
     step_x := step_x step; step_y := step_y step;
     step_end_x := step_end_x step; step_end_y := v;
     step_template := step_template step; step_text := step_text step;
     step_keys := step_keys step; step_region := step_region step;
     step_case_sensitive := step_case_sensitive step;
     step_timeout := step_timeout step;
     step_duration := step_duration step;
     step_delay_before := step_delay_before step;
     step_description := step_description step;
     step_direction := step_direction step;
     step_clicks := step_clicks step |}.

Definition set_text (v : option jsstring) (step : Step) : Step :=
  {| step_type := step_type step; step_order := step_order step;
     step_x := step_x step; step_y := step_y step;
     step_end_x := step_end_x step; step_end_y := step_end_y step;
     step_template := step_template step; step_text := v;
     step_keys := step_keys step; step_region := step_region step;
     step_case_sensitive := step_case_sensitive step;
     step_timeout := step_timeout step;
     step_duration := step_duration step;
     step_delay_before := step_delay_before step;
     step_description := step_description step;
     step_direction := step_direction step;
     step_clicks := step_clicks step |}.

Definition set_keys (v : option (list jsstring)) (step : Step) : Step :=
  {| step_type := step_type step; step_order := step_order step;
     step_x := step_x step; step_y := step_y step;
     step_end_x := step_end_x step; step_end_y := step_end_y step;
     step_template := step_template step; step_text := step_text step;
     step_keys := v; step_region := step_region step;
     step_case_sensitive := step_case_sensitive step;
     step_timeout := step_timeout step;
     step_duration := step_duration step;
     step_delay_before := step_delay_before step;
     step_description := step_description step;
     step_direction := step_direction step;
     step_clicks := step_clicks step |}.

Definition set_duration (v : option number) (step : Step) : Step :=
  {| step_type := step_type step; step_order := step_order step;
     step_x := step_x step; step_y := step_y step;
     step_end_x := step_end_x step; step_end_y := step_end_y step;
     step_template := step_template step; step_text := step_text step;
     step_keys := step_keys step; step_region := step_region step;
     step_case_sensitive := step_case_sensitive step;
     step_timeout := step_timeout step; step_duration := v;
     step_delay_before := step_delay_before step;
     step_description := step_description step;
     step_direction := step_direction step;
     step_clicks := step_clicks step |}.

Definition set_description (v : option jsstring) (step : Step) : Step :=
  {| step_type := step_type step; step_order := step_order step;
     step_x := step_x step; step_y := step_y step;
     step_end_x := step_end_x step; step_end_y := step_end_y step;
     step_template := step_template step; step_text := step_text step;
     step_keys := step_keys step; step_region := step_region step;
     step_case_sensitive := step_case_sensitive step;
     step_timeout := step_timeout step;
     step_duration := step_duration step;
     step_delay_before := step_delay_before step; step_description := v;
     step_direction := step_direction step;
     step_clicks := step_clicks step |}.

Definition set_delay_before (v : option number) (step : Step) : Step :=
  {| step_type := step_type step; step_order := step_order step;
     step_x := step_x step; step_y := step_y step;
     step_end_x := step_end_x step; step_end_y := step_end_y step;
     step_template := step_template step; step_text := step_text step;
     step_keys := step_keys step; step_region := step_region step;
     step_case_sensitive := step_case_sensitive step;
     step_timeout := step_timeout step;
     step_duration := step_duration step; step_delay_before := v;
     step_description := step_description step;
     step_direction := step_direction step;
     step_clicks := step_clicks step |}.

(** [vnc.duration || vnc.timeout || 1]. *)
Definition durationOr (vnc : VncData) : number :=
  if numTruthy (vnc_duration vnc)
  then match vnc_duration vnc with Some d => d | None => Num.NaN end
  else if numTruthy (vnc_timeout vnc)
  then match vnc_timeout vnc with Some d => d | None => Num.NaN end
  else Num.ofZ 1.

(** [createStepFromVNC(vnc)]. *)
Definition createStepFromVNC (vnc : VncData) : Step :=
  let step := createBlankStep (vnc_type vnc) in
  let t := vnc_type vnc in
  let step :=
    if isPointerType t then
      set_y (vnc_y vnc) (set_x (vnc_x vnc) step)
    else if streq t (lit "type") then
      set_keys (Some (match vnc_keys vnc with Some ks => ks | None => [] end))
        (set_text (Some (textOrEmpty (vnc_text vnc))) step)
    else if isKeyType t then
      set_keys (Some (match vnc_keys vnc with Some ks => ks | None => [] end))
        step
    else if streq t (lit "wait") then
      set_duration (Some (durationOr vnc)) step
    else if streq t (lit "drag") then
      set_end_y (vnc_end_y vnc)
        (set_end_x (vnc_end_x vnc)
           (set_y (vnc_y vnc) (set_x (vnc_x vnc) step)))
    else step in
  let step :=
    if optTruthy (vnc_description vnc)
    then set_description (vnc_description vnc) step
    else step in
  match vnc_delay_before vnc with
  | Some d => set_delay_before (Some d) step
  | None => step
  end.

(** The object handed over by the viewer, read as the argument of
    [createStepFromVNC]: it has no field [duration]. *)
Definition ofRecorded (sd : Recording.StepData) : VncData :=
  {| vnc_type := Recording.sd_type sd;
     vnc_x := Recording.sd_x sd; vnc_y := Recording.sd_y sd;
     vnc_end_x := Recording.sd_end_x sd; vnc_end_y := Recording.sd_end_y sd;
     vnc_text := Recording.sd_text sd; vnc_keys := Recording.sd_keys sd;
     vnc_duration := None; vnc_timeout := Recording.sd_timeout sd;
     vnc_description := Recording.sd_description sd;
     vnc_delay_before := Recording.sd_delay_before sd |}.

(** The step types for which [stepToCode] has a case. *)
Definition mappedTypes : list jsstring :=
  [ lit "click"; lit "double_click"; lit "right_click"; lit "type";
    lit "key_press"; lit "key_combo"; lit "wait_for_image";
    lit "wait_for_text"; lit "wait"; lit "screenshot"; lit "drag" ].

End StepUtils.

Module VNCViewer.

Import Coordinates Recording.

Record MouseEvent := {
  clientX : number; clientY : number; button : Z; detail : Z }.

Record WheelEvent := {
  wheelX : number; wheelY : number; deltaY : number }.

(** Props and component state read by the handlers.  A handler made by
    [useCallback] keeps the values of the render in which it was created
    until one of its dependencies changes.  The dependency list of
    [handleMouseUpCapture] omits [isSmartRecord], and that of
    [handleKeyDown] omits [isVerifyMode] and [isVerifyTextMode]: what these
    two handlers read of them is what they have captured, whatever the
    state is by now.  The last three fields are these captured values.
    Every other value is among the dependencies of each handler that reads
    it, and is the current one. *)
Record Config := {
  isRecording : bool;
  isPaused : bool;
  hasOnStep : bool;
  hasOnInteraction : bool;
  isSmartRecord : bool;
  isVerifyMode : bool;
  isVerifyTextMode : bool;
  screenWidth : number;
  screenHeight : number;
  mouseUp_isSmartRecord : bool;
  keyDown_isVerifyMode : bool;
  keyDown_isVerifyTextMode : bool }.

(** What a handler reads from its surroundings when it runs: the clock,
    the canvas (absent when the query selector finds none) and the outcome
    of the smart capture ([None] when the capture block throws). *)
Record Env := {
  now : Z;
  canvas : option Rect;
  smartCapture : option jsstring }.

Record DragData := {
  startX : number; startY : number;
  clientStartX : number; clientStartY : number;
  isDragging : bool;
  dragButton : Z; dragDetail : Z }.

(** A pending [setTimeout(commitAction, 250)]: its due time and the
    closure [commitAction], which holds the step and the props of the render
    whose [processMouseAction] has set the timer. *)
Record Timeout := {
  due : Z;
  timeoutProps : Config;
  timeoutStep : StepData }.

(** The refs of the component and the state [selectionStart].  The state
    [isSelecting] is set together with [selectionStart] and reset together
    with it: a selection is being drawn exactly while [selectionStart] is
    not null.  Only then are the window-level listeners of the selection
    installed. *)
Record State := {
  dragDataRef : option DragData;
  clickTimeoutRef : option Timeout;
  lastActionTimeRef : option Z;
  selectionStart : option (number * number) }.

Inductive Call :=
| OnStep (sd : StepData)
| OnInteraction (sd : StepData).

Inductive Event :=
| MouseDown (e : MouseEvent)
| MouseMove (e : MouseEvent)
| MouseUp (e : MouseEvent)
| Wheel (e : WheelEvent)
| TimerFire.

(** [dragDataRef.current.isDragging = b]. *)
Definition setDragging (b : bool) (d : DragData) : DragData :=
  {| startX := startX d; startY := startY d;
     clientStartX := clientStartX d; clientStartY := clientStartY d;
     isDragging := b;
     dragButton := dragButton d; dragDetail := dragDetail d |}.

Definition setDrag (d : option DragData) (st : State) : State :=
  {| dragDataRef := d; clickTimeoutRef := clickTimeoutRef st;
     lastActionTimeRef := lastActionTimeRef st;
     selectionStart := selectionStart st |}.

Definition setTimer (t : option Timeout) (st : State) : State :=
  {| dragDataRef := dragDataRef st; clickTimeoutRef := t;
     lastActionTimeRef := lastActionTimeRef st;
     selectionStart := selectionStart st |}.

Definition setLastAction (t : option Z) (st : State) : State :=
  {| dragDataRef := dragDataRef st; clickTimeoutRef := clickTimeoutRef st;
     lastActionTimeRef := t;
     selectionStart := selectionStart st |}.

Definition setSelection (p : option (number * number)) (st : State)
  : State :=
  {| dragDataRef := dragDataRef st; clickTimeoutRef := clickTimeoutRef st;
     lastActionTimeRef := lastActionTimeRef st;
     selectionStart := p |}.

(** [Math.round((now - lastActionTimeRef.current) / 100) / 10], or 0
    when the ref is null. *)
Definition delayBefore (env : Env) (st : State) : number :=
  match lastActionTimeRef st with
  | Some last =>
      Num.div (Num.round (Num.div (Num.ofZ (now env - last))
                                  (Num.ofZ 100)))
              (Num.ofZ 10)
  | None => Num.ofZ 0
  end.

(** [onStep?.(stepData); onInteraction?.(stepData)]. *)
Definition notify (cfg : Config) (sd : StepData) : list Call :=
  (if hasOnStep cfg then [OnStep sd] else [])
    ++ (if hasOnInteraction cfg then [OnInteraction sd] else []).

(** The closure [commitAction] of [processMouseAction]. *)
Definition commitAction (cfg : Config) (sd : StepData) : list Call :=
  (if isRecording cfg && hasOnStep cfg then [OnStep sd] else [])
    ++ (if hasOnInteraction cfg then [OnInteraction sd] else []).

Section WithBuiltins.

Context {B : Builtins}.

Definition pointText (x y : number) : jsstring :=
  lit "(" ++ numberToString x ++ lit ", " ++ numberToString y ++ lit ")".

Definition clickKind (button detail : Z) : jsstring :=
  if (button =? 2)%Z then lit "right_click"
  else if (detail =? 2)%Z then lit "double_click"
  else lit "click".

(** [processMouseAction(e, forcedButton, forcedDetail)] of a render in
    which [isSmartRecord] is [smartRecord]: the function is made anew in
    every render, and a handler calls the one of the render in which the
    handler was created. *)
Definition processMouseAction (cfg : Config) (smartRecord : bool)
           (env : Env) (e : MouseEvent)
           (forcedButton forcedDetail : option Z) (st : State)
  : State * list Call :=
  match canvas env with
  | None => (st, [])
  | Some rect =>
      let button' :=
        match forcedButton with Some b => b | None => button e end in
      let detail' :=
        match forcedDetail with Some d => d | None => detail e end in
      let coords :=
        scaleCoordinates (clientX e) (clientY e) rect
                         (screenWidth cfg) (screenHeight cfg) in
      let delay_before := delayBefore env st in
      let st1 := setTimer None (setLastAction (Some (now env)) st) in
      let stepData :=
        pointerStep (clickKind button' detail') (px coords) (py coords)
                    (lit "Click at " ++ pointText (px coords) (py coords))
                    (now env) delay_before in
      let stepData :=
        if isRecording cfg && smartRecord then
          match smartCapture env with
          | Some url => withSmart url (clickKind button' detail') stepData
          | None => stepData
          end
        else stepData in
      if streq (sd_type stepData) (lit "click")
         || (streq (sd_type stepData) (lit "smart_click")
             && match sd_originalType stepData with
                | Some o => streq o (lit "click")
                | None => false
                end)
      then (setTimer (Some {| due := (now env + 250)%Z;
                              timeoutProps := cfg;
                              timeoutStep := stepData |}) st1, [])
      else (st1, commitAction cfg stepData)
  end.

(** [handleMouseDown(e)].  Its dependency list names every prop and state
    that it and [processMouseAction] read. *)
Definition handleMouseDown (cfg : Config) (env : Env) (e : MouseEvent)
           (st : State) : State * list Call :=
  if negb (isRecording cfg) && negb (hasOnInteraction cfg) then (st, [])
  else if isRecording cfg && isPaused cfg then (st, [])
  else
    match canvas env with
    | None => (st, [])
    | Some rect =>
        let mouseX := Num.sub (clientX e) (left rect) in
        let mouseY := Num.sub (clientY e) (top rect) in
        if isRecording cfg && (isVerifyMode cfg || isVerifyTextMode cfg)
        then (setSelection (Some (mouseX, mouseY)) st, [])
        else if isRecording cfg && (button e =? 0)%Z then
          let coords :=
            scaleCoordinates (clientX e) (clientY e) rect
                             (screenWidth cfg) (screenHeight cfg) in
          (setDrag (Some {| startX := px coords; startY := py coords;
                            clientStartX := clientX e;
                            clientStartY := clientY e;
                            isDragging := false;
                            dragButton := button e;
                            dragDetail := detail e |}) st, [])
        else processMouseAction cfg (isSmartRecord cfg) env e None None st
    end.

(** [handleMouseMoveCapture(e)]. *)
Definition handleMouseMoveCapture (e : MouseEvent) (st : State) : State :=
  match dragDataRef st with
  | None => st
  | Some d =>
      if isDragging d then st
      else
        let dx := Num.abs (Num.sub (clientX e) (clientStartX d)) in
        let dy := Num.abs (Num.sub (clientY e) (clientStartY d)) in
        if Num.gt dx (Num.ofZ 10) || Num.gt dy (Num.ofZ 10)
        then setDrag (Some (setDragging true d)) st
        else st
  end.

(** [handleMouseUpCapture(e)].  In the dragging branch the canvas is
    used without a null check: without a canvas the handler throws
    before it has changed anything.  [isSmartRecord] is not among the
    dependencies of this handler: the [processMouseAction] that it calls
    reads the value that the handler has captured. *)
Definition handleMouseUpCapture (cfg : Config) (env : Env)
           (e : MouseEvent) (st : State) : State * list Call :=
  match dragDataRef st with
  | None => (st, [])
  | Some d =>
      if isDragging d then
        match canvas env with
        | None => (st, [])
        | Some rect =>
            let coords :=
              scaleCoordinates (clientX e) (clientY e) rect
                               (screenWidth cfg) (screenHeight cfg) in
            let delay_before := delayBefore env st in
            let st1 := setLastAction (Some (now env)) st in
            let stepData :=
              withDrag (px coords) (py coords)
                (pointerStep (lit "drag") (startX d) (startY d)
                   (lit "Drag from " ++ pointText (startX d) (startY d)
                      ++ lit " to " ++ pointText (px coords) (py coords))
                   (now env) delay_before) in
            (setDrag None st1, notify cfg stepData)
        end
      else
        let '(st1, calls) :=
          processMouseAction cfg (mouseUp_isSmartRecord cfg) env e
                             (Some (dragButton d)) (Some (dragDetail d))
                             st in
        (setDrag None st1, calls)
  end.

(** [handleWheelCapture(e)]. *)
Definition handleWheelCapture (cfg : Config) (env : Env) (e : WheelEvent)
           (st : State) : State * list Call :=
  if negb (isRecording cfg) || isPaused cfg
     || isVerifyMode cfg || isVerifyTextMode cfg
  then (st, [])
  else
    match canvas env with
    | None => (st, [])
    | Some rect =>
        let coords :=
          scaleCoordinates (wheelX e) (wheelY e) rect
                           (screenWidth cfg) (screenHeight cfg) in
        let delay_before := delayBefore env st in
        let st1 := setLastAction (Some (now env)) st in
        let direction :=
          if Num.gt (deltaY e) (Num.ofZ 0) then lit "down" else lit "up" in
        let stepData :=
          withScroll direction (Num.ofZ 1)
            (pointerStep (lit "scroll") (px coords) (py coords)
               (lit "Scroll " ++ direction ++ lit " at "
                  ++ pointText (px coords) (py coords))
               (now env) delay_before) in
        (st1, notify cfg stepData)
    end.

(** The callback of [setTimeout(commitAction, 250)]: it runs no earlier
    than its due time, and only if the timer has not been cleared.  It
    reads the props of the render that has set the timer. *)
Definition timerFire (env : Env) (st : State) : State * list Call :=
  match clickTimeoutRef st with
  | Some t =>
      if (due t <=? now env)%Z
      then (setTimer None st, commitAction (timeoutProps t) (timeoutStep t))
      else (st, [])
  | None => (st, [])
  end.

(** The displacement of a move event from the point where the button
    went down exceeds 10 units on one of the axes. *)
Definition displacementExceeds (x0 y0 : number) (e : MouseEvent) : bool :=
  Num.gt (Num.abs (Num.sub (clientX e) x0)) (Num.ofZ 10)
  || Num.gt (Num.abs (Num.sub (clientY e) y0)) (Num.ofZ 10).

(** A sequence of move events, each with its surroundings. *)
Definition moveTrace (moves : list (Env * MouseEvent))
  : list (Env * Event) :=
  map (fun m => (fst m, MouseMove (snd m))) moves.

(** A sequence of timer callbacks, each with its surroundings. *)
Definition timerTrace (ticks : list Env) : list (Env * Event) :=
  map (fun env => (env, TimerFire)) ticks.

(** The kind of click that a step stands for: the original type of a
    smart click, the type of any other step. *)
Definition resolvedType (sd : StepData) : jsstring :=
  if streq (sd_type sd) (lit "smart_click")
  then match sd_originalType sd with Some o => o | None => [] end
  else sd_type sd.

(** An event of the pointer or the wheel on the canvas wrapper goes to the
    handler that the wrapper binds to it, and the click timer to its
    callback.  While a selection is being drawn ([selectionStart] is not
    null) the component has listeners for the movement and the release of
    the pointer on the window as well, and the dialog that confirms a
    recognised text has buttons of its own: these are not events of this
    model, which follows the component while no selection is being drawn. *)
Definition step (cfg : Config) (env : Env) (ev : Event) (st : State)
  : State * list Call :=
  match ev with
  | MouseDown e => handleMouseDown cfg env e st
  | MouseMove e => (handleMouseMoveCapture e st, [])
  | MouseUp e => handleMouseUpCapture cfg env e st
  | Wheel e => handleWheelCapture cfg env e st
  | TimerFire => timerFire env st
  end.

(** The handlers run one after the other, in the order of the events.  No
    handler of these events sets a prop or a state of [Config]: the props
    are the same for the whole sequence. *)
Fixpoint run (cfg : Config) (trace : list (Env * Event)) (st : State)
  : State * list Call :=
  match trace with
  | [] => (st, [])
  | (env, ev) :: rest =>
      let '(st1, calls1) := step cfg env ev st in
      let '(st2, calls2) := run cfg rest st1 in
      (st2, calls1 ++ calls2)
  end.

(** The fields of a keyboard event that [handleKeyDown] reads. *)
Record KeyEvent := {
  key : jsstring;
  keyRepeat : bool;
  ctrlKey : bool;
  altKey : bool;
  shiftKey : bool;
  targetTagName : jsstring }.

(** What a call of [handleKeyDown] does: the refs after it, the calls of
    the callbacks, whether it has left the verify modes, and whether it has
    called [preventDefault]. *)
Record KeyOutcome := {
  ko_state : State;
  ko_calls : list Call;
  ko_leftVerify : bool;
  ko_defaultPrevented : bool }.

(** The table [specialKeys]; the names of keys are not names of members
    of [Object.prototype]. *)
Definition specialKeys (k : jsstring) : option jsstring :=
  if streq k (lit "Enter") then Some (lit "enter")
  else if streq k (lit "Tab") then Some (lit "tab")
  else if streq k (lit "Escape") then Some (lit "escape")
  else if streq k (lit "Backspace") then Some (lit "backspace")
  else if streq k (lit "Delete") then Some (lit "delete")
  else if streq k (lit "ArrowUp") then Some (lit "up")
  else if streq k (lit "ArrowDown") then Some (lit "down")
  else if streq k (lit "ArrowLeft") then Some (lit "left")
  else if streq k (lit "ArrowRight") then Some (lit "right")
  else None.

(** [playerInputIsMeaningful(key, modifiers)]. *)
Definition playerInputIsMeaningful (k : jsstring) (modifiers : list jsstring)
  : bool :=
  if existsb (streq k)
             [lit "Shift"; lit "Control"; lit "Alt"; lit "Meta"]
  then false else true.

(** The array [modifiers] of [handleKeyDown]. *)
Definition modifiersOf (e : KeyEvent) : list jsstring :=
  (if ctrlKey e then [lit "ctrl"] else [])
    ++ (if altKey e then [lit "alt"] else [])
    ++ (if shiftKey e then [lit "shift"] else []).

(** [keyName] after the look-up in [specialKeys]. *)
Definition keyNameOf (e : KeyEvent) : jsstring :=
  match specialKeys (key e) with
  | Some name => name
  | None => key e
  end.

(** The object literal [stepData] of [handleKeyDown], with the delay
    assigned to it afterwards. *)
Definition keyStep (modifiers : list jsstring) (keyName : jsstring)
           (timestamp : Z) (delay_before : number) : StepData :=
  let combo := (0 <? length modifiers)%nat in
  let single := (length keyName =? 1)%nat in
  {| sd_type :=
       if combo then lit "key_combo"
       else if single then lit "type" else lit "key_press";
     sd_originalType := None;
     sd_direction := None; sd_clicks := None;
     sd_x := None; sd_y := None;
     sd_end_x := None; sd_end_y := None;
     sd_width := None; sd_height := None;
     sd_text :=
       if single && (length modifiers =? 0)%nat then Some keyName else None;
     sd_keys :=
       Some (if combo then modifiers ++ [keyName] else [keyName]);
     sd_template_data := None; sd_smartTemplate := None;
     sd_timeout := None;
     sd_description :=
       Some (if combo
             then lit "Keys: " ++ joinWith (lit "+") modifiers ++ lit "+"
                    ++ keyName
             else if single then lit "Type: " ++ keyName
             else lit "Key: " ++ keyName);
     sd_timestamp := Some timestamp;
     sd_delay_before := Some delay_before |}.

(** [handleKeyDown(e)].  [isVerifyMode] and [isVerifyTextMode] are not
    among the dependencies of this handler: it reads the values that it has
    captured. *)
Definition handleKeyDown (cfg : Config) (env : Env) (e : KeyEvent)
           (st : State) : KeyOutcome :=
  let ignored :=
    {| ko_state := st; ko_calls := [];
       ko_leftVerify := false; ko_defaultPrevented := false |} in
  if keyRepeat e then ignored
  else if streq (key e) (lit "Escape")
          && (keyDown_isVerifyMode cfg || keyDown_isVerifyTextMode cfg)
  then {| ko_state := setSelection None st; ko_calls := [];
          ko_leftVerify := true; ko_defaultPrevented := false |}
  else if negb (isRecording cfg) && negb (hasOnInteraction cfg) then ignored
  else if isRecording cfg && isPaused cfg then ignored
  else if streq (targetTagName e) (lit "INPUT")
          || streq (targetTagName e) (lit "TEXTAREA")
  then ignored
  else
    let prevented :=
      existsb (streq (key e))
              [lit "Tab"; lit "ArrowUp"; lit "ArrowDown"; lit "ArrowLeft";
               lit "ArrowRight"] in
    let modifiers := modifiersOf e in
    let keyName := keyNameOf e in
    if playerInputIsMeaningful keyName modifiers then
      let delay_before := delayBefore env st in
      let stepData := keyStep modifiers keyName (now env) delay_before in
      {| ko_state := setLastAction (Some (now env)) st;
         ko_calls := commitAction cfg stepData;
         ko_leftVerify := false; ko_defaultPrevented := prevented |}
    else
      {| ko_state := st; ko_calls := [];
         ko_leftVerify := false; ko_defaultPrevented := prevented |}.

(** An input of the viewer: an event of the pointer, the wheel or the
    click timer, or a key going down. *)
Inductive Input :=
| Pointer (ev : Event)
| KeyDown (e : KeyEvent).

Definition stepInput (cfg : Config) (env : Env) (inp : Input) (st : State)
  : State * list Call :=
  match inp with
  | Pointer ev => step cfg env ev st
  | KeyDown e =>
      let outcome := handleKeyDown cfg env e st in
      (ko_state outcome, ko_calls outcome)
  end.

(** An input that is a wheel tick or a key going down. *)
Definition isWheelOrKey (inp : Input) : bool :=
  match inp with
  | Pointer (Wheel _) | KeyDown _ => true
  | Pointer _ => false
  end.

(** [setIsVerifyMode(false); setIsVerifyTextMode(false)]: the next render
    hands the new values to the handlers that have these states among
    their dependencies; [handleKeyDown] keeps what it has captured. *)
Definition leaveVerify (cfg : Config) : Config :=
  {| isRecording := isRecording cfg; isPaused := isPaused cfg;
     hasOnStep := hasOnStep cfg; hasOnInteraction := hasOnInteraction cfg;
     isSmartRecord := isSmartRecord cfg;
     isVerifyMode := false; isVerifyTextMode := false;
     screenWidth := screenWidth cfg; screenHeight := screenHeight cfg;
     mouseUp_isSmartRecord := mouseUp_isSmartRecord cfg;
     keyDown_isVerifyMode := keyDown_isVerifyMode cfg;
     keyDown_isVerifyTextMode := keyDown_isVerifyTextMode cfg |}.

(** The props and states that the handlers read after an input: a key
    that leaves the verify modes is the only input that sets one of them. *)
Definition propsAfter (cfg : Config) (env : Env) (inp : Input) (st : State)
  : Config :=
  match inp with
  | Pointer _ => cfg
  | KeyDown e =>
      if ko_leftVerify (handleKeyDown cfg env e st) then leaveVerify cfg
      else cfg
  end.

Fixpoint runInputs (cfg : Config) (trace : list (Env * Input)) (st : State)
  : State * list Call :=
  match trace with
  | [] => (st, [])
  | (env, inp) :: rest =>
      let '(st1, calls1) := stepInput cfg env inp st in
      let '(st2, calls2) := runInputs (propsAfter cfg env inp st) rest st1 in
      (st2, calls1 ++ calls2)
  end.

End WithBuiltins.

End VNCViewer.

(* ================================================================== *)
(** * components/CodeEditor.jsx: [insertCode] *)
(* ================================================================== *)

Module CodeEditor.

(** ** The text model of the editor

    The editor is an external component.  Its text model is a sequence of
    lines together with the end-of-line sequence of the buffer, which is a
    line feed or a carriage return followed by a line feed and is fixed when
    the model is created.  The lines hold neither of the two characters.
    Positions are pairs of a line number and a column, both counted from 1.
    [getValue] joins the lines with the end-of-line sequence of the buffer,
    [getLineContent] gives a line without it.  An edit replaces the text
    between two positions, after the positions have been brought into the
    text; every line break of the inserted text, be it written as a line
    feed, as a carriage return or as the two in a row, becomes a line break
    of the buffer. *)

Definition CR : codeunit := 13%N.

Inductive EndOfLine := EolLF | EolCRLF.

Definition eolText (eol : EndOfLine) : jsstring :=
  match eol with
  | EolLF => [LF]
  | EolCRLF => [CR; LF]
  end.

Record TextModel := {
  modelLines : list jsstring;
  modelEOL : EndOfLine }.

Definition isLineBreak (c : codeunit) : bool := N.eqb c LF || N.eqb c CR.

(** The text holds no line break. *)
Definition noLineBreak (s : jsstring) : bool := negb (existsb isLineBreak s).

(** The invariant of the text model: there is a line, and no line holds a
    line break. *)
Definition validModel (m : TextModel) : bool :=
  match modelLines m with
  | [] => false
  | _ :: _ => forallb noLineBreak (modelLines m)
  end.

(** The lines of a text: it is cut at every carriage return followed by a
    line feed, and at every other carriage return or line feed. *)
Fixpoint breakLines (s : jsstring) : list jsstring :=
  match s with
  | [] => [[]]
  | c :: rest =>
      if N.eqb c LF then [] :: breakLines rest
      else if N.eqb c CR then
        match rest with
        | c' :: rest' =>
            if N.eqb c' LF then [] :: breakLines rest'
            else [] :: breakLines rest
        | [] => [] :: breakLines rest
        end
      else
        match breakLines rest with
        | [] => [[c]]
        | l :: ls => (c :: l) :: ls
        end
  end.

Record Range := {
  startLineNumber : nat; startColumn : nat;
  endLineNumber : nat; endColumn : nat }.

(** [model.getValue()]. *)
Definition getValue (m : TextModel) : jsstring :=
  joinWith (eolText (modelEOL m)) (modelLines m).

(** [model.getLineCount()]. *)
Definition getLineCount (m : TextModel) : nat := length (modelLines m).

(** [model.getLineContent(lineNumber)]. *)
Definition getLineContent (m : TextModel) (lineNumber : nat) : jsstring :=
  nth (lineNumber - 1) (modelLines m) [].

Definition validatePosition (lines : list jsstring)
           (lineNumber column : nat) : nat * nat :=
  if lineNumber <? 1 then (1, 1)
  else if length lines <? lineNumber
  then (length lines, S (length (nth (length lines - 1) lines [])))
  else
    let maxColumn := S (length (nth (lineNumber - 1) lines [])) in
    if column <=? 1 then (lineNumber, 1)
    else if maxColumn <=? column then (lineNumber, maxColumn)
    else (lineNumber, column).

(** [editor.executeEdits(source, [{range, text}])]: the lines in front of
    the range and behind it stay; what is left of the first and of the last
    line of the range, with the text in between, is cut into lines anew. *)
Definition executeEdits (m : TextModel) (range : Range)
           (text : jsstring) : TextModel :=
  let lines := modelLines m in
  let '(l1, c1) :=
    validatePosition lines (startLineNumber range) (startColumn range) in
  let '(l2, c2) :=
    validatePosition lines (endLineNumber range) (endColumn range) in
  let before := firstn (l1 - 1) lines in
  let head := firstn (c1 - 1) (nth (l1 - 1) lines []) in
  let tail := skipn (c2 - 1) (nth (l2 - 1) lines []) in
  let after := skipn l2 lines in
  {| modelLines := before ++ breakLines (head ++ text ++ tail) ++ after;
     modelEOL := modelEOL m |}.

(** ** The insertion *)

(** The editor behind [editorRef]: the code editor with its selection, or
    the plain text area with its caret. *)
Inductive Editor :=
| Monaco (model : TextModel) (selection : Range)
| Textarea (value : jsstring) (selectionStart : nat).

Definition editorValue (ed : Editor) : jsstring :=
  match ed with
  | Monaco m _ => getValue m
  | Textarea v _ => v
  end.

(** Consume the white space matched by [\s*]. *)
Definition skipSpaces (s : jsstring) : jsstring := trimStart s.

(** Consume the literal [p] at the head of [s]. *)
Fixpoint expect (p s : jsstring) : option jsstring :=
  match p, s with
  | [], _ => Some s
  | _ :: _, [] => None
  | x :: p', y :: s' => if N.eqb x y then expect p' s' else None
  end.

(** [line.match(/^\s*def\s+run\s*\(/)] succeeds.  No alternative of the
    expression needs backtracking, since none of the literals starts with
    white space. *)
Definition matchesDefRun (line : jsstring) : bool :=
  match expect (lit "def") (skipSpaces line) with
  | Some s1 =>
      match s1 with
      | c :: s2 =>
          isWhiteSpace c &&
          match expect (lit "run") (skipSpaces s2) with
          | Some s3 =>
              match expect (lit "(") (skipSpaces s3) with
              | Some _ => true
              | None => false
              end
          | None => false
          end
      | [] => false
      end
  | None => false
  end.

(** The first loop of [findInsertionPosition]: the 1-based number of the
    first line that matches, or [None] for -1. *)
Fixpoint findRunFunctionLine (lines : list jsstring) (i : nat)
  : option nat :=
  match lines with
  | [] => None
  | line :: rest =>
      if matchesDefRun line then Some (S i)
      else findRunFunctionLine rest (S i)
  end.

(** The line is neither blank nor a comment. *)
Definition isCodeLine (line : jsstring) : bool :=
  negb (streq (trim line) []) && negb (startsWith (lit "#") (trim line)).

(** The second loop: [rest] holds the lines from index [i] on; the result
    is the pair of [insertLine] and [passLine]. *)
Fixpoint scanBlock (baseIndentLength : nat) (rest : list jsstring)
         (i insertLine : nat) (passLine : option nat)
  : nat * option nat :=
  match rest with
  | [] => (insertLine, passLine)
  | line :: rest' =>
      if isCodeLine line && (leadingSpaces line <=? baseIndentLength)
      then (insertLine, passLine)
      else
        scanBlock baseIndentLength rest' (S i) (S i)
                  (if streq (trim line) (lit "pass") then Some (S i)
                   else passLine)
  end.

(** The third loop: step back over trailing blank lines. *)
Fixpoint backtrack (fuel : nat) (lines : list jsstring)
         (runFunctionLine insertLine : nat) : nat :=
  match fuel with
  | O => insertLine
  | S fuel' =>
      if (runFunctionLine <? insertLine)
         && streq (trim (nth (insertLine - 1) lines [])) []
      then backtrack fuel' lines runFunctionLine (insertLine - 1)
      else insertLine
  end.

Record InsertionPosition := {
  lineNumber : nat;
  column : nat;
  indent : jsstring;
  replacePass : bool;
  replaceLine : nat }.

(** [findInsertionPosition()] from its second line on, [lines] being the
    array that its first line has made; [None] stands for [null]. *)
Definition insertionPositionIn (lines : list jsstring)
  : option InsertionPosition :=
  match findRunFunctionLine lines 0 with
  | Some runFunctionLine =>
      let defLine := nth (runFunctionLine - 1) lines [] in
      let baseIndentLength := leadingSpaces defLine in
      let '(insertLine, passLine) :=
        scanBlock baseIndentLength (skipn runFunctionLine lines)
                  runFunctionLine runFunctionLine None in
      let insertLine :=
        backtrack insertLine lines runFunctionLine insertLine in
      Some {| lineNumber := insertLine;
              column := 1;
              indent := lit "    ";
              replacePass :=
                match passLine with Some _ => true | None => false end;
              replaceLine :=
                match passLine with Some p => p | None => insertLine end |}
  | None => None
  end.

(** [findInsertionPosition()]: its first line is
    [const lines = model.getValue().split('\n')].  In a buffer whose
    end-of-line sequence is a carriage return with a line feed, every
    element of this array but the last ends with a carriage return. *)
Definition findInsertionPosition (m : TextModel)
  : option InsertionPosition :=
  insertionPositionIn (split LF (getValue m)).


(** [view] is the line [line] of the model as the array of
    [findInsertionPosition] holds it: the line itself, or the line with the
    carriage return of the end-of-line sequence at its end. *)
Definition viewOf (line view : jsstring) : Prop :=
  view = line \/ view = line ++ [CR].

(** The scan of the block goes on over this line. *)
Definition inBlock (baseIndentLength : nat) (line : jsstring) : bool :=
  negb (isCodeLine line && (leadingSpaces line <=? baseIndentLength)).

Definition isBlank (line : jsstring) : bool := streq (trim line) [].

Definition isPlaceholder (line : jsstring) : bool :=
  streq (trim line) (lit "pass").


(** The block ends in front of these lines: there is none, or the first
    one is a line of code at or below the indentation of the header. *)
Definition blockEnds (baseIndentLength : nat) (rest : list jsstring)
  : bool :=
  match rest with
  | [] => true
  | line :: _ => negb (inBlock baseIndentLength line)
  end.

(** The value of [passLine] after the scan has gone over the lines [xs],
    the first of which has index [i]. *)
Fixpoint passAfter (xs : list jsstring) (i : nat) (passLine : option nat)
  : option nat :=
  match xs with
  | [] => passLine
  | line :: xs' =>
      passAfter xs' (S i) (if isPlaceholder line then Some (S i)
                           else passLine)
  end.

(** [text.split('\n').map((line, i) => i === 0 && line === '' ? '' :
    indent + line)]. *)
Definition indentReplacing (indent : jsstring) (lines : list jsstring)
  : list jsstring :=
  match lines with
  | [] => []
  | first :: rest =>
      (if streq first [] then [] else indent ++ first)
        :: map (fun line => indent ++ line) rest
  end.

(** [text.split('\n').map(line => line.trim() === '' ? '' :
    indent + line)]. *)
Definition indentAppending (indent : jsstring) (lines : list jsstring)
  : list jsstring :=
  map (fun line => if streq (trim line) [] then [] else indent ++ line)
      lines.

(** [insertCode(text, forceRunFunction)] on a mounted editor; the result is
    the editor after the call.  The selection of the code editor is left as
    it was: only an insertion that is not forced reads it. *)
Definition insertCode (ed : Editor) (text : jsstring)
           (forceRunFunction : bool) : Editor :=
  match ed with
  | Monaco model selection =>
      let shouldUseRunFunction :=
        forceRunFunction
        || ((startLineNumber selection =? 1)
            && (startColumn selection =? 1)) in
      let '(targetRange, insertText) :=
        if shouldUseRunFunction then
          match findInsertionPosition model with
          | Some pos =>
              if replacePass pos then
                ({| startLineNumber := replaceLine pos;
                    startColumn := 1;
                    endLineNumber := replaceLine pos;
                    endColumn :=
                      length (getLineContent model (replaceLine pos)) + 1 |},
                 join LF (indentReplacing (indent pos) (split LF text))
                   ++ [LF])
              else
                ({| startLineNumber := lineNumber pos + 1;
                    startColumn := 1;
                    endLineNumber := lineNumber pos + 1;
                    endColumn := 1 |},
                 join LF (indentAppending (indent pos) (split LF text))
                   ++ [LF])
          | None =>
              let lineCount := getLineCount model in
              let lastLineContent := getLineContent model lineCount in
              let prefix :=
                if streq (trim lastLineContent) [] then []
                else [LF; LF] in
              ({| startLineNumber := lineCount;
                  startColumn := length lastLineContent + 1;
                  endLineNumber := lineCount;
                  endColumn := length lastLineContent + 1 |},
               prefix ++ text ++ [LF])
          end
        else (selection, text ++ [LF]) in
      Monaco (executeEdits model targetRange insertText) selection
  | Textarea value selectionStart =>
      let start :=
        if (selectionStart =? 0) && (0 <? length value)
        then length value else selectionStart in
      let before := firstn start value in
      let after := skipn start value in
      let newVal := before ++ text ++ LF :: after in
      Textarea newVal (length newVal)
  end.

End CodeEditor.

(* ================================================================== *)
(** * components/StepTimeline.jsx: [handleVNCInteraction] *)
(* ================================================================== *)

Module App.

Import Recording.

Record Config := {
  isRecording : bool;
  isPaused : bool;
  (** [editorRef.current?.insertCode] is defined. *)
  editorReady : bool }.

(** The two asynchronous blocks of the handler. *)
Inductive CaptureKind := AssertionCapture | SmartClickCapture.

(** A started block that waits for [createSmartTemplate] to settle: it
    keeps the [codeToInsert] and the step data of its call. *)
Record Pending := {
  pendingKind : CaptureKind;
  pendingPrefix : jsstring;
  pendingStep : StepData }.

(** A call [insertCode(text, forceRunFunction)] on the editor. *)
Record Insertion := { insertedText : jsstring; forced : bool }.

(** [lastRecordTimeRef], the blocks that have not settled yet, each with
    the number under which it was started, the next such number, and the
    calls made on the editor so far, in the order in which they were
    made. *)
Record State := {
  lastRecordTimeRef : option Z;
  pending : list (nat * Pending);
  nextId : nat;
  insertions : list Insertion }.

(** How [createSmartTemplate] settles: with a file name, or with an
    error that carries a message. *)
Inductive Outcome :=
| Resolved (filename : jsstring)
| Rejected (message : jsstring).

(** The handler is called with a step, or the promise of the block
    started under the number [id] settles. *)
Inductive Event :=
| Interaction (now : Z) (stepData : StepData)
| Settle (id : nat) (outcome : Outcome).

Definition setLastRecord (t : option Z) (st : State) : State :=
  {| lastRecordTimeRef := t; pending := pending st;
     nextId := nextId st; insertions := insertions st |}.

Definition spawn (p : Pending) (st : State) : State :=
  {| lastRecordTimeRef := lastRecordTimeRef st;
     pending := pending st ++ [(nextId st, p)];
     nextId := S (nextId st);
     insertions := insertions st |}.

Definition insert (text : jsstring) (st : State) : State :=
  {| lastRecordTimeRef := lastRecordTimeRef st;
     pending := pending st;
     nextId := nextId st;
     insertions := insertions st ++ [{| insertedText := text;
                                       forced := true |}] |}.

Definition lookupPending (id : nat) (ps : list (nat * Pending))
  : option Pending :=
  match find (fun q => fst q =? id) ps with
  | Some q => Some (snd q)
  | None => None
  end.

Definition unspawn (id : nat) (st : State) : State :=
  {| lastRecordTimeRef := lastRecordTimeRef st;
     pending := filter (fun q => negb (fst q =? id)) (pending st);
     nextId := nextId st;
     insertions := insertions st |}.

Definition timeTruthy (t : option Z) : bool :=
  match t with Some z => negb (z =? 0)%Z | None => false end.

Section WithBuiltins.

Context {B : Builtins}.

Definition showNum (v : option number) : jsstring :=
  match v with
  | Some n => numberToString n
  | None => lit "undefined"
  end.

(** [Math.round(v)] for a field that may be absent. *)
Definition roundField (v : option number) : number :=
  match v with Some n => Num.round n | None => Num.NaN end.

(** [Math.round(a + b / 2)] for fields that may be absent. *)
Definition centre (a b : option number) : number :=
  match a, b with
  | Some a', Some b' =>
      Num.round (Num.add a' (Num.div b' (Num.ofZ 2)))
  | _, _ => Num.NaN
  end.

(** [${stepData.timeout || d}]. *)
Definition timeoutOr (d : Z) (sd : StepData) : jsstring :=
  match sd_timeout sd with
  | Some t =>
      if Num.truthy t then numberToString t
      else numberToString (Num.ofZ d)
  | None => numberToString (Num.ofZ d)
  end.

Definition oneTenth : number := Num.div (Num.ofZ 1) (Num.ofZ 10).

(** [stepData.delay_before] when it is defined and above 0.1. *)
Definition recordedDelay (sd : StepData) : option number :=
  match sd_delay_before sd with
  | Some d => if Num.gt d oneTenth then Some d else None
  | None => None
  end.

(** [stepData.timestamp || Date.now()]. *)
Definition timestampOr (now : Z) (sd : StepData) : Z :=
  match sd_timestamp sd with
  | Some t => if (t =? 0)%Z then now else t
  | None => now
  end.

(** The first part of the handler: the wait statement put in front of
    the snippet, and the update of [lastRecordTimeRef]. *)
Definition timing (now : Z) (sd : StepData) (st : State)
  : jsstring * State :=
  match recordedDelay sd with
  | Some waitTime =>
      (lit "vnc.wait(" ++ numberToString waitTime ++ lit ")" ++ [LF], st)
  | None =>
      if timeTruthy (lastRecordTimeRef st) then
        let now' := timestampOr now sd in
        let last :=
          match lastRecordTimeRef st with Some l => l | None => 0%Z end in
        let diffSeconds :=
          Num.div (Num.ofZ (now' - last)) (Num.ofZ 1000) in
        let prefix :=
          if Num.gt diffSeconds (Num.ofZ 1)
             && Num.lt diffSeconds (Num.ofZ 30)
          then
            let waitTime :=
              Num.div (Num.round (Num.mul diffSeconds (Num.ofZ 10)))
                      (Num.ofZ 10) in
            lit "vnc.wait(" ++ numberToString waitTime ++ lit ")"
              ++ [LF]
          else [] in
        (prefix, setLastRecord (Some now') st)
      else ([], setLastRecord (Some (timestampOr now sd)) st)
  end.

(** What the [switch] does with the step. *)
Inductive Action :=
| InsertNow (snippet : jsstring)
| Start (kind : CaptureKind)
| Nothing.

Definition bothPresent (a b : option number) : bool :=
  match a, b with Some _, Some _ => true | _, _ => false end.

Definition dispatch (sd : StepData) : Action :=
  let t := sd_type sd in
  if streq t (lit "click") then
    InsertNow (lit "vnc.click(" ++ showNum (sd_x sd) ++ lit ", "
                 ++ showNum (sd_y sd) ++ lit ")")
  else if streq t (lit "right_click") then
    InsertNow (lit "vnc.right_click(" ++ showNum (sd_x sd) ++ lit ", "
                 ++ showNum (sd_y sd) ++ lit ")")
  else if streq t (lit "type") then
    InsertNow (lit "vnc.type("
                 ++ match sd_text sd with
                    | Some text => jsonString text
                    | None => lit "undefined"
                    end
                 ++ lit ")")
  else if streq t (lit "key_press") then
    match sd_keys sd with
    | Some keys =>
        InsertNow (litq "vnc.press(`"
                     ++ match keys with
                        | k :: _ => k
                        | [] => lit "undefined"
                        end
                     ++ litq "`)")
    | None => Nothing
    end
  else if streq t (lit "key_combo") then
    InsertNow (lit "vnc.key_combo(["
                 ++ joinWith (lit ",")
                      (map jsonString
                           match sd_keys sd with
                           | Some keys => keys
                           | None => []
                           end)
                 ++ lit "])")
  else if streq t (lit "wait_for_image") then Start AssertionCapture
  else if streq t (lit "wait_for_text") then
    let hintArg :=
      if bothPresent (sd_x sd) (sd_y sd)
      then lit ", hint=(" ++ showNum (sd_x sd) ++ lit ", "
             ++ showNum (sd_y sd) ++ lit ")"
      else [] in
    InsertNow (lit "vnc.wait_for_text("
                 ++ jsonString
                      (if match sd_text sd with
                          | Some text => truthy text
                          | None => false
                          end
                       then match sd_text sd with
                            | Some text => text
                            | None => []
                            end
                       else lit "Success")
                 ++ lit ", timeout=" ++ timeoutOr 30 sd ++ hintArg
                 ++ lit ")")
  else if streq t (lit "wait") then
    InsertNow (lit "vnc.wait(" ++ timeoutOr 5 sd ++ lit ")")
  else if streq t (lit "smart_click") then Start SmartClickCapture
  else Nothing.

(** [handleVNCInteraction(stepData)], called at time [now]. *)
Definition handleVNCInteraction (cfg : Config) (now : Z)
           (sd : StepData) (st : State) : State :=
  if negb (isRecording cfg) || isPaused cfg || negb (editorReady cfg)
  then st
  else
    let '(codeToInsert, st1) := timing now sd st in
    match dispatch sd with
    | InsertNow snippet =>
        if truthy snippet then insert (codeToInsert ++ snippet) st1
        else st1
    | Start kind =>
        spawn {| pendingKind := kind;
                 pendingPrefix := codeToInsert;
                 pendingStep := sd |} st1
    | Nothing => st1
    end.

(** The text that a block inserts once [createSmartTemplate] has
    settled. *)
Definition settledText (p : Pending) (outcome : Outcome) : jsstring :=
  let sd := pendingStep p in
  match pendingKind p, outcome with
  | AssertionCapture, Resolved filename =>
      let sized := bothPresent (sd_width sd) (sd_height sd) in
      let hintX :=
        if sized then centre (sd_x sd) (sd_width sd)
        else roundField (sd_x sd) in
      let hintY :=
        if sized then centre (sd_y sd) (sd_height sd)
        else roundField (sd_y sd) in
      pendingPrefix p
        ++ litq "vnc.wait_for_image(`" ++ filename ++ litq "`, timeout="
        ++ timeoutOr 30 sd ++ lit ", hint=(" ++ numberToString hintX
        ++ lit ", " ++ numberToString hintY ++ lit "))"
  | AssertionCapture, Rejected message =>
      pendingPrefix p ++ lit "# Failed to capture assertion: " ++ message
  | SmartClickCapture, Resolved filename =>
      let hX := roundField (sd_x sd) in
      let hY := roundField (sd_y sd) in
      let call (method : jsstring) :=
        lit "vnc." ++ method ++ litq "(`" ++ filename
          ++ litq "`, timeout=30.0, hint=(" ++ numberToString hX
          ++ lit ", " ++ numberToString hY ++ lit "))" in
      let o :=
        match sd_originalType sd with Some o => o | None => [] end in
      pendingPrefix p
        ++ (if streq o (lit "click") then call (lit "click")
            else if streq o (lit "right_click")
            then call (lit "right_click")
            else if streq o (lit "double_click")
            then call (lit "double_click")
            else [])
  | SmartClickCapture, Rejected _ =>
      pendingPrefix p ++ lit "vnc.click(" ++ showNum (sd_x sd)
        ++ lit ", " ++ showNum (sd_y sd) ++ lit ")"
  end.

(** The continuation of a pending block runs when its promise
    settles. *)
Definition settle (cfg : Config) (id : nat) (outcome : Outcome)
           (st : State) : State :=
  match lookupPending id (pending st) with
  | Some p =>
      let st1 := unspawn id st in
      if editorReady cfg then insert (settledText p outcome) st1
      else st1
  | None => st
  end.

Definition step (cfg : Config) (ev : Event) (st : State) : State :=
  match ev with
  | Interaction now sd => handleVNCInteraction cfg now sd st
  | Settle id outcome => settle cfg id outcome st
  end.

(** The text that the settling [s] of a block pending in [st] inserts. *)
Definition settledTextOf (st : State) (s : nat * Outcome) : jsstring :=
  match lookupPending (fst s) (pending st) with
  | Some p => settledText p (snd s)
  | None => []
  end.

Definition isPending (st : State) (id : nat) : bool :=
  match lookupPending id (pending st) with
  | Some _ => true
  | None => false
  end.

Definition settleTrace (settles : list (nat * Outcome)) : list Event :=
  map (fun s => Settle (fst s) (snd s)) settles.

Definition insertedTexts (st : State) : list jsstring :=
  map insertedText (insertions st).

Definition run (cfg : Config) (trace : list Event) (st : State) : State :=
  fold_left (fun st ev => step cfg ev st) trace st.

End WithBuiltins.

End App.

(* ================================================================== *)
(** * Built-in conversions on the values used in the examples *)
(* ================================================================== *)

Module Examples.

(** The decimal digits of an integer. *)
Definition decimal (z : Z) : jsstring :=
  lit (DecimalString.NilZero.string_of_int (Z.to_int z)).

(** Number::toString on NaN, the infinities, the zeros and the integral
    numbers of magnitude up to [2^53], for which it gives the decimal digits
    of the integer.  The examples print no other number; on those this
    function shows the integral part and differs from Number::toString. *)
Definition integralToString (a : number) : jsstring :=
  match a with
  | S754_nan => lit "NaN"
  | S754_infinity false => lit "Infinity"
  | S754_infinity true => lit "-Infinity"
  | S754_zero _ => lit "0"
  | S754_finite s m e =>
      decimal (cond_Zopp s (if (0 <=? e)%Z then Zpos m * 2 ^ e
                            else Zpos m / 2 ^ (- e)))
  end.

(** toUpperCase on strings of ASCII code units. *)
Definition asciiUpper (s : jsstring) : jsstring :=
  map (fun c => if ((97 <=? c) && (c <=? 122))%N then (c - 32)%N else c) s.

(** JSON.stringify on strings of printable ASCII code units. *)
Definition asciiJson (s : jsstring) : jsstring :=
  DQUOTE
    :: flat_map (fun c => if (N.eqb c DQUOTE || N.eqb c 92)%N
                          then [92%N; c] else [c]) s
    ++ [DQUOTE].

#[export] Instance asciiBuiltins : Builtins := {|
  numberToString := integralToString;
  toUpperCase := asciiUpper;
  jsonString := asciiJson |}.

Definition mouseAt (x y button detail : Z) : VNCViewer.MouseEvent :=
  {| VNCViewer.clientX := Num.ofZ x; VNCViewer.clientY := Num.ofZ y;
     VNCViewer.button := button; VNCViewer.detail := detail |}.

(** A recording session on a screen of 1024 by 768, smart capture off. *)
Definition recording : VNCViewer.Config :=
  {| VNCViewer.isRecording := true; VNCViewer.isPaused := false;
     VNCViewer.hasOnStep := true; VNCViewer.hasOnInteraction := true;
     VNCViewer.isSmartRecord := false;
     VNCViewer.isVerifyMode := false;
     VNCViewer.isVerifyTextMode := false;
     VNCViewer.screenWidth := Num.ofZ 1024;
     VNCViewer.screenHeight := Num.ofZ 768;
     VNCViewer.mouseUp_isSmartRecord := false;
     VNCViewer.keyDown_isVerifyMode := false;
     VNCViewer.keyDown_isVerifyTextMode := false |}.

(** The surroundings of a handler at a given time: a canvas of the size of
    the screen, no smart capture. *)
Definition atTime (now : Z) : VNCViewer.Env :=
  {| VNCViewer.now := now;
     VNCViewer.canvas := Some (Coordinates.canvasAtOrigin 1024 768);
     VNCViewer.smartCapture := None |}.

Definition idle : VNCViewer.State :=
  {| VNCViewer.dragDataRef := None;
     VNCViewer.clickTimeoutRef := None;
     VNCViewer.lastActionTimeRef := Some 0%Z;
     VNCViewer.selectionStart := None |}.

(** The step handed over for a smart click at (x, y), with no delay. *)
Definition smartClickAt (x y timestamp : Z) : Recording.StepData :=
  Recording.withSmart (lit "data:image/png;base64,AAAA") (lit "click")
    (Recording.pointerStep (lit "click") (Num.ofZ x) (Num.ofZ y)
       (lit "Click at (" ++ decimal x ++ lit ", " ++ decimal y ++ lit ")")
       timestamp (Num.ofZ 0)).

(** The same session while the recording is paused. *)
Definition paused : VNCViewer.Config :=
  {| VNCViewer.isRecording := true; VNCViewer.isPaused := true;
     VNCViewer.hasOnStep := true; VNCViewer.hasOnInteraction := true;
     VNCViewer.isSmartRecord := false;
     VNCViewer.isVerifyMode := false;
     VNCViewer.isVerifyTextMode := false;
     VNCViewer.screenWidth := Num.ofZ 1024;
     VNCViewer.screenHeight := Num.ofZ 768;
     VNCViewer.mouseUp_isSmartRecord := false;
     VNCViewer.keyDown_isVerifyMode := false;
     VNCViewer.keyDown_isVerifyTextMode := false |}.

(** A key going down on the viewer, with the modifiers given. *)
Definition keyDown (key : jsstring) (ctrl alt shift : bool)
  : VNCViewer.KeyEvent :=
  {| VNCViewer.key := key; VNCViewer.keyRepeat := false;
     VNCViewer.ctrlKey := ctrl; VNCViewer.altKey := alt;
     VNCViewer.shiftKey := shift;
     VNCViewer.targetTagName := lit "DIV" |}.

Definition wheelAt (x y deltaY : Z) : VNCViewer.WheelEvent :=
  {| VNCViewer.wheelX := Num.ofZ x; VNCViewer.wheelY := Num.ofZ y;
     VNCViewer.deltaY := Num.ofZ deltaY |}.

(** The step buffered for a click at (x, y). *)
Definition clickAt (x y timestamp : Z) : Recording.StepData :=
  Recording.pointerStep (lit "click") (Num.ofZ x) (Num.ofZ y)
    (lit "Click at (" ++ decimal x ++ lit ", " ++ decimal y ++ lit ")")
    timestamp (Num.ofZ 0).

(** The refs while the click at (10, 20) of time 0 is buffered. *)
Definition buffered : VNCViewer.State :=
  VNCViewer.setTimer
    (Some {| VNCViewer.due := 250%Z;
             VNCViewer.timeoutProps := recording;
             VNCViewer.timeoutStep := clickAt 10 20 0 |}) idle.

(** The model of a buffer whose end-of-line sequence is [eol] and whose
    lines are the lines of the text [text]. *)
Definition modelOf (eol : CodeEditor.EndOfLine) (text : jsstring)
  : CodeEditor.TextModel :=
  {| CodeEditor.modelLines := CodeEditor.breakLines text;
     CodeEditor.modelEOL := eol |}.

Definition appRecording : App.Config :=
  {| App.isRecording := true; App.isPaused := false;
     App.editorReady := true |}.

Definition appStart : App.State :=
  {| App.lastRecordTimeRef := Some 1000%Z; App.pending := [];
     App.nextId := 0; App.insertions := [] |}.

(** The step recorded for one wheel tick downwards at (100, 200), as the
    first step of a script. *)
Definition scrollStep : CodeGenerator.Step :=
  {| CodeGenerator.step_type := lit "scroll";
     CodeGenerator.step_order := Some (Num.ofZ 0);
     CodeGenerator.step_x := Some (Num.ofZ 100);
     CodeGenerator.step_y := Some (Num.ofZ 200);
     CodeGenerator.step_end_x := None;
     CodeGenerator.step_end_y := None;
     CodeGenerator.step_template := None;
     CodeGenerator.step_text := None;
     CodeGenerator.step_keys := None;
     CodeGenerator.step_region := None;
     CodeGenerator.step_case_sensitive := false;
     CodeGenerator.step_timeout := None;
     CodeGenerator.step_duration := None;
     CodeGenerator.step_delay_before := Some (Num.ofZ 2);
     CodeGenerator.step_description :=
       Some (lit "Scroll down at (100, 200)");
     CodeGenerator.step_direction := Some (lit "down");
     CodeGenerator.step_clicks := Some (Num.ofZ 1) |}.

End Examples.

(* ================================================================== *)
(** * Properties of strings *)
(* ================================================================== *)

Section StringFacts.

Variable sep : codeunit.

Lemma split_not_nil (s : jsstring) : split sep s <> [].
Proof.
  destruct s as [|c s]; simpl; [discriminate|].
  destruct (N.eqb c sep); [discriminate|].
  destruct (split sep s); discriminate.
Qed.

Lemma split_length_pos (s : jsstring) : (1 <= length (split sep s))%nat.
Proof.
  pose proof (split_not_nil s) as H.
  destruct (split sep s); [congruence | simpl; lia].
Qed.

Lemma join_cons (l : jsstring) (ls : list jsstring) :
  ls <> [] -> join sep (l :: ls) = l ++ sep :: join sep ls.
Proof. destruct ls; [congruence | reflexivity]. Qed.

Lemma join_split (s : jsstring) : join sep (split sep s) = s.
Proof.
  induction s as [|c s IH]; [reflexivity|].
  simpl split. destruct (N.eqb_spec c sep) as [->|Hne].
  - rewrite join_cons by apply split_not_nil. now rewrite IH.
  - pose proof (split_not_nil s) as Hnil.
    destruct (split sep s) as [|l ls]; [congruence|].
    destruct ls as [|l' ls]; rewrite <- IH; reflexivity.
Qed.

Lemma split_app_sep (a b : jsstring) :
  split sep (a ++ sep :: b) = split sep a ++ split sep b.
Proof.
  induction a as [|c a IH]; simpl.
  - now rewrite N.eqb_refl.
  - destruct (N.eqb c sep); [now rewrite IH|].
    rewrite IH.
    pose proof (split_not_nil a) as Hnil.
    destruct (split sep a); [congruence | reflexivity].
Qed.

End StringFacts.

(* ================================================================== *)
(** * Round trip of the generated/manual split *)
(* ================================================================== *)

Import CodeUtils.

(** C10.  Splitting the concatenation of a generated text [G] and a manual
    text [M] at the line count of [G] gives back exactly [G] and [M]; this
    covers the cases where [G] or [M] is the empty string. *)
Theorem separate_concatenate_roundtrip (G M : jsstring) :
  separateGeneratedFromManual (concatenateCodes G M) (countLines G)
  = {| generated := G; manual := M |}.
Proof.
  unfold separateGeneratedFromManual, concatenateCodes, countLines.
  destruct G as [|g G'], M as [|m M']; simpl truthy; simpl negb;
    cbv beta iota; simpl andb; cbv iota; try reflexivity.
  - (* manual text empty *)
    set (G := g :: G').
    pose proof (split_length_pos LF G) as Hlen.
    destruct (Z.leb_spec (Z.of_nat (length (split LF G))) 0); [lia|].
    rewrite Nat2Z.id, firstn_all, skipn_all.
    now rewrite join_split.
  - (* both texts present *)
    set (G := g :: G'). set (M := m :: M').
    replace (truthy (G ++ LF :: M)) with true by reflexivity.
    pose proof (split_length_pos LF G) as Hlen.
    simpl negb. cbv iota.
    destruct (Z.leb_spec (Z.of_nat (length (split LF G))) 0); [lia|].
    rewrite Nat2Z.id, split_app_sep.
    rewrite firstn_app, Nat.sub_diag, firstn_all, firstn_O, app_nil_r.
    rewrite skipn_app, Nat.sub_diag, skipn_all, skipn_O, app_nil_l.
    now rewrite !join_split.
Qed.

(* ================================================================== *)
(** * More facts about strings *)
(* ================================================================== *)

Lemma streq_refl (s : jsstring) : streq s s = true.
Proof. induction s; simpl; [reflexivity | now rewrite N.eqb_refl]. Qed.

Lemma streq_eq (a b : jsstring) : streq a b = true <-> a = b.
Proof.
  split; [|intros ->; apply streq_refl].
  revert b; induction a as [|x a IH]; destruct b as [|y b]; simpl;
    try discriminate; [reflexivity|].
  intros H. apply andb_prop in H as [Hx Hab].
  apply N.eqb_eq in Hx. subst. f_equal. now apply IH.
Qed.

Lemma startsWith_app (p s : jsstring) : startsWith p (p ++ s) = true.
Proof.
  induction p as [|x p IH]; simpl; [reflexivity|].
  now rewrite N.eqb_refl.
Qed.

Lemma startsWith_nil_r (p : jsstring) : startsWith p [] = true -> p = [].
Proof. destruct p; [reflexivity | discriminate]. Qed.

Lemma includes_truthy (needle s : jsstring) :
  needle <> [] -> includes needle s = true -> truthy s = true.
Proof.
  intros Hne H. destruct s as [|c s]; [|reflexivity].
  simpl in H. rewrite orb_false_r in H.
  apply startsWith_nil_r in H. contradiction.
Qed.

(* ================================================================== *)
(** * The validator reports a redefinition of the entry function *)
(* ================================================================== *)

Import CodeValidation.

(** C8.  Whenever the manual text contains a definition [def run(], the
    conflict scan answers with [hasConflicts] set and with a conflict of type
    redefine-function in its list, whatever the generated text and whatever
    else the scan finds. *)
Theorem redefinition_is_reported (generatedCode manualCode : jsstring) :
  includes (lit "def run(") manualCode = true ->
  hasConflicts (detectCodeConflicts generatedCode manualCode) = true
  /\ In redefineFunction
        (conflicts (detectCodeConflicts generatedCode manualCode)).
Proof.
  intros Hdef.
  assert (Htruthy : truthy manualCode = true)
    by (apply (includes_truthy (lit "def run(")); [discriminate | assumption]).
  unfold detectCodeConflicts. rewrite Htruthy, Hdef. cbn [negb].
  cbv zeta. cbn [hasConflicts conflicts].
  split.
  - apply Nat.ltb_lt. rewrite !length_app. cbn [length]. lia.
  - apply in_or_app. right. apply in_or_app. right. left. reflexivity.
Qed.

Lemma redefinition_is_reported_witness :
  includes (lit "def run(") (lit "x = 1
def run(vnc):
    pass") = true
  /\ hasConflicts (detectCodeConflicts (lit "def run(vnc):")
                     (lit "x = 1
def run(vnc):
    pass")) = true.
Proof.
  split; [reflexivity|].
  apply (proj1 (redefinition_is_reported (lit "def run(vnc):")
                  (lit "x = 1
def run(vnc):
    pass") eq_refl)).
Defined.

(* ================================================================== *)
(** * Resynthesis merge *)
(* ================================================================== *)

Lemma skipn_nth_error_cons {A} (l : list A) (i : nat) (a : A) :
  nth_error l i = Some a -> skipn i l = a :: skipn (S i) l.
Proof.
  revert i; induction l as [|x l IH]; intros [|i] H; try discriminate.
  - now inversion H.
  - cbn [skipn]. now apply IH.
Qed.

Lemma matchLoop_commonLines (fuel i : nat) (g f : list jsstring) :
  length g - i <= fuel ->
  matchLoop fuel i i g f = i + commonLines (skipn i g) (skipn i f).
Proof.
  revert i. induction fuel as [|fuel IH]; intros i Hfuel.
  - simpl. rewrite skipn_all2 by lia. simpl. lia.
  - cbn [matchLoop].
    destruct (nth_error g i) as [a|] eqn:Hg.
    + destruct (nth_error f i) as [b|] eqn:Hf.
      * rewrite (skipn_nth_error_cons _ _ _ Hg), (skipn_nth_error_cons _ _ _ Hf).
        cbn [commonLines].
        destruct (streq (trim a) (trim b)); [|lia].
        rewrite IH by lia. lia.
      * apply nth_error_None in Hf.
        rewrite (skipn_all2 f) by lia.
        destruct (skipn i g); simpl; lia.
    + apply nth_error_None in Hg.
      rewrite (skipn_all2 g) by lia. simpl. lia.
Qed.

Lemma extractManualCodeFallback_remainder (G1 full : jsstring) :
  G1 <> [] ->
  extractManualCodeFallback G1 full = trim (manualRemainder G1 full).
Proof.
  intros HG1. unfold extractManualCodeFallback, manualRemainder.
  destruct G1 as [|g G1']; [congruence|].
  destruct full as [|c full'].
  - cbn [truthy negb orb]. change (split LF []) with [@nil codeunit].
    destruct (split LF (g :: G1')) as [|a [|a' l]]; cbn [commonLines];
      try reflexivity;
      destruct (streq (trim a) (trim [])); reflexivity.
  - cbn [truthy negb orb]. cbv zeta.
    rewrite matchLoop_commonLines by lia.
    reflexivity.
Qed.

(** C3 (counterexample).  With the old generated text [a] and the live text
    [  x] (an indented line), the live text does not start with the old
    generated text and none of its lines matches, so that everything after
    the last matching line is the whole live text; the merge result is
    [g], a line feed and [x]: the indented line is not in it. *)
Lemma merge_fallback_loses_indentation :
  startsWith (lit "a") (lit "  x") = false
  /\ manualRemainder (lit "a") (lit "  x") = lit "  x"
  /\ includes (lit "  x")
       (merged (mergeGeneratedAndManual (lit "g") (lit "a") (lit "  x")))
     = false.
Proof. repeat split. Qed.

(** C3 (amended).  If the live text is the old generated text [G1], a line
    feed and [M], the merge with the fresh text [G2] is exactly [G2], a line
    feed and [M], without conflict.  If the live text does not start with
    [G1], the merge result is [G2], a line feed and what follows the last
    matching line of the live text (lines compared up to surrounding white
    space) with the white space at its two ends removed, and the result is
    flagged as a conflict. *)
Theorem merge_preserves_manual (G1 G2 fullCode : jsstring) :
  (forall M, fullCode = G1 ++ LF :: M ->
     mergeGeneratedAndManual G2 G1 fullCode
     = {| merged := G2 ++ LF :: M; hasConflict := false |})
  /\ (startsWith G1 fullCode = false ->
      mergeGeneratedAndManual G2 G1 fullCode
      = {| merged := G2 ++ LF :: trim (manualRemainder G1 fullCode);
           hasConflict := true |}).
Proof.
  split.
  - intros M ->. unfold mergeGeneratedAndManual, sliceFrom.
    rewrite startsWith_app.
    rewrite skipn_app, skipn_all, Nat.sub_diag. reflexivity.
  - intros Hstart. unfold mergeGeneratedAndManual. rewrite Hstart.
    rewrite extractManualCodeFallback_remainder; [reflexivity|].
    intros ->. discriminate.
Qed.

Lemma merge_preserves_manual_witness :
  mergeGeneratedAndManual (lit "g2") (lit "g1") (lit "g1
    m = 1")
  = {| merged := lit "g2
    m = 1"; hasConflict := false |}
  /\ mergeGeneratedAndManual (lit "g2") (lit "a
b") (lit " a
c
  d ")
     = {| merged := lit "g2
c
  d"; hasConflict := true |}.
Proof.
  split.
  - apply (proj1 (merge_preserves_manual (lit "g1") (lit "g2") (lit "g1
    m = 1")) (lit "    m = 1")).
    reflexivity.
  - apply (proj2 (merge_preserves_manual (lit "a
b") (lit "g2") (lit " a
c
  d "))).
    reflexivity.
Defined.

(* ================================================================== *)
(** * Code synthesis *)
(* ================================================================== *)

Import CodeGenerator.

(** C1 (counterexample).  Two calls on the empty step list, the script name
    [demo] and no description, made one second apart, return different
    texts. *)
Lemma generateCode_depends_on_clock :
  generateCode (B := Examples.asciiBuiltins)
    (lit "2024-01-01T00:00:00.000Z") [] (lit "demo") []
  <> generateCode (B := Examples.asciiBuiltins)
       (lit "2024-01-01T00:00:01.000Z") [] (lit "demo") [].
Proof. vm_compute. discriminate. Qed.

(** C1 (amended).  On the same step list, script name and description, the
    texts of two calls agree everywhere except for the time stamp that
    follows [Generated: ] in the header: the text is a fixed part, the time
    stamp read at the call, and another fixed part.  Two calls that read the
    same instant therefore return the same text. *)
Theorem generateCode_fixed_up_to_timestamp
        {B : Builtins} (steps : list Step) (scriptName description : jsstring) :
  exists before after : jsstring,
    forall isoNow : jsstring,
      generateCode isoNow steps scriptName description
      = before ++ lit "Generated: " ++ isoNow ++ after.
Proof.
  exists (litq "```" ++ LF :: (lit "AutoVNC Script: " ++ scriptName) ++ [LF]).
  exists (LF :: join LF
                  (skipn 3 (headerLines [] scriptName description)
                     ++ bodyLines steps ++ harnessLines)).
  intros isoNow. unfold generateCode, headerLines.
  cbn [app skipn].
  rewrite join_cons by discriminate.
  rewrite join_cons by discriminate.
  rewrite join_cons by discriminate.
  rewrite <- !app_assoc. cbn [app].
  rewrite <- !app_assoc. reflexivity.
Qed.

(** C2 (counterexample).  For the step recorded for a wheel tick, the
    per-step mapping has no statement, and the text synthesized from the
    list that holds this step alone contains no call of [scroll]. *)
Lemma scroll_step_is_not_synthesized :
  stepToCode (B := Examples.asciiBuiltins) Examples.scrollStep = None
  /\ includes (lit "scroll(")
       (generateCode (B := Examples.asciiBuiltins)
          (lit "2024-01-01T00:00:00.000Z") [Examples.scrollStep]
          (lit "demo") [])
     = false.
Proof. split; vm_compute; reflexivity. Qed.

(** C2 (amended).  For a step of type scroll the per-step mapping yields no
    statement: the lines that the step contributes to the body of the entry
    function are its wait line when its recorded delay exceeds 0.1, and
    nothing else. *)
Theorem scroll_step_contributes_no_statement
        {B : Builtins} (step : Step) :
  step_type step = lit "scroll" ->
  stepToCode step = None
  /\ stepLines step
     = match step_delay_before step with
       | Some d =>
           if Num.gt d oneTenth
           then [lit "    vnc.wait(" ++ numberToString d ++ lit ")"]
           else []
       | None => []
       end.
Proof.
  intros Htype.
  assert (Hcode : stepToCode step = None).
  { unfold stepToCode. rewrite Htype. reflexivity. }
  split; [exact Hcode|].
  unfold stepLines. rewrite Hcode. apply app_nil_r.
Qed.

Lemma scroll_step_contributes_no_statement_witness :
  stepToCode (B := Examples.asciiBuiltins) Examples.scrollStep = None
  /\ stepLines (B := Examples.asciiBuiltins) Examples.scrollStep
     = [lit "    vnc.wait(2)"].
Proof.
  apply (scroll_step_contributes_no_statement
           (B := Examples.asciiBuiltins) Examples.scrollStep).
  reflexivity.
Defined.

(* ================================================================== *)
(** * Coordinate mapping *)
(* ================================================================== *)

Import Coordinates.

Section NumberFacts.

Lemma div_self (m : positive) (e : Z) :
  Num.div (S754_finite false m e) (S754_finite false m e) = Num.ofZ 1.
Proof.
  unfold Num.div, SFdiv, SFdiv_core_binary.
  rewrite !Z.sub_diag.
  change (Z.min (fexp Num.prec Num.emax 0) 0) with (-53)%Z.
  change (0 - -53)%Z with 53%Z. cbv iota beta.
  change (IntDef.Z.shiftl (Z.pos m) 53) with (Z.shiftl (Z.pos m) 53).
  change IntDef.Z.div_eucl with Z.div_eucl.
  rewrite Z.shiftl_mul_pow2 by lia.
  assert (Hne : Z.pos m <> 0%Z) by discriminate.
  pose proof (Z.div_mul (2 ^ 53) (Z.pos m) Hne) as Hq.
  pose proof (Z.mod_mul (2 ^ 53) (Z.pos m) Hne) as Hr.
  rewrite (Z.mul_comm (Z.pos m)).
  unfold Z.div, Z.modulo in Hq, Hr.
  destruct (Z.div_eucl (2 ^ 53 * Z.pos m) (Z.pos m)) as [q r].
  subst q r.
  unfold new_location, new_location_even, new_location_odd.
  destruct (Z.even (Z.pos m)); reflexivity.
Qed.

Lemma digits2_pos_shift (m : positive) :
  Zpos (digits2_pos (m * 4503599627370496)) = (Zpos (digits2_pos m) + 52)%Z.
Proof.
  rewrite Pos.mul_comm. cbn [Pos.mul digits2_pos].
  rewrite !Pos2Z.inj_succ. lia.
Qed.

Lemma mul_one (x : number) :
  Num.valid x = true -> Num.mul x (Num.ofZ 1) = x.
Proof.
  destruct x as [s|s| |s m e]; intros Hvalid; try (destruct s; reflexivity);
    [reflexivity|].
  change (Num.ofZ 1) with (S754_finite false 4503599627370496 (-52)).
  unfold Num.valid, valid_binary, bounded, canonical_mantissa in Hvalid.
  apply andb_prop in Hvalid as [Hcanon Hmax].
  apply Z.eqb_eq in Hcanon. apply Z.leb_le in Hmax.
  unfold Num.mul, SFmul, binary_round_aux, shr_fexp.
  cbn [Zdigits2]. rewrite digits2_pos_shift.
  replace (Z.pos (digits2_pos m) + 52 + (e + -52))%Z
    with (Z.pos (digits2_pos m) + e)%Z by lia.
  rewrite Hcanon.
  replace (e - (e + -52))%Z with 52%Z by lia.
  rewrite Pos.mul_comm.
  cbv [shr shr_record_of_loc iter_pos shr_1 Pos.mul orb].
  cbn [shr_m loc_of_shr_record round_nearest_even Zdigits2].
  replace (e + -52 + 52)%Z with e by lia.
  rewrite Hcanon, Z.sub_diag.
  cbn [shr_m].
  unfold Num.emax, Num.prec in *.
  destruct (Z.leb_spec e (1024 - 53)); [|lia].
  now destruct s.
Qed.

Lemma round_integer (x : number) :
  Num.isInteger x = true -> Num.round x = x.
Proof.
  destruct x as [s|s| |s m e]; try reflexivity.
  unfold Num.isInteger, Num.round.
  destruct (0 <=? e)%Z; [reflexivity|]. cbn [orb].
  now intros ->.
Qed.

Lemma strictEq_finite_refl (s : bool) (m : positive) (e : Z) :
  Num.strictEq (S754_finite s m e) (S754_finite s m e) = true.
Proof.
  unfold Num.strictEq, SFeqb, SFcompare.
  rewrite Z.compare_refl, Pos.compare_cont_refl. now destruct s.
Qed.

(** With equal dimensions the scale factor is one and an integral
    coordinate in range goes through the function unchanged. *)
Lemma scaleAxis_identity (local dim : number) :
  Num.isPositiveFinite dim = true ->
  inRange local dim = true ->
  Num.strictEq (scaleAxis local dim dim) local = true.
Proof.
  intros Hdim Hrange.
  unfold inRange in Hrange.
  apply andb_prop in Hrange as [Hrange Hhi].
  apply andb_prop in Hrange as [Hrange Hlo].
  apply andb_prop in Hrange as [Hvalid Hint].
  destruct dim as [| | |[] m e]; try discriminate.
  unfold scaleAxis.
  rewrite div_self, mul_one, round_integer by assumption.
  set (b := Num.sub (S754_finite false m e) (Num.ofZ 1)) in *.
  clearbody b.
  destruct local as [s|s| |s ml el]; try discriminate.
  - destruct b as [[]|[]| |[] mb eb], s; try discriminate; reflexivity.
  - destruct s; [discriminate|].
    unfold Num.le, SFleb in Hhi. unfold Num.min.
    destruct (SFcompare (S754_finite false ml el) b) as [[]|];
      try discriminate; apply strictEq_finite_refl.
Qed.

End NumberFacts.

(** C7 (counterexample).  A canvas 22 units wide shows a remote frame 15
    units wide.  For the local abscissa 11 the function returns 7, while
    [round(11 * 15 / 22)] is 8, both when the formula is evaluated on numbers
    from left to right and in exact arithmetic: the scale factor 15/22 is
    rounded before it is multiplied. *)
Lemma scaleCoordinates_rounds_scale_factor :
  px (scaleCoordinates (Num.ofZ 11) (Num.ofZ 11) (canvasAtOrigin 22 22)
                       (Num.ofZ 15) (Num.ofZ 15)) = Num.ofZ 7
  /\ toRemoteFormula (Num.ofZ 11) (Num.ofZ 15) (Num.ofZ 22) = Num.ofZ 8
  /\ toRemoteExact 11 15 22 = 8%Z
  /\ Num.ofZ 7 <> Num.ofZ 8.
Proof. repeat split; vm_compute; congruence. Qed.

(** C7 (amended).  On each axis the function returns
    [round(local * (remoteDim / displayDim))], the scale factor being
    computed first, clamped by [max(0, min(_, remoteDim - 1))].  A click at
    local (400, 300) on a display of 800 by 600 that shows a remote frame of
    1600 by 1200 maps to (800, 600).  When the remote dimensions are those of
    the display, every point whose local coordinates are integral and in
    range is mapped to itself. *)
Theorem scaleCoordinates_properties :
  (forall (clientX clientY : number) (rect : Rect)
          (remoteWidth remoteHeight : number),
      scaleCoordinates clientX clientY rect remoteWidth remoteHeight
      = {| px := scaleAxis (Num.sub clientX (left rect)) remoteWidth
                           (width rect);
           py := scaleAxis (Num.sub clientY (top rect)) remoteHeight
                           (height rect) |})
  /\ scaleCoordinates (Num.ofZ 400) (Num.ofZ 300) (canvasAtOrigin 800 600)
                      (Num.ofZ 1600) (Num.ofZ 1200)
     = {| px := Num.ofZ 800; py := Num.ofZ 600 |}
  /\ (forall (clientX clientY : number) (rect : Rect),
         let localX := Num.sub clientX (left rect) in
         let localY := Num.sub clientY (top rect) in
         Num.isPositiveFinite (width rect) = true ->
         Num.isPositiveFinite (height rect) = true ->
         inRange localX (width rect) = true ->
         inRange localY (height rect) = true ->
         let remote :=
           scaleCoordinates clientX clientY rect (width rect) (height rect) in
         Num.strictEq (px remote) localX = true
         /\ Num.strictEq (py remote) localY = true).
Proof.
  split; [reflexivity|]. split; [vm_compute; reflexivity|].
  intros clientX clientY rect localX localY Hw Hh Hx Hy remote.
  split; apply scaleAxis_identity; assumption.
Qed.

Lemma scaleCoordinates_properties_witness :
  let remote :=
    scaleCoordinates (Num.ofZ 140) (Num.ofZ 67)
      {| left := Num.ofZ 20; top := Num.ofZ 10;
         width := Num.ofZ 1024; height := Num.ofZ 768 |}
      (Num.ofZ 1024) (Num.ofZ 768) in
  Num.strictEq (px remote) (Num.ofZ 120) = true
  /\ Num.strictEq (py remote) (Num.ofZ 57) = true.
Proof.
  apply (proj2 (proj2 scaleCoordinates_properties)
           (Num.ofZ 140) (Num.ofZ 67)
           {| left := Num.ofZ 20; top := Num.ofZ 10;
              width := Num.ofZ 1024; height := Num.ofZ 768 |});
    vm_compute; reflexivity.
Defined.

(* ================================================================== *)
(** * Classification of pointer interactions *)
(* ================================================================== *)

Import Recording VNCViewer.

Section ViewerFacts.

Context {B : Builtins}.
Variable cfg : Config.

Lemma run_app (t1 t2 : list (Env * Event)) (st : State) :
  run cfg (t1 ++ t2) st
  = (fst (run cfg t2 (fst (run cfg t1 st))),
     snd (run cfg t1 st) ++ snd (run cfg t2 (fst (run cfg t1 st)))).
Proof.
  revert st. induction t1 as [|[env ev] t1 IH]; intros st.
  - cbn [app run fst snd]. now destruct (run cfg t2 st).
  - cbn [app run]. destruct (step cfg env ev st) as [st1 calls1].
    rewrite IH. destruct (run cfg t1 st1) as [st2 calls2].
    cbn [fst snd]. now rewrite app_assoc.
Qed.

Lemma handleMouseMoveCapture_pending (e : MouseEvent) (st : State)
      (d : DragData) :
  dragDataRef st = Some d ->
  handleMouseMoveCapture e st
  = if isDragging d
       || negb (displacementExceeds (clientStartX d) (clientStartY d) e)
    then st
    else setDrag (Some (setDragging true d)) st.
Proof.
  intros Hd. unfold handleMouseMoveCapture, displacementExceeds.
  rewrite Hd. destruct (isDragging d); [reflexivity|].
  cbv zeta. cbn [orb].
  now destruct (_ || _).
Qed.

(** While the button is down, move events change nothing but the
    dragging flag, which is raised by the first move beyond the threshold
    and stays raised. *)
Lemma run_moves (moves : list (Env * MouseEvent)) (st : State)
      (d : DragData) :
  dragDataRef st = Some d ->
  run cfg (moveTrace moves) st
  = (setDrag
       (Some (setDragging
                (isDragging d
                 || existsb (displacementExceeds (clientStartX d)
                                                 (clientStartY d))
                            (map snd moves)) d)) st,
     []).
Proof.
  revert st d. induction moves as [|[env e] moves IH]; intros st d Hd.
  - destruct st as [dd ct la sel], d as [sx sy cx cy dr db dt].
    cbn in Hd. subst dd. cbn. now rewrite orb_false_r.
  - cbn [moveTrace map run step fst snd existsb].
    fold (moveTrace moves).
    rewrite (handleMouseMoveCapture_pending e st d Hd).
    destruct (isDragging d) eqn:Hdr; cbn [orb].
    + rewrite (IH st d Hd), Hdr. reflexivity.
    + destruct (displacementExceeds (clientStartX d) (clientStartY d) e);
        cbn [negb orb].
      * rewrite (IH (setDrag (Some (setDragging true d)) st)
                    (setDragging true d) eq_refl).
        reflexivity.
      * rewrite (IH st d Hd), Hdr. reflexivity.
Qed.

(** A timer callback that runs before the due time of the pending timer
    does nothing. *)
Lemma run_early_timers (ticks : list Env) (st : State) (t : Timeout) :
  clickTimeoutRef st = Some t ->
  Forall (fun env => (now env < due t)%Z) ticks ->
  run cfg (timerTrace ticks) st = (st, []).
Proof.
  intros Hpending Hearly. induction Hearly as [|env ticks Hlt _ IH].
  - reflexivity.
  - cbn [timerTrace map run step]. fold (timerTrace ticks).
    unfold timerFire. rewrite Hpending.
    destruct (Z.leb_spec (due t) (now env)); [lia|].
    now rewrite IH.
Qed.

End ViewerFacts.

(** C6.  In a recording session, with no selection being drawn, after the
    primary button has gone down the interaction is dragging exactly when
    some move event is displaced from the point of the press by more than 10
    units on one axis: a displacement of exactly 10 on both axes does not
    count, one of 11 on either axis does.  When the button comes up while
    dragging, one step of type drag, with the remote coordinates of the
    press and of the release, is passed to [onStep] if that callback is set
    and then to [onInteraction] if that one is set, and these are all the
    calls of the interaction; it buffers no click and starts no
    selection. *)
Theorem drag_classification
        {B : Builtins} (cfg : Config) (st : State)
        (env0 : Env) (e0 : MouseEvent) (rect0 : Rect)
        (moves : list (Env * MouseEvent))
        (envUp : Env) (eUp : MouseEvent) (rectUp : Rect) :
  isRecording cfg = true -> isPaused cfg = false ->
  isVerifyMode cfg = false -> isVerifyTextMode cfg = false ->
  selectionStart st = None ->
  canvas env0 = Some rect0 -> button e0 = 0%Z ->
  canvas envUp = Some rectUp ->
  let dragging :=
    existsb (displacementExceeds (clientX e0) (clientY e0)) (map snd moves) in
  let start :=
    scaleCoordinates (clientX e0) (clientY e0) rect0
                     (screenWidth cfg) (screenHeight cfg) in
  let stop :=
    scaleCoordinates (clientX eUp) (clientY eUp) rectUp
                     (screenWidth cfg) (screenHeight cfg) in
  let pressed := run cfg ((env0, MouseDown e0) :: moveTrace moves) st in
  let released :=
    run cfg ((env0, MouseDown e0) :: moveTrace moves
               ++ [(envUp, MouseUp eUp)]) st in
  (exists d, dragDataRef (fst pressed) = Some d /\ isDragging d = dragging)
  /\ snd pressed = []
  /\ displacementExceeds (Num.ofZ 100) (Num.ofZ 100)
       (Examples.mouseAt 110 90 0 1) = false
  /\ displacementExceeds (Num.ofZ 100) (Num.ofZ 100)
       (Examples.mouseAt 111 100 0 1) = true
  /\ displacementExceeds (Num.ofZ 100) (Num.ofZ 100)
       (Examples.mouseAt 100 89 0 1) = true
  /\ (dragging = true ->
      exists sd,
        snd released
        = (if hasOnStep cfg then [OnStep sd] else [])
            ++ (if hasOnInteraction cfg then [OnInteraction sd] else [])
        /\ sd_type sd = lit "drag"
        /\ sd_x sd = Some (px start) /\ sd_y sd = Some (py start)
        /\ sd_end_x sd = Some (px stop) /\ sd_end_y sd = Some (py stop)
        /\ dragDataRef (fst released) = None
        /\ clickTimeoutRef (fst released) = clickTimeoutRef st
        /\ selectionStart (fst released) = None).
Proof.
  intros Hrec Hpause Hverify Hverifyt Hsel Hcanvas0 Hbutton HcanvasUp
         dragging start stop pressed released.
  set (d0 := {| startX := px start; startY := py start;
                clientStartX := clientX e0; clientStartY := clientY e0;
                isDragging := false;
                dragButton := 0%Z; dragDetail := detail e0 |}).
  assert (Hdown : step cfg env0 (MouseDown e0) st
                  = (setDrag (Some d0) st, [])).
  { cbn [step]. unfold handleMouseDown.
    rewrite Hrec, Hpause, Hverify, Hverifyt, Hcanvas0, Hbutton.
    reflexivity. }
  assert (Hpressed : pressed
                     = (setDrag (Some (setDragging dragging d0)) st, [])).
  { unfold pressed. cbn [run]. rewrite Hdown.
    rewrite run_moves with (d := d0) by reflexivity.
    reflexivity. }
  split; [|split; [|split; [|split; [|split]]]].
  - rewrite Hpressed. exists (setDragging dragging d0). split; reflexivity.
  - now rewrite Hpressed.
  - vm_compute; reflexivity.
  - vm_compute; reflexivity.
  - vm_compute; reflexivity.
  - intros Hdragging.
    unfold released.
    change ((env0, MouseDown e0) :: moveTrace moves ++ [(envUp, MouseUp eUp)])
      with (((env0, MouseDown e0) :: moveTrace moves)
              ++ [(envUp, MouseUp eUp)]).
    rewrite run_app. fold pressed. rewrite Hpressed, Hdragging.
    cbn [fst snd app run step].
    unfold handleMouseUpCapture.
    cbn [dragDataRef setDrag setDragging isDragging].
    rewrite HcanvasUp.
    eexists. cbn [fst snd]. rewrite app_nil_r. unfold notify.
    split; [reflexivity|].
    repeat split. exact Hsel.
Qed.

Lemma drag_classification_witness :
  exists sd,
    snd (run (B := Examples.asciiBuiltins) Examples.recording
           [(Examples.atTime 1000, MouseDown (Examples.mouseAt 100 100 0 1));
            (Examples.atTime 1020, MouseMove (Examples.mouseAt 111 100 0 1));
            (Examples.atTime 1100, MouseUp (Examples.mouseAt 300 200 0 1))]
           Examples.idle)
    = [OnStep sd; OnInteraction sd]
    /\ sd_type sd = lit "drag".
Proof.
  destruct (proj2 (proj2 (proj2 (proj2 (proj2
              (drag_classification (B := Examples.asciiBuiltins)
                 Examples.recording Examples.idle
                 (Examples.atTime 1000) (Examples.mouseAt 100 100 0 1)
                 (Coordinates.canvasAtOrigin 1024 768)
                 [(Examples.atTime 1020, Examples.mouseAt 111 100 0 1)]
                 (Examples.atTime 1100) (Examples.mouseAt 300 200 0 1)
                 (Coordinates.canvasAtOrigin 1024 768)
                 eq_refl eq_refl eq_refl eq_refl eq_refl eq_refl eq_refl
                 eq_refl)))))
              eq_refl)
    as (sd & Hcalls & Htype & _).
  exists sd. split; assumption.
Defined.

Section DebounceFacts.

Context {B : Builtins}.
Variable cfg : Config.
Hypothesis Hrec : isRecording cfg = true.
Hypothesis Hpause : isPaused cfg = false.
Hypothesis Hverify : isVerifyMode cfg = false.
Hypothesis Hverifyt : isVerifyTextMode cfg = false.

(** Pressing the primary button starts a pending interaction. *)
Lemma press_starts_interaction (env : Env) (e : MouseEvent) (rect : Rect)
      (st : State) :
  canvas env = Some rect -> button e = 0%Z ->
  exists d,
    step cfg env (MouseDown e) st = (setDrag (Some d) st, [])
    /\ isDragging d = false /\ dragButton d = 0%Z
    /\ dragDetail d = detail e.
Proof.
  intros Hcanvas Hbutton. cbn [step]. unfold handleMouseDown.
  rewrite Hrec, Hpause, Hverify, Hverifyt, Hcanvas, Hbutton.
  cbn [negb andb orb Z.eqb]. eexists. split; [reflexivity|].
  repeat split.
Qed.

(** Releasing the button after a single press buffers a click: nothing is
    handed over, and a timer is pending 250 ms later. *)
Lemma release_buffers_click (env : Env) (e : MouseEvent) (rect : Rect)
      (st : State) (d : DragData) :
  canvas env = Some rect -> dragDataRef st = Some d ->
  isDragging d = false -> dragButton d = 0%Z -> dragDetail d <> 2%Z ->
  exists st' t,
    step cfg env (MouseUp e) st = (st', [])
    /\ dragDataRef st' = None
    /\ clickTimeoutRef st' = Some t
    /\ due t = (now env + 250)%Z
    /\ selectionStart st' = selectionStart st.
Proof.
  intros Hcanvas Hd Hdrag Hbutton Hdetail. cbn [step].
  unfold handleMouseUpCapture. rewrite Hd, Hdrag.
  unfold processMouseAction. rewrite Hcanvas, Hrec, Hbutton.
  unfold clickKind. cbn [Z.eqb andb].
  destruct (Z.eqb_spec (dragDetail d) 2) as [|_]; [contradiction|].
  destruct (mouseUp_isSmartRecord cfg); [destruct (smartCapture env)|];
    do 2 eexists; (split; [reflexivity|]); repeat split.
Qed.

(** Releasing the button after a press with click count 2 hands over a
    double click at once and leaves no timer pending. *)
Lemma release_commits_double_click (env : Env) (e : MouseEvent)
      (rect : Rect) (st : State) (d : DragData) :
  canvas env = Some rect -> dragDataRef st = Some d ->
  isDragging d = false -> dragButton d = 0%Z -> dragDetail d = 2%Z ->
  exists st' sd,
    step cfg env (MouseUp e) st = (st', commitAction cfg sd)
    /\ resolvedType sd = lit "double_click"
    /\ dragDataRef st' = None
    /\ clickTimeoutRef st' = None
    /\ selectionStart st' = selectionStart st.
Proof.
  intros Hcanvas Hd Hdrag Hbutton Hdetail. cbn [step].
  unfold handleMouseUpCapture. rewrite Hd, Hdrag.
  unfold processMouseAction. rewrite Hcanvas, Hrec, Hbutton, Hdetail.
  unfold clickKind. cbn [Z.eqb andb].
  destruct (mouseUp_isSmartRecord cfg); [destruct (smartCapture env)|];
    do 2 eexists; (split; [reflexivity|]); repeat split.
Qed.

End DebounceFacts.

(** C5.  In a recording session, with no selection being drawn, a press
    and release of the primary button with click count 1 followed by a press
    and release with click count 2, with no timer callback due in between
    (the second release comes within the 250 ms of the timer set by the
    first), hands over exactly one step, a double click: the calls made
    from the first press to the second release are [onStep] on this step,
    if that callback is set, and then [onInteraction] on it, if that one is
    set, and nothing else.  The buffered click is cancelled: no timer is
    left pending, so that no later timer callback hands over anything.  No
    selection is started. *)
Theorem double_click_debounce
        {B : Builtins} (cfg : Config) (st : State)
        (env0 env1 env2 env3 : Env) (e0 e1 e2 e3 : MouseEvent)
        (rect0 rect1 rect2 rect3 : Rect) (ticks ticks' : list Env) :
  isRecording cfg = true -> isPaused cfg = false ->
  isVerifyMode cfg = false -> isVerifyTextMode cfg = false ->
  selectionStart st = None ->
  canvas env0 = Some rect0 -> canvas env1 = Some rect1 ->
  canvas env2 = Some rect2 -> canvas env3 = Some rect3 ->
  button e0 = 0%Z -> detail e0 <> 2%Z ->
  button e2 = 0%Z -> detail e2 = 2%Z ->
  Forall (fun env => (now env < now env1 + 250)%Z) ticks ->
  Forall (fun env => (now env < now env1 + 250)%Z) ticks' ->
  let trace :=
    (env0, MouseDown e0) :: (env1, MouseUp e1) :: timerTrace ticks
      ++ (env2, MouseDown e2) :: timerTrace ticks'
      ++ [(env3, MouseUp e3)] in
  exists sd,
    snd (run cfg trace st)
    = (if hasOnStep cfg then [OnStep sd] else [])
        ++ (if hasOnInteraction cfg then [OnInteraction sd] else [])
    /\ resolvedType sd = lit "double_click"
    /\ clickTimeoutRef (fst (run cfg trace st)) = None
    /\ (forall env,
           timerFire env (fst (run cfg trace st))
           = (fst (run cfg trace st), []))
    /\ selectionStart (fst (run cfg trace st)) = None.
Proof.
  intros Hrec Hpause Hverify Hverifyt Hsel Hc0 Hc1 Hc2 Hc3 Hb0 Hd0 Hb2 Hd2
         Hticks Hticks' trace.
  destruct (press_starts_interaction cfg Hrec Hpause Hverify Hverifyt
              env0 e0 rect0 st Hc0 Hb0) as (d0 & Hs0 & Hdr0 & Hbt0 & Hdt0).
  rewrite <- Hdt0 in Hd0.
  destruct (release_buffers_click cfg Hrec env1 e1 rect1
              (setDrag (Some d0) st) d0 Hc1 eq_refl Hdr0 Hbt0 Hd0)
    as (st1 & t1 & Hs1 & Hdd1 & Hct1 & Hdue1 & Hsel1).
  rewrite <- Hdue1 in Hticks, Hticks'.
  pose proof (run_early_timers cfg ticks st1 _ Hct1 Hticks) as Hrun1.
  destruct (press_starts_interaction cfg Hrec Hpause Hverify Hverifyt
              env2 e2 rect2 st1 Hc2 Hb2) as (d2 & Hs2 & Hdr2 & Hbt2 & Hdt2).
  rewrite Hd2 in Hdt2.
  assert (Hct2 : clickTimeoutRef (setDrag (Some d2) st1) = Some t1)
    by exact Hct1.
  pose proof (run_early_timers cfg ticks' _ _ Hct2 Hticks') as Hrun2.
  destruct (release_commits_double_click cfg Hrec env3 e3 rect3
              (setDrag (Some d2) st1) d2 Hc3 eq_refl Hdr2 Hbt2 Hdt2)
    as (st3 & sd & Hs3 & Hres & Hdd3 & Hct3 & Hsel3).
  assert (Hrun : run cfg trace st = (st3, commitAction cfg sd)).
  { unfold trace. cbn [run]. rewrite Hs0, Hs1.
    rewrite run_app, Hrun1. cbn [fst snd run app]. rewrite Hs2.
    rewrite run_app, Hrun2. cbn [fst snd run app]. rewrite Hs3.
    now rewrite app_nil_r. }
  exists sd. rewrite Hrun. cbn [fst snd].
  split; [unfold commitAction; now rewrite Hrec|].
  split; [assumption|]. split; [assumption|].
  split; [intros env; unfold timerFire; now rewrite Hct3|].
  rewrite Hsel3. cbn [selectionStart setDrag] in Hsel1 |- *. congruence.
Qed.

Lemma double_click_debounce_witness :
  exists sd,
    snd (run (B := Examples.asciiBuiltins) Examples.recording
           [(Examples.atTime 1000, MouseDown (Examples.mouseAt 100 100 0 1));
            (Examples.atTime 1050, MouseUp (Examples.mouseAt 100 100 0 1));
            (Examples.atTime 1100, TimerFire);
            (Examples.atTime 1150, MouseDown (Examples.mouseAt 100 100 0 2));
            (Examples.atTime 1200, MouseUp (Examples.mouseAt 100 100 0 2))]
           Examples.idle)
    = [OnStep sd; OnInteraction sd]
    /\ resolvedType sd = lit "double_click".
Proof.
  destruct (double_click_debounce (B := Examples.asciiBuiltins)
              Examples.recording Examples.idle
              (Examples.atTime 1000) (Examples.atTime 1050)
              (Examples.atTime 1150) (Examples.atTime 1200)
              (Examples.mouseAt 100 100 0 1) (Examples.mouseAt 100 100 0 1)
              (Examples.mouseAt 100 100 0 2) (Examples.mouseAt 100 100 0 2)
              (Coordinates.canvasAtOrigin 1024 768)
              (Coordinates.canvasAtOrigin 1024 768)
              (Coordinates.canvasAtOrigin 1024 768)
              (Coordinates.canvasAtOrigin 1024 768)
              [Examples.atTime 1100] []
              eq_refl eq_refl eq_refl eq_refl eq_refl
              eq_refl eq_refl eq_refl eq_refl
              eq_refl ltac:(discriminate) eq_refl eq_refl
              ltac:(repeat constructor) ltac:(repeat constructor))
    as (sd & Hcalls & Htype & _).
  exists sd. split; assumption.
Defined.
(* ================================================================== *)
(** * Order of the insertions made during a recording *)
(* ================================================================== *)

Section InsertionFacts.

Context {B : Builtins}.
Variable cfg : App.Config.
Hypothesis Hready : App.editorReady cfg = true.

Lemma lookupPending_unspawn_other (id id' : nat) (st : App.State) :
  id' <> id ->
  App.lookupPending id' (App.pending (App.unspawn id st))
  = App.lookupPending id' (App.pending st).
Proof.
  intros Hne. unfold App.lookupPending, App.unspawn.
  cbn [App.pending].
  induction (App.pending st) as [|[k p] ps IH]; [reflexivity|].
  cbn [filter find fst snd].
  destruct (Nat.eqb_spec k id) as [->|Hk]; cbn [negb].
  - destruct (Nat.eqb_spec id id'); [congruence | exact IH].
  - cbn [find fst]. destruct (Nat.eqb_spec k id'); [reflexivity | exact IH].
Qed.

Lemma settle_pending (id : nat) (outcome : App.Outcome) (st : App.State)
      (p : App.Pending) :
  App.lookupPending id (App.pending st) = Some p ->
  App.settle cfg id outcome st
  = App.insert (App.settledText p outcome) (App.unspawn id st).
Proof. intros Hp. unfold App.settle. now rewrite Hp, Hready. Qed.

(** The texts of captures are inserted in the order in which the captures
    settle. *)
Lemma run_settles (settles : list (nat * App.Outcome)) (st : App.State) :
  NoDup (map fst settles) ->
  Forall (fun s => App.isPending st (fst s) = true) settles ->
  App.insertedTexts (App.run cfg (App.settleTrace settles) st)
  = App.insertedTexts st ++ map (App.settledTextOf st) settles.
Proof.
  revert st. induction settles as [|[id o] settles IH]; intros st Hnd Hall.
  - cbn. now rewrite app_nil_r.
  - cbn [map fst] in Hnd. inversion Hnd as [|? ? Hnotin Hnd']; subst.
    inversion Hall as [|? ? Hid Hall']; subst. cbn [fst] in Hid.
    unfold App.isPending in Hid.
    destruct (App.lookupPending id (App.pending st)) as [p|] eqn:Hp;
      [|discriminate].
    cbn [App.settleTrace map App.run fold_left App.step fst snd].
    fold (App.settleTrace settles).
    change (fold_left (fun st ev => App.step cfg ev st)
                      (App.settleTrace settles))
      with (App.run cfg (App.settleTrace settles)).
    rewrite (settle_pending id o st p Hp).
    rewrite IH; [| assumption |].
    + unfold App.insertedTexts at 1. cbn [App.insert App.insertions].
      rewrite map_app. cbn [map App.insertedText].
      rewrite <- app_assoc. cbn [app]. f_equal.
      unfold App.settledTextOf at 2. cbn [fst snd]. rewrite Hp. f_equal.
      apply map_ext_in. intros [id' o'] Hin.
      unfold App.settledTextOf. cbn [fst snd App.insert App.pending].
      rewrite lookupPending_unspawn_other; [reflexivity|].
      intros ->. apply Hnotin. now apply (in_map fst) in Hin.
    + rewrite Forall_forall in Hall' |- *. intros [id' o'] Hin.
      specialize (Hall' _ Hin). cbn [fst] in *.
      unfold App.isPending in *. cbn [App.insert App.pending].
      rewrite lookupPending_unspawn_other; [assumption|].
      intros ->. apply Hnotin. now apply (in_map fst) in Hin.
Qed.

End InsertionFacts.

Lemma timing_keeps_queue {B : Builtins} (now : Z)
      (sd : Recording.StepData) (st : App.State) :
  App.pending (snd (App.timing now sd st)) = App.pending st
  /\ App.nextId (snd (App.timing now sd st)) = App.nextId st
  /\ App.insertions (snd (App.timing now sd st)) = App.insertions st.
Proof.
  unfold App.timing.
  destruct (App.recordedDelay sd); [repeat split|].
  destruct (App.timeTruthy (App.lastRecordTimeRef st)); repeat split.
Qed.

(** C9 (counterexample).  Two smart clicks are committed, the one at
    (100, 200) before the one at (300, 400).  When the capture of the second
    settles first, its statement is inserted first; and a right click
    committed while the capture of the first smart click is pending is
    inserted before the statement of that smart click. *)
Lemma insertions_follow_settling_not_commits :
  App.insertedTexts
    (App.run (B := Examples.asciiBuiltins) Examples.appRecording
       [App.Interaction 1100 (Examples.smartClickAt 100 200 1100);
        App.Interaction 1200 (Examples.smartClickAt 300 400 1200);
        App.Settle 1 (App.Resolved (lit "b.png"));
        App.Settle 0 (App.Resolved (lit "a.png"))]
       Examples.appStart)
  = [litq "vnc.click(`b.png`, timeout=30.0, hint=(300, 400))";
     litq "vnc.click(`a.png`, timeout=30.0, hint=(100, 200))"]
  /\ App.insertedTexts
       (App.run (B := Examples.asciiBuiltins) Examples.appRecording
          [App.Interaction 1100 (Examples.smartClickAt 100 200 1100);
           App.Interaction 1200
             (Recording.pointerStep (lit "right_click")
                (Num.ofZ 300) (Num.ofZ 400) (lit "Click at (300, 400)")
                1200 (Num.ofZ 0));
           App.Settle 0 (App.Resolved (lit "a.png"))]
          Examples.appStart)
     = [lit "vnc.right_click(300, 400)";
        litq "vnc.click(`a.png`, timeout=30.0, hint=(100, 200))"].
Proof. split; vm_compute; reflexivity. Qed.

(** C9 (amended).  During a recording the insertions are not queued.  The
    snippet of a step that needs no capture is inserted by the very call of
    the handler that receives the step, whatever captures are pending.  A
    step that needs a capture inserts nothing when it is received; it only
    starts its capture.  The statements of captures are inserted one by one
    as the captures settle, in the order in which they settle. *)
Theorem insertions_in_event_order {B : Builtins} (cfg : App.Config) :
  App.isRecording cfg = true -> App.isPaused cfg = false ->
  App.editorReady cfg = true ->
  (forall now sd st snippet,
      App.dispatch sd = App.InsertNow snippet -> snippet <> [] ->
      App.insertedTexts (App.handleVNCInteraction cfg now sd st)
      = App.insertedTexts st ++ [fst (App.timing now sd st) ++ snippet]
      /\ App.pending (App.handleVNCInteraction cfg now sd st)
         = App.pending st)
  /\ (forall now sd st kind,
         App.dispatch sd = App.Start kind ->
         App.insertedTexts (App.handleVNCInteraction cfg now sd st)
         = App.insertedTexts st
         /\ App.pending (App.handleVNCInteraction cfg now sd st)
            = App.pending st
                ++ [(App.nextId st,
                     {| App.pendingKind := kind;
                        App.pendingPrefix := fst (App.timing now sd st);
                        App.pendingStep := sd |})])
  /\ (forall settles st,
         NoDup (map fst settles) ->
         Forall (fun s => App.isPending st (fst s) = true) settles ->
         App.insertedTexts (App.run cfg (App.settleTrace settles) st)
         = App.insertedTexts st ++ map (App.settledTextOf st) settles).
Proof.
  intros Hrec Hpause Hready. split; [|split].
  - intros now sd st snippet Hdispatch Hsnippet.
    unfold App.handleVNCInteraction. rewrite Hrec, Hpause, Hready.
    cbn [negb orb].
    destruct (timing_keeps_queue now sd st) as (Hp & _ & Hi).
    destruct (App.timing now sd st) as [codeToInsert st1].
    cbn [fst snd] in *. rewrite Hdispatch.
    destruct snippet as [|c snippet]; [congruence|]. cbn [truthy].
    unfold App.insertedTexts. cbn [App.insert App.insertions App.pending].
    rewrite map_app, Hi, Hp. split; reflexivity.
  - intros now sd st kind Hdispatch.
    unfold App.handleVNCInteraction. rewrite Hrec, Hpause, Hready.
    cbn [negb orb].
    destruct (timing_keeps_queue now sd st) as (Hp & Hn & Hi).
    destruct (App.timing now sd st) as [codeToInsert st1].
    cbn [fst snd] in *. rewrite Hdispatch.
    unfold App.insertedTexts. cbn [App.spawn App.insertions App.pending].
    rewrite Hi, Hp, Hn. split; reflexivity.
  - intros settles st. now apply run_settles.
Qed.

Lemma insertions_in_event_order_witness :
  App.insertedTexts
    (App.run (B := Examples.asciiBuiltins) Examples.appRecording
       (App.settleTrace [(1, App.Resolved (lit "b.png"));
                         (0, App.Resolved (lit "a.png"))])
       (App.run (B := Examples.asciiBuiltins) Examples.appRecording
          [App.Interaction 1100 (Examples.smartClickAt 100 200 1100);
           App.Interaction 1200 (Examples.smartClickAt 300 400 1200)]
          Examples.appStart))
  = [litq "vnc.click(`b.png`, timeout=30.0, hint=(300, 400))";
     litq "vnc.click(`a.png`, timeout=30.0, hint=(100, 200))"].
Proof.
  apply (proj2 (proj2 (insertions_in_event_order
                         (B := Examples.asciiBuiltins)
                         Examples.appRecording eq_refl eq_refl eq_refl))
           [(1, App.Resolved (lit "b.png")); (0, App.Resolved (lit "a.png"))]
           (App.run (B := Examples.asciiBuiltins) Examples.appRecording
              [App.Interaction 1100 (Examples.smartClickAt 100 200 1100);
               App.Interaction 1200 (Examples.smartClickAt 300 400 1200)]
              Examples.appStart)).
  - repeat constructor; cbn; intuition discriminate.
  - repeat constructor.
Defined.
(* ================================================================== *)
(** * Live insertion into the entry function *)
(* ================================================================== *)

Import CodeEditor.

Section SplitFacts.

Variable sep : codeunit.

Lemma split_single (s : jsstring) : ~ In sep s -> split sep s = [s].
Proof.
  induction s as [|c s IH]; intros Hnot; [reflexivity|].
  cbn [split]. destruct (N.eqb_spec c sep) as [->|_].
  - exfalso. apply Hnot. now left.
  - rewrite IH; [reflexivity|]. intros Hin. apply Hnot. now right.
Qed.

Lemma split_no_sep (s : jsstring) :
  Forall (fun l => ~ In sep l) (split sep s).
Proof.
  induction s as [|c s IH]; cbn [split].
  - constructor; [intros [] | constructor].
  - destruct (N.eqb_spec c sep) as [->|Hne].
    + constructor; [intros [] | exact IH].
    + destruct (split sep s) as [|l ls]; inversion IH; subst.
      * constructor; [|constructor]. intros [H|[]]. congruence.
      * constructor; [|assumption]. intros [H|H]; [congruence|tauto].
Qed.

Lemma split_join (ls : list jsstring) :
  ls <> [] -> Forall (fun l => ~ In sep l) ls ->
  split sep (join sep ls) = ls.
Proof.
  induction ls as [|l ls IH]; intros Hne Hall; [congruence|].
  inversion Hall as [|? ? Hl Hls]; subst.
  destruct ls as [|l' ls].
  - cbn [join]. now apply split_single.
  - rewrite join_cons by discriminate.
    rewrite split_app_sep, split_single by assumption.
    rewrite IH by (assumption || discriminate). reflexivity.
Qed.

End SplitFacts.

(** Bring both sides of an equation between lists to right-nested form. *)
Ltac reassociate := repeat (rewrite <- app_assoc || (progress cbn [app])).

Lemma firstn_length_app {A} (l l' : list A) :
  firstn (length l) (l ++ l') = l.
Proof. induction l as [|a l IH]; cbn; [reflexivity | now rewrite IH]. Qed.

Section ScanFacts.

Variable base : nat.

Lemma findRunFunctionLine_app (pre rest : list jsstring) (def : jsstring)
      (i : nat) :
  Forall (fun l => matchesDefRun l = false) pre ->
  matchesDefRun def = true ->
  findRunFunctionLine (pre ++ def :: rest) i = Some (S (i + length pre)).
Proof.
  intros Hpre Hdef. revert i.
  induction Hpre as [|l pre Hl _ IH]; intros i; cbn [app findRunFunctionLine].
  - rewrite Hdef. cbn [length]. now rewrite Nat.add_0_r.
  - rewrite Hl, IH. cbn [length]. f_equal. lia.
Qed.

Lemma scanBlock_cons (line : jsstring) (rest : list jsstring)
      (i ins : nat) (pl : option nat) :
  inBlock base line = true ->
  scanBlock base (line :: rest) i ins pl
  = scanBlock base rest (S i) (S i)
              (if isPlaceholder line then Some (S i) else pl).
Proof.
  unfold inBlock. intros H. cbn [scanBlock].
  apply negb_true_iff in H. now rewrite H.
Qed.

Lemma scanBlock_ends (rest : list jsstring) (i ins : nat)
      (pl : option nat) :
  blockEnds base rest = true -> scanBlock base rest i ins pl = (ins, pl).
Proof.
  destruct rest as [|line rest]; [reflexivity|].
  unfold blockEnds, inBlock. rewrite negb_involutive. intros H.
  cbn [scanBlock]. now rewrite H.
Qed.

Lemma scanBlock_app (xs rest : list jsstring) (i : nat) (pl : option nat) :
  Forall (fun l => inBlock base l = true) xs ->
  scanBlock base (xs ++ rest) i i pl
  = scanBlock base rest (i + length xs) (i + length xs) (passAfter xs i pl).
Proof.
  intros Hxs. revert i pl.
  induction Hxs as [|l xs Hl _ IH]; intros i pl; cbn [app length passAfter].
  - now rewrite Nat.add_0_r.
  - rewrite scanBlock_cons by assumption. rewrite IH.
    now replace (S i + length xs) with (i + S (length xs)) by lia.
Qed.

Lemma isBlank_not_placeholder (line : jsstring) :
  isBlank line = true -> isPlaceholder line = false.
Proof.
  unfold isBlank, isPlaceholder. intros H.
  apply streq_eq in H. now rewrite H.
Qed.

Lemma isBlank_inBlock (line : jsstring) :
  isBlank line = true -> inBlock base line = true.
Proof.
  unfold isBlank, inBlock, isCodeLine. now intros ->.
Qed.

Lemma passAfter_blanks (blanks : list jsstring) (i : nat)
      (pl : option nat) :
  Forall (fun l => isBlank l = true) blanks ->
  passAfter blanks i pl = pl.
Proof.
  intros Hb. revert i.
  induction Hb as [|l blanks Hl _ IH]; intros i; cbn [passAfter];
    [reflexivity|].
  now rewrite (isBlank_not_placeholder _ Hl), IH.
Qed.

Lemma passAfter_app (xs ys : list jsstring) (i : nat) (pl : option nat) :
  passAfter (xs ++ ys) i pl = passAfter ys (i + length xs) (passAfter xs i pl).
Proof.
  revert i pl. induction xs as [|l xs IH]; intros i pl;
    cbn [app passAfter length].
  - now rewrite Nat.add_0_r.
  - rewrite IH. now replace (S i + length xs) with (i + S (length xs)) by lia.
Qed.

(** Stepping back from the end of a run of blank lines stops right after
    the line in front of the run. *)
Lemma backtrack_blanks (front blanks back : list jsstring)
      (r fuel : nat) :
  Forall (fun l => isBlank l = true) blanks ->
  length blanks <= fuel ->
  r <= length front ->
  (r < length front -> isBlank (nth (length front - 1) front []) = false) ->
  backtrack fuel (front ++ blanks ++ back) r (length front + length blanks)
  = length front.
Proof.
  intros Hblanks. revert back fuel.
  induction blanks as [|b blanks IH] using rev_ind;
    intros back fuel Hfuel Hr Hlast.
  - cbn [length app]. rewrite Nat.add_0_r.
    destruct fuel as [|fuel]; [reflexivity|]. cbn [backtrack].
    destruct (Nat.ltb_spec r (length front)) as [Hlt|_]; [|reflexivity].
    cbn [andb]. rewrite app_nth1 by lia.
    unfold isBlank in Hlast. now rewrite (Hlast Hlt).
  - apply Forall_app in Hblanks as [Hblanks Hb].
    inversion Hb as [|? ? Hb' _]; subst.
    rewrite length_app in *. cbn [length] in *.
    destruct fuel as [|fuel]; [lia|]. cbn [backtrack].
    destruct (Nat.ltb_spec r (length front + (length blanks + 1)));
      [|lia].
    cbn [andb].
    replace (length front + (length blanks + 1) - 1)
      with (length front + length blanks) by lia.
    rewrite <- app_assoc. cbn [app].
    rewrite app_nth2 by lia.
    replace (length front + length blanks - length front)
      with (length blanks) by lia.
    rewrite app_nth2 by lia. rewrite Nat.sub_diag. cbn [nth].
    unfold isBlank in Hb'. rewrite Hb'.
    apply IH; (assumption || lia).
Qed.

End ScanFacts.

Section ModelFacts.

Lemma noLineBreak_spec (s : jsstring) :
  noLineBreak s = true -> ~ In LF s /\ ~ In CR s.
Proof.
  unfold noLineBreak. intros H. apply negb_true_iff in H.
  split; intros Hin;
    (assert (Hex : existsb isLineBreak s = true);
     [apply existsb_exists; eexists; split; [exact Hin | reflexivity]
     | congruence]).
Qed.

Lemma noLineBreak_app (a b : jsstring) :
  noLineBreak (a ++ b) = noLineBreak a && noLineBreak b.
Proof. unfold noLineBreak. now rewrite existsb_app, negb_orb. Qed.

Lemma noLineBreak_lines (ls : list jsstring) :
  forallb noLineBreak ls = true ->
  Forall (fun l => ~ In LF l) ls /\ Forall (fun l => ~ In CR l) ls.
Proof.
  intros H. rewrite forallb_forall in H.
  split; apply Forall_forall; intros l Hl; now apply noLineBreak_spec, H.
Qed.


Lemma validModel_lines (m : TextModel) :
  validModel m = true -> forallb noLineBreak (modelLines m) = true.
Proof. unfold validModel. now destruct (modelLines m). Qed.

(** A text without carriage return is cut at its line feeds. *)
Lemma breakLines_split (s : jsstring) :
  ~ In CR s -> breakLines s = split LF s.
Proof.
  induction s as [|c s IH]; intros Hcr; [reflexivity|].
  assert (Hs : ~ In CR s) by (intros Hin; apply Hcr; now right).
  cbn [breakLines split].
  destruct (N.eqb_spec c LF) as [_|_]; [now rewrite IH|].
  destruct (N.eqb_spec c CR) as [->|_]; [exfalso; apply Hcr; now left|].
  now rewrite IH.
Qed.

(** The lines into which a text is cut hold no line break. *)
Lemma breakLines_valid (s : jsstring) :
  breakLines s <> [] /\ forallb noLineBreak (breakLines s) = true.
Proof.
  remember (length s) as n eqn:Hn.
  assert (Hle : length s <= n) by lia. clear Hn. revert s Hle.
  induction n as [|n IH]; intros s Hle.
  - destruct s; [|cbn in Hle; lia]. split; [discriminate | reflexivity].
  - destruct s as [|c rest]; [split; [discriminate | reflexivity]|].
    cbn [length] in Hle.
    destruct (IH rest ltac:(lia)) as [Hne Hall].
    cbn [breakLines].
    destruct (N.eqb_spec c LF) as [_|Hlf];
      [split; [discriminate | exact Hall]|].
    destruct (N.eqb_spec c CR) as [_|Hcr].
    + destruct rest as [|c' rest'];
        [split; [discriminate | reflexivity]|].
      destruct (N.eqb c' LF); [|split; [discriminate | exact Hall]].
      cbn [length] in Hle.
      destruct (IH rest' ltac:(lia)) as [_ Hall'].
      split; [discriminate | exact Hall'].
    + destruct (breakLines rest) as [|l ls]; [congruence|].
      split; [discriminate|].
      cbn [forallb] in Hall |- *. apply andb_prop in Hall as [Hl Hls].
      rewrite Hls, andb_true_r.
      unfold noLineBreak in Hl |- *. cbn [existsb].
      apply negb_true_iff in Hl. rewrite Hl, orb_false_r.
      unfold isLineBreak.
      apply N.eqb_neq in Hlf. apply N.eqb_neq in Hcr.
      now rewrite Hlf, Hcr.
Qed.

(** An edit keeps the invariant of the text model. *)
Lemma executeEdits_valid (m : TextModel) (range : Range) (text : jsstring) :
  validModel m = true -> validModel (executeEdits m range text) = true.
Proof.
  unfold validModel, executeEdits. intros Hvalid.
  destruct (modelLines m) as [|l0 ls0] eqn:Hlines; [discriminate|].
  rewrite <- Hlines in *. clear Hlines l0 ls0.
  destruct (validatePosition _ _ _) as [l1 c1].
  destruct (validatePosition _ _ _) as [l2 c2].
  cbn [modelLines].
  set (cut := breakLines _).
  destruct (breakLines_valid
              (firstn (c1 - 1) (nth (l1 - 1) (modelLines m) []) ++ text
                 ++ skipn (c2 - 1) (nth (l2 - 1) (modelLines m) [])))
    as [Hne Hall].
  fold cut in Hne, Hall.
  assert (Hall' : forallb noLineBreak
                    (firstn (l1 - 1) (modelLines m) ++ cut
                       ++ skipn l2 (modelLines m)) = true).
  { rewrite !forallb_app, Hall.
    rewrite forallb_forall in Hvalid.
    assert (H1 : forallb noLineBreak (firstn (l1 - 1) (modelLines m)) = true).
    { apply forallb_forall. intros x Hx. apply Hvalid.
      rewrite <- (firstn_skipn (l1 - 1)). apply in_or_app. now left. }
    assert (H2 : forallb noLineBreak (skipn l2 (modelLines m)) = true).
    { apply forallb_forall. intros x Hx. apply Hvalid.
      rewrite <- (firstn_skipn l2). apply in_or_app. now right. }
    now rewrite H1, H2. }
  destruct (firstn (l1 - 1) (modelLines m) ++ cut ++ skipn l2 (modelLines m))
    as [|x xs] eqn:Hnew; [|exact Hall'].
  apply app_eq_nil in Hnew as [_ Hnew].
  apply app_eq_nil in Hnew as [Hnew _]. congruence.
Qed.

Lemma joinWith_LF (ls : list jsstring) : joinWith [LF] ls = join LF ls.
Proof.
  induction ls as [|l ls IH]; [reflexivity|].
  cbn [joinWith join]. destruct ls as [|l' ls]; [reflexivity|].
  now rewrite IH.
Qed.

(** The elements of the array [model.getValue().split('\n')] are the lines
    of the model, with the carriage return of the end-of-line sequence
    added to them or not. *)
Lemma split_getValue (m : TextModel) :
  validModel m = true ->
  Forall2 viewOf (modelLines m) (split LF (getValue m)).
Proof.
  unfold validModel, getValue. intros Hvalid.
  set (lines := modelLines m) in *.
  assert (Hne : lines <> []) by (destruct lines; [discriminate | easy]).
  assert (Hall : forallb noLineBreak lines = true)
    by (destruct lines; [discriminate | exact Hvalid]).
  clearbody lines. clear Hvalid.
  destruct (noLineBreak_lines _ Hall) as [Hlf _]. clear Hall.
  destruct (modelEOL m); cbn [eolText].
  - rewrite joinWith_LF, split_join by assumption.
    clear. induction lines; constructor; [now left | assumption].
  - induction Hlf as [|l ls Hl Hls IH]; [now destruct Hne|].
    destruct ls as [|l' ls].
    + cbn [joinWith]. rewrite split_single by assumption.
      constructor; [now left | constructor].
    + change (joinWith [CR; LF] (l :: l' :: ls))
        with (l ++ [CR; LF] ++ joinWith [CR; LF] (l' :: ls)).
      replace (l ++ [CR; LF] ++ joinWith [CR; LF] (l' :: ls))
        with ((l ++ [CR]) ++ LF :: joinWith [CR; LF] (l' :: ls))
        by (now rewrite <- app_assoc).
      assert (Hl' : ~ In LF (l ++ [CR])).
      { intros Hin. apply in_app_or in Hin as [Hin|[Hin|[]]];
          [tauto | discriminate]. }
      rewrite split_app_sep, split_single by assumption.
      cbn [app]. constructor; [now right|].
      apply IH. discriminate.
Qed.

Lemma trimStart_CR (l : jsstring) :
  trimStart (l ++ [CR])
  = match trimStart l with [] => [] | _ :: _ => trimStart l ++ [CR] end.
Proof.
  induction l as [|c l IH]; [reflexivity|].
  cbn [app trimStart]. destruct (isWhiteSpace c); [exact IH | reflexivity].
Qed.

Lemma trim_CR (l : jsstring) : trim (l ++ [CR]) = trim l.
Proof.
  unfold trim. rewrite trimStart_CR.
  destruct (trimStart l) as [|c u]; [reflexivity|].
  unfold trimEnd. now rewrite rev_app_distr.
Qed.

Lemma leadingSpaces_CR (l : jsstring) :
  trimStart l <> [] -> leadingSpaces (l ++ [CR]) = leadingSpaces l.
Proof.
  induction l as [|c l IH]; [intros H; now destruct H|].
  cbn [app trimStart leadingSpaces].
  destruct (isWhiteSpace c); [|reflexivity].
  intros H. now rewrite IH.
Qed.

Lemma expect_CR (p s : jsstring) :
  ~ In CR p ->
  expect p (s ++ [CR])
  = match expect p s with Some t => Some (t ++ [CR]) | None => None end.
Proof.
  revert s. induction p as [|x p IH]; intros s Hp; [reflexivity|].
  assert (Hx : N.eqb x CR = false)
    by (apply N.eqb_neq; intros ->; apply Hp; now left).
  assert (Hp' : ~ In CR p) by (intros Hin; apply Hp; now right).
  destruct s as [|y s]; cbn [app expect].
  - now rewrite Hx.
  - destruct (N.eqb x y); [now apply IH | reflexivity].
Qed.

Lemma matchesDefRun_CR (l : jsstring) :
  matchesDefRun (l ++ [CR]) = matchesDefRun l.
Proof.
  assert (Hdef : ~ In CR (lit "def")) by (cbn; intuition discriminate).
  assert (Hrun : ~ In CR (lit "run")) by (cbn; intuition discriminate).
  assert (Hpar : ~ In CR (lit "(")) by (cbn; intuition discriminate).
  unfold matchesDefRun, skipSpaces. rewrite trimStart_CR.
  destruct (trimStart l) as [|c u]; [reflexivity|].
  rewrite (expect_CR _ _ Hdef).
  destruct (expect (lit "def") (c :: u)) as [s1|]; [|reflexivity].
  destruct s1 as [|c1 s2]; [reflexivity|].
  cbn [app]. f_equal. rewrite trimStart_CR.
  destruct (trimStart s2) as [|c2 u2]; [reflexivity|].
  rewrite (expect_CR _ _ Hrun).
  destruct (expect (lit "run") (c2 :: u2)) as [s3|]; [|reflexivity].
  rewrite trimStart_CR.
  destruct (trimStart s3) as [|c3 u3]; [reflexivity|].
  rewrite (expect_CR _ _ Hpar).
  now destruct (expect (lit "(") (c3 :: u3)).
Qed.

Lemma trimStart_of_trim (l : jsstring) : trimStart l = [] -> trim l = [].
Proof. unfold trim. now intros ->. Qed.

Lemma matchesDefRun_trimStart (l : jsstring) :
  matchesDefRun l = true -> trimStart l <> [].
Proof.
  unfold matchesDefRun, skipSpaces. intros H Hnil.
  rewrite Hnil in H. discriminate.
Qed.

Lemma viewOf_trim (l v : jsstring) : viewOf l v -> trim v = trim l.
Proof. intros [->| ->]; [reflexivity | apply trim_CR]. Qed.

Lemma viewOf_matchesDefRun (l v : jsstring) :
  viewOf l v -> matchesDefRun v = matchesDefRun l.
Proof. intros [->| ->]; [reflexivity | apply matchesDefRun_CR]. Qed.

Lemma viewOf_leadingSpaces (l v : jsstring) :
  viewOf l v -> trimStart l <> [] -> leadingSpaces v = leadingSpaces l.
Proof. intros [->| ->] H; [reflexivity | now apply leadingSpaces_CR]. Qed.

Lemma viewOf_isCodeLine (l v : jsstring) :
  viewOf l v -> isCodeLine v = isCodeLine l.
Proof. intros H. unfold isCodeLine. now rewrite (viewOf_trim l v H). Qed.

Lemma viewOf_nth (ls vs : list jsstring) (n : nat) :
  Forall2 viewOf ls vs -> viewOf (nth n ls []) (nth n vs []).
Proof.
  intros H. revert n.
  induction H as [|l v ls vs Hv _ IH]; intros n.
  - destruct n; now left.
  - destruct n as [|n]; [exact Hv | apply IH].
Qed.

Lemma viewOf_skipn (ls vs : list jsstring) (n : nat) :
  Forall2 viewOf ls vs -> Forall2 viewOf (skipn n ls) (skipn n vs).
Proof.
  intros H. revert n.
  induction H as [|l v ls vs Hv Hvs IH]; intros n.
  - destruct n; constructor.
  - destruct n as [|n]; [now constructor | apply IH].
Qed.

Lemma viewOf_findRunFunctionLine (ls vs : list jsstring) (i : nat) :
  Forall2 viewOf ls vs ->
  findRunFunctionLine vs i = findRunFunctionLine ls i.
Proof.
  intros H. revert i.
  induction H as [|l v ls vs Hv _ IH]; intros i; [reflexivity|].
  cbn [findRunFunctionLine]. rewrite (viewOf_matchesDefRun l v Hv).
  now rewrite IH.
Qed.

Lemma viewOf_scanBlock (base : nat) (ls vs : list jsstring)
      (i ins : nat) (pl : option nat) :
  Forall2 viewOf ls vs ->
  scanBlock base vs i ins pl = scanBlock base ls i ins pl.
Proof.
  intros H. revert i ins pl.
  induction H as [|l v ls vs Hv _ IH]; intros i ins pl; [reflexivity|].
  cbn [scanBlock].
  rewrite (viewOf_isCodeLine l v Hv), (viewOf_trim l v Hv), IH.
  destruct (isCodeLine l) eqn:Hcode; [|reflexivity].
  rewrite (viewOf_leadingSpaces l v Hv); [reflexivity|].
  intros Hnil. unfold isCodeLine in Hcode.
  now rewrite (trimStart_of_trim l Hnil) in Hcode.
Qed.

Lemma viewOf_backtrack (fuel : nat) (ls vs : list jsstring) (r ins : nat) :
  Forall2 viewOf ls vs ->
  backtrack fuel vs r ins = backtrack fuel ls r ins.
Proof.
  intros H. revert ins.
  induction fuel as [|fuel IH]; intros ins; [reflexivity|].
  cbn [backtrack].
  rewrite (viewOf_trim _ _ (viewOf_nth ls vs (ins - 1) H)).
  now rewrite IH.
Qed.

Lemma viewOf_header (ls vs : list jsstring) (i r : nat) :
  Forall2 viewOf ls vs ->
  findRunFunctionLine ls i = Some r ->
  leadingSpaces (nth (r - S i) vs []) = leadingSpaces (nth (r - S i) ls []).
Proof.
  intros H. revert i.
  induction H as [|l v ls vs Hv Hvs IH]; intros i; [discriminate|].
  cbn [findRunFunctionLine].
  destruct (matchesDefRun l) eqn:Hdef.
  - intros Hr. inversion Hr; subst r. rewrite Nat.sub_diag. cbn [nth].
    apply (viewOf_leadingSpaces l v Hv).
    now apply matchesDefRun_trimStart.
  - intros Hr.
    assert (Hlt : S i < r).
    { clear - Hr. revert i Hr.
      induction ls as [|x ls IHls]; intros i Hr; [discriminate|].
      cbn [findRunFunctionLine] in Hr.
      destruct (matchesDefRun x); [inversion Hr; lia|].
      specialize (IHls (S i) Hr). lia. }
    replace (r - S i) with (S (r - S (S i))) by lia. cbn [nth].
    now apply IH.
Qed.

(** On a model that satisfies its invariant, the search for the position of
    the insertion gives on the array of [findInsertionPosition] what it
    gives on the lines of the model: a carriage return at the end of a line
    makes no difference to it. *)
Lemma findInsertionPosition_lines (m : TextModel) :
  validModel m = true ->
  findInsertionPosition m = insertionPositionIn (modelLines m).
Proof.
  intros Hvalid. pose proof (split_getValue m Hvalid) as Hview.
  unfold findInsertionPosition, insertionPositionIn.
  set (vs := split LF (getValue m)) in *. set (ls := modelLines m) in *.
  rewrite (viewOf_findRunFunctionLine ls vs 0 Hview).
  destruct (findRunFunctionLine ls 0) as [r|] eqn:Hr; [|reflexivity].
  pose proof (viewOf_header ls vs 0 r Hview Hr) as Hbase.
  rewrite Hbase.
  rewrite (viewOf_scanBlock _ (skipn r ls) (skipn r vs) r r None
             (viewOf_skipn ls vs r Hview)).
  destruct (scanBlock _ _ _ _ _) as [insertLine passLine].
  now rewrite (viewOf_backtrack insertLine ls vs r insertLine Hview).
Qed.


End ModelFacts.

Section InsertFacts.

Variables (pre : list jsstring) (def : jsstring).
Hypothesis Hpre : Forall (fun l => matchesDefRun l = false) pre.
Hypothesis Hdef : matchesDefRun def = true.

Local Abbreviation base := (leadingSpaces def) (only parsing).
Local Abbreviation r := (S (length pre)) (only parsing).

Lemma nth_header (tail : list jsstring) :
  nth (r - 1) (pre ++ def :: tail) [] = def.
Proof.
  cbn [Nat.sub]. rewrite Nat.sub_0_r.
  rewrite app_nth2 by lia. now rewrite Nat.sub_diag.
Qed.

Lemma skipn_header (tail : list jsstring) :
  skipn r (pre ++ def :: tail) = tail.
Proof.
  rewrite skipn_app.
  rewrite skipn_all2 by lia.
  replace (S (length pre) - length pre) with 1 by lia. reflexivity.
Qed.

(** The scan and the step back over a block made of the lines [init], a
    last line [final] that is not blank, and blank lines. *)
Lemma block_extent (init blanks rest : list jsstring) (final : jsstring) :
  Forall (fun l => inBlock base l = true) init ->
  inBlock base final = true -> isBlank final = false ->
  Forall (fun l => isBlank l = true) blanks ->
  blockEnds base rest = true ->
  let lines := pre ++ def :: (init ++ [final]) ++ blanks ++ rest in
  let scanned :=
    scanBlock base (skipn r lines) r r None in
  scanned = (r + length init + 1 + length blanks,
             passAfter (init ++ [final]) r None)
  /\ backtrack (fst scanned) lines r (fst scanned) = r + length init + 1.
Proof.
  intros Hinit Hfinal Hnotblank Hblanks Hends lines scanned.
  assert (Hscanned : scanned
                     = (r + length init + 1 + length blanks,
                        passAfter (init ++ [final]) r None)).
  { unfold scanned, lines. rewrite skipn_header.
    rewrite app_assoc.
    rewrite scanBlock_app.
    - rewrite scanBlock_ends by assumption.
      rewrite passAfter_app, passAfter_blanks by assumption.
      rewrite !length_app. cbn [length]. f_equal. lia.
    - apply Forall_app. split.
      + apply Forall_app. split; [assumption|]. now repeat constructor.
      + eapply Forall_impl; [|exact Hblanks].
        intros l. apply isBlank_inBlock. }
  split; [exact Hscanned|].
  rewrite Hscanned. cbn [fst]. unfold lines.
  replace (pre ++ def :: (init ++ [final]) ++ blanks ++ rest)
    with ((pre ++ def :: init ++ [final]) ++ blanks ++ rest)
    by (now reassociate).
  assert (Hlen : length (pre ++ def :: init ++ [final])
                 = r + length init + 1).
  { rewrite !length_app. cbn [length]. rewrite length_app. cbn [length].
    lia. }
  replace (r + length init + 1 + length blanks)
    with (length (pre ++ def :: init ++ [final]) + length blanks) by lia.
  rewrite backtrack_blanks; try assumption; try lia.
  intros _. rewrite Hlen.
  replace (pre ++ def :: init ++ [final])
    with ((pre ++ def :: init) ++ [final])
    by (now reassociate).
  rewrite app_nth2 by (rewrite length_app; cbn [length]; lia).
  rewrite length_app. cbn [length].
  replace (r + length init + 1 - 1 - (length pre + S (length init)))
    with 0 by lia.
  exact Hnotblank.
Qed.


End InsertFacts.

Lemma validatePosition_start (lines : list jsstring) (n : nat) :
  n < length lines -> validatePosition lines (S n) 1 = (S n, 1).
Proof.
  intros Hn. unfold validatePosition.
  destruct (Nat.ltb_spec (S n) 1); [lia|].
  destruct (Nat.ltb_spec (length lines) (S n)); [lia|].
  reflexivity.
Qed.

Lemma validatePosition_end (lines : list jsstring) (n : nat) :
  n < length lines ->
  validatePosition lines (S n) (length (nth n lines []) + 1)
  = (S n, length (nth n lines []) + 1).
Proof.
  intros Hn. unfold validatePosition.
  destruct (Nat.ltb_spec (S n) 1); [lia|].
  destruct (Nat.ltb_spec (length lines) (S n)); [lia|].
  replace (S n - 1) with n by lia.
  destruct (Nat.leb_spec (length (nth n lines []) + 1) 1); [f_equal; lia|].
  destruct (Nat.leb_spec (S (length (nth n lines [])))
                         (length (nth n lines []) + 1)); f_equal; lia.
Qed.

Lemma executeEdits_line (m : TextModel) (before after : list jsstring)
      (l text : jsstring) :
  modelLines m = before ++ l :: after ->
  executeEdits m
    {| startLineNumber := S (length before); startColumn := 1;
       endLineNumber := S (length before); endColumn := length l + 1 |}
    text
  = {| modelLines := before ++ breakLines text ++ after;
       modelEOL := modelEOL m |}.
Proof.
  intros Hlines. unfold executeEdits. rewrite Hlines.
  cbn [startLineNumber startColumn endLineNumber endColumn].
  assert (Hin : length before < length (before ++ l :: after))
    by (rewrite length_app; cbn [length]; lia).
  assert (Hnth : nth (length before) (before ++ l :: after) [] = l)
    by (rewrite app_nth2 by lia; now rewrite Nat.sub_diag).
  rewrite (validatePosition_start _ _ Hin).
  pose proof (validatePosition_end _ _ Hin) as Hend.
  rewrite Hnth in Hend. rewrite Hend.
  replace (S (length before) - 1) with (length before) by lia.
  rewrite Hnth, firstn_length_app.
  replace (length l + 1 - 1) with (length l) by lia.
  rewrite skipn_all. cbn [Nat.sub firstn app]. rewrite app_nil_r.
  rewrite skipn_app, skipn_all2 by lia.
  replace (S (length before) - length before) with 1 by lia.
  reflexivity.
Qed.

Lemma indented_facts (s : jsstring) :
  leadingSpaces (lit "    " ++ s) = 4 + leadingSpaces s
  /\ isBlank (lit "    " ++ s) = isBlank s.
Proof. split; reflexivity. Qed.

Lemma isPlaceholder_not_blank (line : jsstring) :
  isPlaceholder line = true -> isBlank line = false.
Proof.
  unfold isPlaceholder, isBlank. intros H.
  apply streq_eq in H. now rewrite H.
Qed.

Lemma indented_noLineBreak (s : jsstring) :
  noLineBreak (lit "    " ++ s) = noLineBreak s.
Proof. reflexivity. Qed.


(** In a buffer whose end-of-line sequence is a carriage return with a line
    feed, the text after the insertion has this sequence behind every
    inserted line as well. *)
Lemma insertion_writes_the_line_breaks_of_the_buffer :
  editorValue
    (insertCode
       (Monaco (Examples.modelOf EolCRLF (lit "def run(vnc):
    pass")) (Build_Range 1 1 1 1))
       (lit "vnc.wait(2)
vnc.click(1, 2)") true)
  = lit "def run(vnc):" ++ [CR; LF]
      ++ lit "    vnc.wait(2)" ++ [CR; LF]
      ++ lit "    vnc.click(1, 2)" ++ [CR; LF].
Proof. vm_compute. reflexivity. Qed.



(* ================================================================== *)
(** * Further properties of the generated/manual split *)
(* ================================================================== *)

Lemma truthy_nonempty (s : jsstring) : truthy s = true <-> s <> [].
Proof. destruct s; simpl; split; congruence. Qed.

(** X1.  The line count of the concatenation of a generated text and a
    manual text is the sum of their line counts, the empty text counting
    for zero lines. *)
Theorem countLines_concatenateCodes (G M : jsstring) :
  countLines (concatenateCodes G M) = (countLines G + countLines M)%Z.
Proof.
  unfold concatenateCodes, countLines.
  destruct G as [|g G'], M as [|m M']; cbn [truthy negb andb]; try lia.
  set (G := g :: G'). set (M := m :: M').
  replace (truthy (G ++ LF :: M)) with true by reflexivity.
  cbn [negb]. rewrite split_app_sep, length_app. lia.
Qed.

Lemma join_app (sep : codeunit) (a b : list jsstring) :
  a <> [] -> b <> [] -> join sep (a ++ b) = join sep a ++ sep :: join sep b.
Proof.
  intros Ha Hb. induction a as [|x a IH]; [congruence|].
  destruct a as [|y a].
  - cbn [app]. now rewrite join_cons.
  - change ((x :: y :: a) ++ b) with (x :: (y :: a) ++ b).
    rewrite join_cons by discriminate.
    rewrite IH by discriminate.
    rewrite (join_cons sep x (y :: a)) by discriminate.
    now rewrite <- app_assoc.
Qed.

(** X2.  Separating a text at a line count and concatenating the two parts
    gives back the text, unless the line count falls strictly inside the text
    and one of the two parts is the empty string (the line feed next to an
    empty part is then lost). *)
Theorem concatenate_separate_roundtrip (fullCode : jsstring) (n : Z) :
  let parts := separateGeneratedFromManual fullCode n in
  ((0 < n < countLines fullCode)%Z ->
   generated parts <> [] /\ manual parts <> []) ->
  concatenateCodes (generated parts) (manual parts) = fullCode.
Proof.
  unfold separateGeneratedFromManual, countLines.
  destruct fullCode as [|c full']; [reflexivity|].
  cbn [truthy negb]. cbv zeta. set (full := c :: full').
  destruct (Z.leb_spec n 0) as [Hn|Hn]; [reflexivity|].
  destruct (Z_lt_le_dec n (Z.of_nat (length (split LF full)))) as [Hlt|Hge].
  - intros Hparts. destruct (Hparts (conj Hn Hlt)) as [Hg Hm].
    cbn [generated manual] in *.
    unfold concatenateCodes.
    apply truthy_nonempty in Hg, Hm. rewrite Hg, Hm. cbn [negb andb].
    rewrite <- (join_split LF full) at 3.
    rewrite <- (firstn_skipn (Z.to_nat n) (split LF full)) at 3.
    symmetry. apply join_app.
    + intros H. apply (f_equal (@length _)) in H.
      rewrite length_firstn in H. cbn [length] in H. lia.
    + intros H. apply (f_equal (@length _)) in H.
      rewrite length_skipn in H. cbn [length] in H. lia.
  - intros _. cbn [generated manual].
    rewrite firstn_all2, skipn_all2 by lia.
    rewrite join_split. reflexivity.
Qed.

Lemma concatenate_separate_roundtrip_witness :
  concatenateCodes
    (generated (separateGeneratedFromManual (lit "a
b
c") 2))
    (manual (separateGeneratedFromManual (lit "a
b
c") 2))
  = lit "a
b
c".
Proof.
  apply (concatenate_separate_roundtrip (lit "a
b
c") 2).
  intros _. split; discriminate.
Defined.

(* ================================================================== *)
(** * The hash of a text *)
(* ================================================================== *)

Section HashFacts.

Local Open Scope Z_scope.

Lemma toInt32_mod (z : Z) : toInt32 z mod 4294967296 = z mod 4294967296.
Proof.
  unfold toInt32.
  rewrite Zminus_mod, Z.mod_mod by lia.
  rewrite <- Zminus_mod. f_equal. lia.
Qed.

Lemma toInt32_congr (a b : Z) :
  a mod 4294967296 = b mod 4294967296 -> toInt32 a = toInt32 b.
Proof.
  intros H. unfold toInt32.
  rewrite (Zplus_mod a), (Zplus_mod b), H. reflexivity.
Qed.

Lemma toInt32_range (z : Z) : -2147483648 <= toInt32 z < 2147483648.
Proof.
  unfold toInt32.
  pose proof (Z.mod_pos_bound (z + 2147483648) 4294967296). lia.
Qed.

Lemma toInt32_small (z : Z) :
  -2147483648 <= z < 2147483648 -> toInt32 z = z.
Proof.
  intros H. unfold toInt32. rewrite Z.mod_small by lia. lia.
Qed.

Lemma hashStep_mod (h : Z) (c : codeunit) :
  hashStep h c = toInt32 (31 * h + Z.of_N c).
Proof.
  unfold hashStep, shl5. cbv zeta. rewrite Z.land_diag.
  apply toInt32_congr.
  rewrite Z.shiftl_mul_pow2 by lia.
  change (2 ^ 5) with 32.
  rewrite Zplus_mod, Zminus_mod, toInt32_mod.
  rewrite Zmult_mod, toInt32_mod, <- Zmult_mod.
  rewrite <- Zminus_mod, <- Zplus_mod. f_equal. lia.
Qed.

Lemma hashLoop_from (code : jsstring) (h p : Z) :
  toInt32 h = toInt32 p ->
  toInt32 (fold_left hashStep code h)
  = toInt32 (fold_left (fun h c => 31 * h + Z.of_N c) code p).
Proof.
  revert h p. induction code as [|c code IH]; intros h p H; [exact H|].
  cbn [fold_left]. apply IH. rewrite hashStep_mod.
  rewrite toInt32_small by apply toInt32_range.
  apply toInt32_congr.
  rewrite (Zplus_mod (31 * h)), (Zplus_mod (31 * p)).
  rewrite (Zmult_mod 31 h), (Zmult_mod 31 p).
  rewrite <- (toInt32_mod h), <- (toInt32_mod p), H. reflexivity.
Qed.

Lemma hashLoop_range (code : jsstring) (h : Z) :
  -2147483648 <= h < 2147483648 ->
  -2147483648 <= fold_left hashStep code h < 2147483648.
Proof.
  revert h. induction code as [|c code IH]; intros h H; [exact H|].
  cbn [fold_left]. apply IH. rewrite hashStep_mod. apply toInt32_range.
Qed.

Lemma hashLoop_polynomial (code : jsstring) :
  hashLoop code = toInt32 (polynomial31 code).
Proof.
  unfold hashLoop, polynomial31.
  rewrite <- (hashLoop_from code 0 0 eq_refl).
  symmetry. apply toInt32_small. apply hashLoop_range. lia.
Qed.

Lemma hexDigit_value (d : Z) (v : Z) :
  0 <= d < 16 ->
  (16 * v + (if Z.of_N (hexDigit d) <? 58 then Z.of_N (hexDigit d) - 48
             else Z.of_N (hexDigit d) - 87)) = 16 * v + d.
Proof.
  intros Hd. unfold hexDigit.
  destruct (Z.ltb_spec d 10); rewrite Z2N.id by lia.
  - destruct (Z.ltb_spec (48 + d) 58); lia.
  - destruct (Z.ltb_spec (87 + d) 58); lia.
Qed.

Lemma hexValue_app (a b : jsstring) (v : Z) :
  fold_left
    (fun v c => 16 * v + (if Z.of_N c <? 58 then Z.of_N c - 48
                          else Z.of_N c - 87)) (a ++ b) v
  = fold_left
      (fun v c => 16 * v + (if Z.of_N c <? 58 then Z.of_N c - 48
                            else Z.of_N c - 87)) b
      (fold_left
         (fun v c => 16 * v + (if Z.of_N c <? 58 then Z.of_N c - 48
                               else Z.of_N c - 87)) a v).
Proof. apply fold_left_app. Qed.

Lemma hexDigit_digit (d : Z) :
  0 <= d < 16 -> isHexDigit (hexDigit d) = true.
Proof.
  intros Hd. unfold isHexDigit, hexDigit.
  destruct (Z.ltb_spec d 10).
  - assert (H1 : (48 <=? Z.to_N (48 + d))%N = true)
      by (apply N.leb_le; lia).
    assert (H2 : (Z.to_N (48 + d) <=? 57)%N = true)
      by (apply N.leb_le; lia).
    now rewrite H1, H2.
  - assert (H1 : (97 <=? Z.to_N (87 + d))%N = true)
      by (apply N.leb_le; lia).
    assert (H2 : (Z.to_N (87 + d) <=? 102)%N = true)
      by (apply N.leb_le; lia).
    rewrite H1, H2. apply orb_true_r.
Qed.

Lemma hexDigit_zero (d : Z) :
  0 <= d < 16 -> hexDigit d = 48%N -> d = 0.
Proof.
  intros Hd. unfold hexDigit. destruct (Z.ltb_spec d 10); lia.
Qed.

(** The digits written for [n] in front of [acc]: digits of base 16, as
    many as [n] needs, at most [k] when [n < 16 ^ k]; they denote [n], and
    the first of them is 0 only when [n] is 0 and it is the only one. *)
Lemma toHexDigits_spec (fuel : nat) :
  forall (n : Z) (acc : jsstring) (k : nat),
    0 <= n < 16 ^ Z.of_nat k -> (k <= fuel)%nat -> (1 <= k)%nat ->
    exists digits,
      toHexDigits fuel n acc = digits ++ acc
      /\ (1 <= length digits <= k)%nat
      /\ forallb isHexDigit digits = true
      /\ (hd 48%N digits = 48%N -> n = 0 /\ digits = [48%N])
      /\ hexValue digits = n.
Proof.
  induction fuel as [|fuel IH]; intros n acc k Hn Hk Hk1; [lia|].
  cbn [toHexDigits].
  destruct (Z.ltb_spec n 16) as [Hsmall|Hbig].
  - exists [hexDigit (n mod 16)]. split; [reflexivity|].
    split; [cbn [length]; lia|].
    rewrite Z.mod_small by lia.
    split; [cbn [forallb]; rewrite hexDigit_digit by lia; reflexivity|].
    split.
    { cbn [hd]. intros Hzero.
      pose proof (hexDigit_zero n ltac:(lia) Hzero) as ->.
      split; reflexivity. }
    unfold hexValue. cbn [fold_left].
    rewrite hexDigit_value by lia. lia.
  - destruct k as [|[|k]]; [lia| change (16 ^ Z.of_nat 1) with 16 in Hn; lia |].
    destruct (IH (n / 16) (hexDigit (n mod 16) :: acc) (S k))
      as (digits & Heq & Hlen & Hall & Hlead & Hval).
    + split; [apply Z.div_pos; lia|].
      apply Z.div_lt_upper_bound; [lia|].
      replace (Z.of_nat (S (S k))) with (Z.succ (Z.of_nat (S k))) in Hn by lia.
      rewrite Z.pow_succ_r in Hn by lia. lia.
    + lia.
    + lia.
    + exists (digits ++ [hexDigit (n mod 16)]).
      split; [rewrite Heq, <- app_assoc; reflexivity|].
      split; [rewrite length_app; cbn [length]; lia|].
      split.
      { rewrite forallb_app, Hall. cbn [forallb].
        rewrite hexDigit_digit by (apply Z.mod_pos_bound; lia).
        reflexivity. }
      split.
      { intros Hzero. exfalso.
        destruct digits as [|d digits]; [cbn [length] in Hlen; lia|].
        cbn [app hd] in Hzero. cbn [hd] in Hlead.
        destruct (Hlead Hzero) as [Hq _].
        pose proof (Z.div_mod n 16 ltac:(lia)).
        pose proof (Z.mod_pos_bound n 16 ltac:(lia)). lia. }
      unfold hexValue in *. rewrite hexValue_app, Hval. cbn [fold_left].
      rewrite hexDigit_value by (apply Z.mod_pos_bound; lia).
      pose proof (Z.div_mod n 16). lia.
Qed.

End HashFacts.

(** X3.  The hash of a non-empty text is the value at 31 of the polynomial
    whose coefficients are the code units of the text, reduced to a signed
    32-bit integer, its sign dropped, written in base 16: the text returned
    consists of one to eight of the digits [0-9a-f], begins with the digit
    0 only when it is the text 0, and denotes that absolute value. *)
Theorem hashCode_polynomial (code : jsstring) :
  code <> [] ->
  (1 <= length (hashCode code) <= 8)%nat
  /\ forallb isHexDigit (hashCode code) = true
  /\ (hd 48%N (hashCode code) = 48%N -> hashCode code = lit "0")
  /\ hexValue (hashCode code) = Z.abs (toInt32 (polynomial31 code)).
Proof.
  intros Hcode. unfold hashCode.
  apply truthy_nonempty in Hcode. rewrite Hcode. cbn [negb].
  rewrite hashLoop_polynomial.
  pose proof (toInt32_range (polynomial31 code)) as Hrange.
  set (n := Z.abs (toInt32 (polynomial31 code))) in *.
  assert (Hn : (0 <= n <= 2147483648)%Z) by (subst n; lia).
  unfold toStringHex.
  set (l := Z.log2 n).
  assert (Hl : (0 <= l <= 31)%Z).
  { split; [apply Z.log2_nonneg|].
    destruct (Z.eq_dec n 0) as [->|Hne]; [subst l; simpl; lia|].
    assert (l < 32)%Z; [|lia].
    apply Z.log2_lt_pow2; lia. }
  assert (Hlt : (n < 16 ^ Z.of_nat (S (Z.to_nat (l / 4))))%Z).
  { destruct (Z.eq_dec n 0) as [Hz|Hne].
    - rewrite Hz. apply Z.pow_pos_nonneg; lia.
    - pose proof (Z.log2_spec n ltac:(lia)) as [_ Hup]. fold l in Hup.
      eapply Z.lt_le_trans; [exact Hup|].
      change 16%Z with (2 ^ 4)%Z. rewrite <- Z.pow_mul_r by lia.
      apply Z.pow_le_mono_r; [lia|].
      rewrite Nat2Z.inj_succ, Z2Nat.id by (apply Z.div_pos; lia).
      pose proof (Z.div_mod l 4 ltac:(lia)).
      pose proof (Z.mod_pos_bound l 4 ltac:(lia)). lia. }
  assert (Hq : (0 <= l / 4 <= 7)%Z).
  { split; [apply Z.div_pos; lia|].
    assert (l / 4 < 8)%Z; [apply Z.div_lt_upper_bound; lia | lia]. }
  destruct (toHexDigits_spec (S (Z.to_nat l)) n [] (S (Z.to_nat (l / 4))))
    as (digits & Heq & Hlen & Hall & Hlead & Hval).
  - lia.
  - apply le_n_S. apply Z2Nat.inj_le; try lia.
    apply Z.div_le_upper_bound; lia.
  - lia.
  - rewrite Heq, app_nil_r.
    split; [assert (Z.to_nat (l / 4) <= 7)%nat by lia; lia|].
    split; [assumption|]. split; [|assumption].
    intros Hzero. apply (Hlead Hzero).
Qed.

Lemma hashCode_polynomial_witness :
  (1 <= length (hashCode (lit "def run(vnc):")) <= 8)%nat
  /\ forallb isHexDigit (hashCode (lit "def run(vnc):")) = true
  /\ (hd 48%N (hashCode (lit "def run(vnc):")) = 48%N ->
      hashCode (lit "def run(vnc):") = lit "0")
  /\ hexValue (hashCode (lit "def run(vnc):"))
     = Z.abs (toInt32 (polynomial31 (lit "def run(vnc):"))).
Proof. apply (hashCode_polynomial (lit "def run(vnc):")). discriminate. Defined.

(* ================================================================== *)
(** * Locating the manual part *)
(* ================================================================== *)

Lemma commonLines_prefix (a b : list jsstring) :
  commonLines a (a ++ b) = length a.
Proof.
  induction a as [|x a IH]; [reflexivity|].
  cbn [commonLines app length]. now rewrite streq_refl, IH.
Qed.

(** X4.  When the live text is the generated text, a line feed and a manual
    text, the fallback extraction of the manual code returns that manual
    text without the white space at its two ends. *)
Theorem extractManualCodeFallback_unedited (G M : jsstring) :
  G <> [] ->
  extractManualCodeFallback G (G ++ LF :: M) = trim M.
Proof.
  intros HG. rewrite extractManualCodeFallback_remainder by assumption.
  unfold manualRemainder. rewrite split_app_sep, commonLines_prefix.
  rewrite skipn_app, skipn_all, Nat.sub_diag. cbn [app skipn].
  now rewrite join_split.
Qed.

Lemma extractManualCodeFallback_unedited_witness :
  extractManualCodeFallback (lit "a
b") (lit "a
b
  x = 1
") = lit "x = 1".
Proof.
  apply (extractManualCodeFallback_unedited (lit "a
b") (lit "  x = 1
")).
  discriminate.
Defined.

(** X5.  In the concatenation of a generated text and a non-empty manual
    text, the lines from the manual start line computed from the line count
    of the generated text (a line number counted from one) to the end are
    exactly the lines of the manual text. *)
Theorem getManualCodeStartLine_locates_manual (G M : jsstring) :
  M <> [] ->
  skipn (Z.to_nat (getManualCodeStartLine (countLines G) - 1))
        (split LF (concatenateCodes G M))
  = split LF M.
Proof.
  intros HM. destruct M as [|m M']; [congruence|].
  unfold getManualCodeStartLine, concatenateCodes, countLines.
  destruct G as [|g G']; [reflexivity|].
  cbn [truthy negb andb]. set (G := g :: G'). set (M := m :: M').
  pose proof (split_length_pos LF G) as Hlen.
  destruct (Z.eqb_spec (Z.of_nat (length (split LF G))) 0) as [H0|_]; [lia|].
  replace (Z.of_nat (length (split LF G)) + 1 - 1)%Z
    with (Z.of_nat (length (split LF G))) by lia.
  rewrite Nat2Z.id, split_app_sep, skipn_app, skipn_all, Nat.sub_diag.
  reflexivity.
Qed.

Lemma getManualCodeStartLine_locates_manual_witness :
  skipn (Z.to_nat (getManualCodeStartLine (countLines (lit "a
b")) - 1))
        (split LF (concatenateCodes (lit "a
b") (lit "x
y")))
  = [lit "x"; lit "y"].
Proof.
  apply (getManualCodeStartLine_locates_manual (lit "a
b") (lit "x
y")).
  discriminate.
Defined.

(* ================================================================== *)
(** * Further properties of the code synthesis *)
(* ================================================================== *)

Lemma includes_intro (needle before after : jsstring) :
  includes needle (before ++ needle ++ after) = true.
Proof.
  induction before as [|c before IH]; cbn [app].
  - destruct (needle ++ after) eqn:E; cbn [includes];
      rewrite <- E, startsWith_app; reflexivity.
  - cbn [includes]. rewrite IH. apply orb_true_r.
Qed.

Lemma join_In (sep : codeunit) (l : jsstring) (ls : list jsstring) :
  In l ls -> exists before after, join sep ls = before ++ l ++ after.
Proof.
  induction ls as [|x ls IH]; [contradiction|].
  intros [->|Hin].
  - destruct ls as [|y ls].
    + exists [], []. cbn [join app]. now rewrite app_nil_r.
    + exists [], (sep :: join sep (y :: ls)). reflexivity.
  - destruct (IH Hin) as (before & after & Heq).
    exists (x ++ sep :: before), after.
    rewrite join_cons by (intros ->; contradiction).
    rewrite Heq, <- app_assoc. reflexivity.
Qed.

Lemma includes_join (sep : codeunit) (l : jsstring) (ls : list jsstring) :
  In l ls -> includes l (join sep ls) = true.
Proof.
  intros Hin. destruct (join_In sep l ls Hin) as (before & after & ->).
  apply includes_intro.
Qed.

Section SynthesisFacts.

Context {B : Builtins}.

Lemma insertStep_Permutation (a : Step) (sorted : list Step) :
  Permutation (a :: sorted) (insertStep a sorted).
Proof.
  induction sorted as [|b rest IH]; cbn [insertStep]; [reflexivity|].
  destruct (Num.gt (compareOrder a b) (Num.ofZ 0)); [|reflexivity].
  rewrite perm_swap. now apply perm_skip.
Qed.

Lemma stepToCode_starts (step : Step) (codeLine : jsstring) :
  stepToCode step = Some codeLine ->
  startsWith (lit "vnc.") codeLine = true.
Proof.
  unfold stepToCode, pointerCode. cbv zeta.
  repeat match goal with
         | |- context [if ?c then _ else _] => destruct c
         | |- context [let '(_, _) := ?p in _] => destruct p
         end;
    intros H; inversion H; reflexivity.
Qed.

Lemma sortSteps_In (step : Step) (steps : list Step) :
  In step steps -> In step (sortSteps steps).
Proof.
  induction steps as [|a steps IH]; [contradiction|].
  intros Hin. cbn [sortSteps fold_right]. fold (sortSteps steps).
  eapply Permutation_in; [apply insertStep_Permutation|].
  destruct Hin as [->|Hin]; [now left | right; now apply IH].
Qed.

End SynthesisFacts.

(** X6.  The metadata returned with a synthesized text agree with the code
    utilities: the line count is [countLines] of the text and the hash is
    [hashCode] of the text. *)
Theorem generateCodeWithMetadata_consistent
        {B : Builtins} (isoNow : jsstring) (steps : list Step)
        (scriptName description : jsstring) :
  let result :=
    generateCodeWithMetadata isoNow steps scriptName description in
  md_code result = generateCode isoNow steps scriptName description
  /\ md_lineCount result = countLines (md_code result)
  /\ md_hash result = hashCode (md_code result).
Proof.
  cbv zeta. unfold generateCodeWithMetadata. cbn [md_code md_lineCount md_hash].
  assert (Hcode : truthy (generateCode isoNow steps scriptName description)
                  = true).
  { unfold generateCode, headerLines. cbn [app].
    rewrite join_cons by discriminate. reflexivity. }
  unfold countLines, hashCode. rewrite Hcode. cbn [negb].
  repeat split.
Qed.

(** X8.  Every step of the list for which the per-step mapping has a
    statement contributes that statement to the synthesized text, indented
    by four spaces, whatever the order fields of the steps are. *)
Theorem generateCode_emits_every_statement
        {B : Builtins} (isoNow : jsstring) (steps : list Step)
        (scriptName description : jsstring)
        (step : Step) (codeLine : jsstring) :
  In step steps ->
  stepToCode step = Some codeLine ->
  In (lit "    " ++ codeLine) (bodyLines steps)
  /\ includes (lit "    " ++ codeLine)
       (generateCode isoNow steps scriptName description) = true.
Proof.
  intros Hin Hcode.
  assert (Hbody : In (lit "    " ++ codeLine) (bodyLines steps)).
  { destruct steps as [|s0 steps']; [contradiction|].
    unfold bodyLines. apply in_flat_map. exists step. split.
    - apply sortSteps_In. exact Hin.
    - unfold stepLines. apply in_or_app. right. rewrite Hcode.
      pose proof (stepToCode_starts step codeLine Hcode) as Hstart.
      destruct codeLine as [|c codeLine]; [discriminate|].
      cbn [truthy]. apply in_or_app. right. left. reflexivity. }
  split; [exact Hbody|].
  unfold generateCode. apply includes_join.
  apply in_or_app. right. apply in_or_app. left. exact Hbody.
Qed.

Lemma generateCode_emits_every_statement_witness :
  includes (lit "    vnc.click(0, 0)")
    (generateCode (B := Examples.asciiBuiltins)
       (lit "2024-01-01T00:00:00.000Z")
       [StepUtils.createBlankStep (lit "wait");
        StepUtils.createBlankStep (lit "click")]
       (lit "demo") [])
  = true.
Proof.
  apply (proj2 (generateCode_emits_every_statement
                  (B := Examples.asciiBuiltins)
                  (lit "2024-01-01T00:00:00.000Z")
                  [StepUtils.createBlankStep (lit "wait");
                   StepUtils.createBlankStep (lit "click")]
                  (lit "demo") []
                  (StepUtils.createBlankStep (lit "click"))
                  (lit "vnc.click(0, 0)")
                  ltac:(right; left; reflexivity) eq_refl)).
Defined.

(* ================================================================== *)
(** * Step utilities *)
(* ================================================================== *)

Import StepUtils.

Ltac eval_streq :=
  repeat match goal with
         | |- context [streq ?a ?b] =>
             let v := eval vm_compute in (streq a b) in
             change (streq a b) with v
         | H : context [streq ?a ?b] |- _ =>
             let v := eval vm_compute in (streq a b) in
             change (streq a b) with v in H
         end.

(** X9.  A step that [validateStep] accepts and whose type is one of the
    eleven types known to the per-step mapping always has a statement: the
    mapping yields no statement only for a type it does not know or for a
    key step without keys, and the latter is rejected by the validation. *)
Theorem valid_mapped_step_has_statement {B : Builtins} (step : Step) :
  In (step_type step) mappedTypes ->
  isValid (validateStep step) = true ->
  exists codeLine, stepToCode step = Some codeLine.
Proof.
  unfold mappedTypes. intros Htype Hvalid.
  unfold validateStep, isPointerType, isKeyType in Hvalid.
  unfold stepToCode. cbv zeta in *.
  cbn [In] in Htype.
  repeat (destruct Htype as [Htype|Htype]; [rewrite <- Htype in *|]);
    try contradiction; eval_streq; cbn [truthy lit negb orb app] in *;
    cbv iota in *;
    try (eexists; reflexivity).
  - destruct (hasKeys (step_keys step)); [eexists; reflexivity|discriminate].
  - destruct (hasKeys (step_keys step)); [eexists; reflexivity|discriminate].
  - destruct (step_region step); eexists; reflexivity.
Qed.

Lemma valid_mapped_step_has_statement_witness :
  exists codeLine,
    stepToCode (B := Examples.asciiBuiltins)
      (set_keys (Some [lit "enter"]) (createBlankStep (lit "key_press")))
    = Some codeLine.
Proof.
  apply (valid_mapped_step_has_statement (B := Examples.asciiBuiltins)
           (set_keys (Some [lit "enter"]) (createBlankStep (lit "key_press")))
           ltac:(do 4 right; left; reflexivity) eq_refl).
Defined.

(** X10.  The step made from what the viewer records for a click, a double
    click or a right click at a point is accepted by the validation, keeps
    the recorded delay, and is mapped to the call of that name on the two
    recorded coordinates; the step made from a recorded drag is mapped to
    the drag call on its four coordinates. *)
Theorem recorded_pointer_step_statement
        {B : Builtins} (type : jsstring) (x y end_x end_y : number)
        (description : jsstring) (timestamp : Z) (delay_before : number) :
  let recorded :=
    Recording.pointerStep type x y description timestamp delay_before in
  (isPointerType type = true ->
   let step := createStepFromVNC (ofRecorded recorded) in
   isValid (validateStep step) = true
   /\ step_delay_before step = Some delay_before
   /\ stepToCode step
      = Some (lit "vnc." ++ type ++ lit "(" ++ numberToString x ++ lit ", "
                ++ numberToString y ++ lit ")"))
  /\ (type = lit "drag" ->
      let step :=
        createStepFromVNC (ofRecorded (Recording.withDrag end_x end_y recorded)) in
      isValid (validateStep step) = true
      /\ stepToCode step
         = Some (lit "vnc.drag(" ++ numberToString x ++ lit ", "
                   ++ numberToString y ++ lit ", " ++ numberToString end_x
                   ++ lit ", " ++ numberToString end_y ++ lit ")")).
Proof.
  cbv zeta. split.
  - intros Hptr.
    assert (Hcases : type = lit "click" \/ type = lit "double_click"
                     \/ type = lit "right_click").
    { unfold isPointerType in Hptr.
      apply orb_prop in Hptr as [Hptr|Hptr];
        [apply orb_prop in Hptr as [Hptr|Hptr]|];
        apply streq_eq in Hptr; auto. }
    clear Hptr.
    destruct description as [|d description'];
      destruct Hcases as [-> | [-> | ->]];
      (split; [|split]); vm_compute; reflexivity.
  - intros ->.
    destruct description as [|d description'];
      split; vm_compute; reflexivity.
Qed.

Lemma recorded_pointer_step_statement_witness :
  let step :=
    createStepFromVNC
      (ofRecorded
         (Recording.pointerStep (lit "double_click") (Num.ofZ 120)
            (Num.ofZ 57) (lit "Double click") 5000 (Num.ofZ 2))) in
  isValid (validateStep step) = true
  /\ step_delay_before step = Some (Num.ofZ 2)
  /\ stepToCode (B := Examples.asciiBuiltins) step
     = Some (lit "vnc." ++ lit "double_click" ++ lit "("
               ++ numberToString (Builtins := Examples.asciiBuiltins)
                    (Num.ofZ 120)
               ++ lit ", "
               ++ numberToString (Builtins := Examples.asciiBuiltins)
                    (Num.ofZ 57)
               ++ lit ")").
Proof.
  exact (proj1 (recorded_pointer_step_statement
                  (B := Examples.asciiBuiltins) (lit "double_click")
                  (Num.ofZ 120) (Num.ofZ 57) (Num.ofZ 0) (Num.ofZ 0)
                  (lit "Double click") 5000 (Num.ofZ 2)) eq_refl).
Defined.

(** X11.  A step made from recorded data of type wait_for_image or
    wait_for_text is always rejected by the validation: the function that
    makes the step copies neither a template nor, for these types, the
    text, so that the step keeps the empty defaults. *)
Theorem recorded_assertion_step_is_invalid (vnc : VncData) :
  (vnc_type vnc = lit "wait_for_image" ->
   validateStep (createStepFromVNC vnc)
   = {| isValid := false; errors := [lit "Template image required"] |})
  /\ (vnc_type vnc = lit "wait_for_text" ->
      validateStep (createStepFromVNC vnc)
      = {| isValid := false;
           errors := [lit "Text to wait for is required"] |}).
Proof.
  split; intros Htype; unfold createStepFromVNC; rewrite Htype;
    destruct (optTruthy (vnc_description vnc));
    destruct (vnc_delay_before vnc); reflexivity.
Qed.

Lemma recorded_assertion_step_is_invalid_witness :
  isValid
    (validateStep
       (createStepFromVNC
          {| vnc_type := lit "wait_for_text";
             vnc_x := None; vnc_y := None; vnc_end_x := None;
             vnc_end_y := None; vnc_text := Some (lit "Login");
             vnc_keys := None; vnc_duration := None;
             vnc_timeout := Some (Num.ofZ 30);
             vnc_description := Some (lit "Wait for text");
             vnc_delay_before := None |}))
  = false.
Proof.
  exact (f_equal isValid
           (proj2 (recorded_assertion_step_is_invalid
                     {| vnc_type := lit "wait_for_text";
                        vnc_x := None; vnc_y := None; vnc_end_x := None;
                        vnc_end_y := None; vnc_text := Some (lit "Login");
                        vnc_keys := None; vnc_duration := None;
                        vnc_timeout := Some (Num.ofZ 30);
                        vnc_description := Some (lit "Wait for text");
                        vnc_delay_before := None |}) eq_refl)).
Defined.

(* ================================================================== *)
(** * Further properties of the coordinate mapping *)
(* ================================================================== *)

Section ClampFacts.

Lemma SFcompare_refl (b : number) :
  Num.isNaN b = false -> SFcompare b b = Some Eq.
Proof.
  destruct b as [s|s| |s m e]; try discriminate; intros _.
  - now destruct s.
  - now destruct s.
  - unfold SFcompare. rewrite Z.compare_refl, Pos.compare_cont_refl.
    now destruct s.
Qed.

Lemma SFcompare_not_nan_r (a b : number) (c : comparison) :
  SFcompare a b = Some c -> Num.isNaN b = false.
Proof.
  destruct b; try reflexivity. destruct a as [| | |]; discriminate.
Qed.

(** The clamp [max(0, min(r, b))]: it is NaN or at least 0, and it is at
    most [b] when [b] is at least 0. *)
Lemma clamp_bounds (r b : number) :
  let v := Num.max (Num.ofZ 0) (Num.min r b) in
  Num.isNaN v = true
  \/ (Num.le (Num.ofZ 0) v = true
      /\ (Num.le (Num.ofZ 0) b = true -> Num.le v b = true)).
Proof.
  cbv zeta.
  assert (Hmin : Num.min r b = Num.NaN
                 \/ (Num.min r b = r /\ Num.le r b = true)
                 \/ Num.min r b = b).
  { unfold Num.min, Num.le, SFleb.
    destruct (SFcompare r b) as [[]|]; auto.
    destruct r as [[]| | |]; auto. }
  set (m := Num.min r b) in *. clearbody m.
  unfold Num.max.
  destruct (SFcompare (Num.ofZ 0) m) as [[]|] eqn:Hcmp.
  - right. split; [reflexivity|]. auto.
  - right. split; [unfold Num.le, SFleb; now rewrite Hcmp|].
    intros Hb. destruct Hmin as [->|[[-> Hle]| ->]].
    + discriminate.
    + exact Hle.
    + unfold Num.le, SFleb.
      rewrite SFcompare_refl; [reflexivity|].
      eapply SFcompare_not_nan_r; exact Hcmp.
  - right. split; [reflexivity|]. auto.
  - now left.
Qed.

End ClampFacts.

(** X12.  Each coordinate returned by [scaleCoordinates] is NaN or at
    least 0; when the remote dimension minus one is at least 0, the
    coordinate is NaN or lies between 0 and the remote dimension minus one:
    a recorded point is never outside the remote screen. *)
Theorem scaleCoordinates_clamped
        (clientX clientY : number) (rect : Rect)
        (remoteWidth remoteHeight : number) :
  let remote :=
    scaleCoordinates clientX clientY rect remoteWidth remoteHeight in
  (Num.isNaN (px remote) = true
   \/ (Num.le (Num.ofZ 0) (px remote) = true
       /\ (Num.le (Num.ofZ 0) (Num.sub remoteWidth (Num.ofZ 1)) = true ->
           Num.le (px remote) (Num.sub remoteWidth (Num.ofZ 1)) = true)))
  /\ (Num.isNaN (py remote) = true
      \/ (Num.le (Num.ofZ 0) (py remote) = true
          /\ (Num.le (Num.ofZ 0) (Num.sub remoteHeight (Num.ofZ 1)) = true ->
              Num.le (py remote) (Num.sub remoteHeight (Num.ofZ 1)) = true))).
Proof.
  cbv zeta. unfold scaleCoordinates. cbn [px py].
  split; apply clamp_bounds.
Qed.

(** X13.  When the canvas is displayed at the size of the remote screen,
    the conversions without clamping are the identity on integral values:
    [scaleToCanvas] returns the point it is given, [scaleRegionToCanvas]
    and [scaleRegionToRemote] return the region they are given. *)
Theorem unscaled_conversions_identity
        (rect : Rect) (x y : number) (region : Region) :
  Num.isPositiveFinite (width rect) = true ->
  Num.isPositiveFinite (height rect) = true ->
  (integral x = true -> integral y = true ->
   scaleToCanvas x y rect (width rect) (height rect)
   = {| px := x; py := y |})
  /\ (integral (rx region) = true -> integral (ry region) = true ->
      integral (rwidth region) = true -> integral (rheight region) = true ->
      scaleRegionToCanvas region rect (width rect) (height rect) = region
      /\ scaleRegionToRemote region rect (width rect) (height rect) = region).
Proof.
  intros Hw Hh.
  destruct rect as [l t w h]. cbn [width height] in *.
  destruct w as [| | |[] mw ew]; try discriminate.
  destruct h as [| | |[] mh eh]; try discriminate.
  assert (Hid : forall (d v : number),
             (exists m e, d = S754_finite false m e) ->
             integral v = true ->
             Num.round (Num.mul v (Num.div d d)) = v).
  { intros d v (m & e & ->) Hv. unfold integral in Hv.
    apply andb_prop in Hv as [Hvalid Hint].
    now rewrite div_self, mul_one, round_integer. }
  split.
  - intros Hx Hy. unfold scaleToCanvas. cbn [width height].
    rewrite !Hid by eauto. reflexivity.
  - intros Hx Hy Hrw Hrh.
    unfold scaleRegionToCanvas, scaleRegionToRemote. cbn [width height].
    rewrite !Hid by eauto. destruct region; split; reflexivity.
Qed.

Lemma unscaled_conversions_identity_witness :
  scaleToCanvas (Num.ofZ 120) (Num.ofZ (-5)) (canvasAtOrigin 1024 768)
                (Num.ofZ 1024) (Num.ofZ 768)
  = {| px := Num.ofZ 120; py := Num.ofZ (-5) |}.
Proof.
  apply (proj1 (unscaled_conversions_identity
                  (canvasAtOrigin 1024 768) (Num.ofZ 120) (Num.ofZ (-5))
                  {| rx := Num.ofZ 0; ry := Num.ofZ 0;
                     rwidth := Num.ofZ 0; rheight := Num.ofZ 0 |}
                  eq_refl eq_refl));
    vm_compute; reflexivity.
Defined.

Lemma scaleCoordinates_clamped_witness :
  let remote :=
    scaleCoordinates (Num.ofZ 5000) (Num.ofZ 67) (canvasAtOrigin 1024 768)
                     (Num.ofZ 1024) (Num.ofZ 768) in
  Num.isNaN (px remote) = true
  \/ (Num.le (Num.ofZ 0) (px remote) = true
      /\ Num.le (px remote) (Num.sub (Num.ofZ 1024) (Num.ofZ 1)) = true).
Proof.
  destruct (proj1 (scaleCoordinates_clamped
                     (Num.ofZ 5000) (Num.ofZ 67) (canvasAtOrigin 1024 768)
                     (Num.ofZ 1024) (Num.ofZ 768))) as [H|[H0 H1]].
  - left. exact H.
  - right. split; [exact H0|]. apply H1. vm_compute. reflexivity.
Defined.

(* ================================================================== *)
(** * The bracket check of the validator *)
(* ================================================================== *)

Section BracketFacts.

Context {B : Builtins}.

Lemma bracket_classes (o : codeunit) :
  isOpening o = true ->
  isQuote (closingOf o) = false /\ isOpening (closingOf o) = false
  /\ isClosing (closingOf o) = true /\ openingOf (closingOf o) = o.
Proof.
  intros H.
  assert (Hcases : (o = 40 \/ o = 91 \/ o = 123)%N).
  { unfold isOpening in H.
    apply orb_prop in H as [H|H]; [apply orb_prop in H as [H|H]|];
      apply N.eqb_eq in H; auto. }
  destruct Hcases as [-> | [-> | ->]]; repeat split.
Qed.

Lemma closing_classes (c : codeunit) :
  isClosing c = true ->
  isOpening (openingOf c) = true /\ closingOf (openingOf c) = c.
Proof.
  intros H.
  assert (Hcases : (c = 41 \/ c = 93 \/ c = 125)%N).
  { unfold isClosing in H.
    apply orb_prop in H as [H|H]; [apply orb_prop in H as [H|H]|];
      apply N.eqb_eq in H; auto. }
  destruct Hcases as [-> | [-> | ->]]; repeat split.
Qed.

Lemma noQuote_app (a b : jsstring) :
  noQuote (a ++ b) = noQuote a && noQuote b.
Proof. apply forallb_app. Qed.

(** Scanning a balanced text leaves the stack and the errors as they
    were. *)
Lemma scanBrackets_balanced (code w : jsstring) :
  Balanced w -> noQuote w = true ->
  forall (rest : jsstring) (i : nat) (stack : list Open)
         (errors : list jsstring),
    scanBrackets code (w ++ rest) i InCode stack errors
    = scanBrackets code rest (i + length w) InCode stack errors.
Proof.
  intros Hbal.
  induction Hbal
    as [|c w Hopen Hclose Hbal IH|o w1 w2 Hopen Hbal1 IH1 Hbal2 IH2];
    intros Hq rest i stack errors.
  - cbn [app length]. now rewrite Nat.add_0_r.
  - cbn [noQuote forallb] in Hq. apply andb_prop in Hq as [Hc Hq].
    apply negb_true_iff in Hc.
    cbn [app scanBrackets]. rewrite Hc, Hopen, Hclose.
    rewrite IH by assumption. cbn [length]. f_equal. lia.
  - change (o :: w1 ++ closingOf o :: w2) with ([o] ++ w1 ++ closingOf o :: w2)
      in Hq.
    rewrite !noQuote_app in Hq. cbn [noQuote forallb] in Hq.
    apply andb_prop in Hq as [Ho Hq]. apply andb_prop in Hq as [Hq1 Hq].
    apply andb_prop in Hq as [_ Hq2].
    rewrite andb_true_r in Ho. apply negb_true_iff in Ho.
    destruct (bracket_classes o Hopen) as (Hcq & Hco & Hcc & Hback).
    cbn [app scanBrackets]. rewrite Ho, Hopen.
    rewrite <- app_assoc. rewrite IH1 by assumption.
    cbn [app scanBrackets]. rewrite Hcq, Hco, Hcc. cbn [open_char].
    rewrite Hback, N.eqb_refl.
    rewrite IH2 by assumption.
    cbn [length]. rewrite length_app. cbn [length]. f_equal. lia.
Qed.

Lemma scanBrackets_errors_grow (code rest : jsstring) :
  forall (i : nat) (mode : Mode) (stack : list Open) (errors : list jsstring),
  exists extra,
    snd (scanBrackets code rest i mode stack errors) = errors ++ extra.
Proof.
  induction rest as [|char rest IH]; intros i mode stack errors.
  - exists []. cbn. now rewrite app_nil_r.
  - cbn [scanBrackets].
    destruct mode as [|quote|quote].
    + destruct (isQuote char); [apply IH|].
      destruct (isOpening char); [apply IH|].
      destruct (isClosing char); [|apply IH].
      destruct stack as [|top stack'].
      * destruct (IH (S i) InCode []
                    (errors ++ [unexpectedClosing char (getLineNumber code i)]))
          as (extra & ->).
        eexists. rewrite <- app_assoc. reflexivity.
      * destruct (N.eqb (open_char top) (openingOf char)); [apply IH|].
        destruct (IH (S i) InCode (top :: stack')
                    (errors ++ [unexpectedClosing char (getLineNumber code i)]))
          as (extra & ->).
        eexists. rewrite <- app_assoc. reflexivity.
    + destruct (N.eqb char quote); [apply IH|].
      destruct (N.eqb char 92); apply IH.
    + apply IH.
Qed.

Lemma Closes_other (c : codeunit) (stack : list codeunit) (w : jsstring) :
  isOpening c = false -> isClosing c = false ->
  Closes stack w -> Closes stack (c :: w).
Proof.
  intros Ho Hc H. destruct H as [b Hb|o stack b w Hb Hw].
  - constructor. now constructor.
  - change (c :: b ++ closingOf o :: w) with ((c :: b) ++ closingOf o :: w).
    constructor; [now constructor | assumption].
Qed.

Lemma Closes_open (o : codeunit) (stack : list codeunit) (w : jsstring) :
  isOpening o = true -> Closes (o :: stack) w -> Closes stack (o :: w).
Proof.
  intros Ho H. inversion H as [|o' stack' b w' Hb Hw]; subst.
  destruct Hw as [b0 Hb0|o2 stack2 b2 w2 Hb2 Hw2].
  - constructor. now constructor.
  - change (o :: b ++ closingOf o :: b2 ++ closingOf o2 :: w2)
      with (o :: b ++ (closingOf o :: b2) ++ closingOf o2 :: w2).
    rewrite app_assoc.
    change (o :: (b ++ closingOf o :: b2) ++ closingOf o2 :: w2)
      with ((o :: b ++ closingOf o :: b2) ++ closingOf o2 :: w2).
    constructor; [now constructor | assumption].
Qed.

(** A scan that ends without error and with an empty stack went through a
    text that closes the brackets open at its start. *)
Lemma scanBrackets_closes (code w : jsstring) :
  noQuote w = true ->
  forall (i : nat) (stack : list Open) (errors : list jsstring),
    scanBrackets code w i InCode stack errors = ([], []) ->
    Closes (map open_char stack) w.
Proof.
  induction w as [|c w IH]; intros Hq i stack errors Hscan.
  - cbn in Hscan. inversion Hscan; subst. constructor. constructor.
  - cbn [noQuote forallb] in Hq. apply andb_prop in Hq as [Hc Hq].
    apply negb_true_iff in Hc.
    cbn [scanBrackets] in Hscan. rewrite Hc in Hscan.
    destruct (isOpening c) eqn:Hopen.
    + apply Closes_open; [assumption|].
      apply (IH Hq _ _ _ Hscan).
    + destruct (isClosing c) eqn:Hclose.
      * destruct stack as [|top stack'].
        -- pose proof (scanBrackets_errors_grow code w (S i) InCode []
                         (errors ++ [unexpectedClosing c (getLineNumber code i)]))
             as (extra & Hextra).
           rewrite Hscan in Hextra. cbn [snd] in Hextra.
           symmetry in Hextra. apply app_eq_nil in Hextra as [Hextra _].
           apply app_eq_nil in Hextra as [_ Hextra]. discriminate.
        -- destruct (N.eqb_spec (open_char top) (openingOf c)) as [Htop|Htop].
           ++ cbn [map]. rewrite Htop.
              destruct (closing_classes c Hclose) as [_ Hback].
              rewrite <- Hback at 2.
              apply (Closes_cons (openingOf c) (map open_char stack') [] w);
                [constructor|].
              apply (IH Hq _ _ _ Hscan).
           ++ pose proof (scanBrackets_errors_grow code w (S i) InCode
                            (top :: stack')
                            (errors
                               ++ [unexpectedClosing c (getLineNumber code i)]))
                as (extra & Hextra).
              rewrite Hscan in Hextra. cbn [snd] in Hextra.
              symmetry in Hextra. apply app_eq_nil in Hextra as [Hextra _].
              apply app_eq_nil in Hextra as [_ Hextra]. discriminate.
      * apply Closes_other; [assumption|assumption|].
        apply (IH Hq _ _ _ Hscan).
Qed.

End BracketFacts.

(** X14.  A text that is empty or blank is rejected with the one error
    that the code is empty and no warning.  A text that is not blank and
    holds no quote character is accepted exactly when its brackets are
    balanced: every round, square or curly bracket has its partner of the
    same kind, properly nested. *)
Theorem validatePythonSyntax_balanced {B : Builtins} (code : jsstring) :
  (trim code = [] ->
   validatePythonSyntax code
   = {| CodeValidation.isValid := false;
        CodeValidation.errors := [lit "Code is empty"];
        warnings := [] |})
  /\ (trim code <> [] -> noQuote code = true ->
      (CodeValidation.isValid (validatePythonSyntax code) = true
       <-> Balanced code)).
Proof.
  unfold validatePythonSyntax. split.
  - intros ->. cbn [length Nat.eqb]. now rewrite orb_true_r.
  - intros Htrim Hq.
    destruct code as [|c code']; [now elim Htrim|].
    set (code := c :: code') in *.
    replace (truthy code) with true by reflexivity. cbn [negb orb].
    destruct (trim code) as [|t l] eqn:Ht; [congruence|].
    cbn [length Nat.eqb].
    destruct (scanBrackets code code 0 InCode [] []) as [stack errors]
      eqn:Hscan.
    cbn [CodeValidation.isValid].
    split.
    + intros Hvalid. apply Nat.eqb_eq in Hvalid.
      apply length_zero_iff_nil in Hvalid.
      apply app_eq_nil in Hvalid as [-> Hstack].
      apply map_eq_nil in Hstack.
      assert (stack = []) as ->.
      { destruct stack as [|x stack]; [reflexivity|].
        apply (f_equal (@length _)) in Hstack.
        rewrite length_rev in Hstack. discriminate. }
      pose proof (scanBrackets_closes code code Hq 0 [] [] Hscan) as H.
      cbn [map] in H. now inversion H.
    + intros Hbal.
      pose proof (scanBrackets_balanced code code Hbal Hq [] 0 [] []) as H.
      rewrite app_nil_r, Hscan in H. cbn [scanBrackets] in H.
      inversion H; subst. reflexivity.
Qed.

Lemma validatePythonSyntax_balanced_witness :
  CodeValidation.isValid
    (validatePythonSyntax (B := Examples.asciiBuiltins)
       (lit "f(a[1], {x})")) = true
  <-> Balanced (lit "f(a[1], {x})").
Proof.
  apply (proj2 (validatePythonSyntax_balanced (B := Examples.asciiBuiltins)
                  (lit "f(a[1], {x})"))).
  - vm_compute. discriminate.
  - reflexivity.
Defined.

(* ================================================================== *)
(** * The formatter *)
(* ================================================================== *)

Section TrimFacts.

Lemma trimStart_head (s : jsstring) :
  trimStart s = []
  \/ exists c u, trimStart s = c :: u /\ isWhiteSpace c = false.
Proof.
  induction s as [|c s IH]; [now left|].
  cbn [trimStart]. destruct (isWhiteSpace c) eqn:Hc; [exact IH|].
  right. now exists c, s.
Qed.

Lemma trimStart_keeps (c : codeunit) (u : jsstring) :
  isWhiteSpace c = false -> trimStart (c :: u) = c :: u.
Proof. intros H. cbn [trimStart]. now rewrite H. Qed.

Lemma trimStart_idem (s : jsstring) : trimStart (trimStart s) = trimStart s.
Proof.
  destruct (trimStart_head s) as [->|(c & u & -> & Hc)]; [reflexivity|].
  now apply trimStart_keeps.
Qed.

Lemma trimStart_snoc (a : jsstring) (c : codeunit) :
  isWhiteSpace c = false -> trimStart (a ++ [c]) = trimStart a ++ [c].
Proof.
  intros Hc. induction a as [|x a IH]; cbn [app trimStart].
  - now rewrite Hc.
  - destruct (isWhiteSpace x); [exact IH | reflexivity].
Qed.

Lemma trimEnd_cons (c : codeunit) (u : jsstring) :
  isWhiteSpace c = false -> trimEnd (c :: u) = c :: trimEnd u.
Proof.
  intros Hc. unfold trimEnd. cbn [rev].
  rewrite trimStart_snoc by assumption.
  rewrite rev_app_distr. reflexivity.
Qed.

Lemma trimEnd_idem (s : jsstring) : trimEnd (trimEnd s) = trimEnd s.
Proof. unfold trimEnd. now rewrite rev_involutive, trimStart_idem. Qed.

Lemma trim_head (s : jsstring) :
  trim s = [] \/ exists c u, trim s = c :: u /\ isWhiteSpace c = false.
Proof.
  unfold trim.
  destruct (trimStart_head s) as [->|(c & u & -> & Hc)]; [now left|].
  right. exists c, (trimEnd u). split; [now apply trimEnd_cons | exact Hc].
Qed.

Lemma trimStart_indentation (n : nat) (s : jsstring) :
  trimStart (indentation n ++ s) = trimStart s.
Proof.
  unfold indentation.
  induction n as [|n IH]; [reflexivity|].
  cbn [repeat concat]. rewrite <- app_assoc. exact IH.
Qed.

(** What the formatter writes for a line that is not blank has the same
    content as the line. *)
Lemma trim_indented (n : nat) (line : jsstring) :
  trim (indentation n ++ trim line) = trim line.
Proof.
  unfold trim at 1. rewrite trimStart_indentation.
  destruct (trim_head line) as [->|(c & u & Heq & Hc)]; [reflexivity|].
  rewrite Heq, trimStart_keeps by assumption. rewrite <- Heq.
  unfold trim. apply trimEnd_idem.
Qed.

Lemma trimStart_In (x : codeunit) (s : jsstring) :
  In x (trimStart s) -> In x s.
Proof.
  induction s as [|c s IH]; [easy|].
  cbn [trimStart]. destruct (isWhiteSpace c); [|easy].
  intros H. right. now apply IH.
Qed.

Lemma trim_In (x : codeunit) (s : jsstring) : In x (trim s) -> In x s.
Proof.
  unfold trim, trimEnd. intros H.
  apply in_rev in H. apply trimStart_In in H. apply in_rev in H.
  now apply trimStart_In.
Qed.

Lemma indentation_In (x : codeunit) (n : nat) :
  In x (indentation n) -> x = SPACE.
Proof.
  unfold indentation. induction n as [|n IH]; [easy|].
  cbn [repeat concat]. intros H. apply in_app_or in H as [H|H].
  - cbn in H. unfold SPACE. intuition congruence.
  - now apply IH.
Qed.

Lemma formatLines_no_LF (lines : list jsstring) :
  Forall (fun l => ~ In LF l) lines ->
  forall n, Forall (fun l => ~ In LF l) (formatLines lines n).
Proof.
  induction 1 as [|line lines Hline Hlines IH]; intros n; [constructor|].
  cbn [formatLines]. cbv zeta.
  destruct (negb (truthy (trim line)) || startsWith (lit "#") (trim line)).
  - constructor; [assumption | apply IH].
  - constructor; [|apply IH].
    intros Hin. apply in_app_or in Hin as [Hin|Hin].
    + apply indentation_In in Hin. discriminate.
    + apply Hline. now apply trim_In.
Qed.

Lemma formatLines_length (lines : list jsstring) :
  forall n, length (formatLines lines n) = length lines.
Proof.
  induction lines as [|line lines IH]; intros n; [reflexivity|].
  cbn [formatLines]. cbv zeta.
  destruct (negb (truthy (trim line)) || startsWith (lit "#") (trim line));
    cbn [length]; now rewrite IH.
Qed.

Lemma formatLines_trim (lines : list jsstring) :
  forall n, map trim (formatLines lines n) = map trim lines.
Proof.
  induction lines as [|line lines IH]; intros n; [reflexivity|].
  cbn [formatLines]. cbv zeta.
  destruct (negb (truthy (trim line)) || startsWith (lit "#") (trim line));
    cbn [map]; rewrite IH; [reflexivity|].
  now rewrite trim_indented.
Qed.

Lemma formatLines_idem (lines : list jsstring) :
  forall n, formatLines (formatLines lines n) n = formatLines lines n.
Proof.
  induction lines as [|line lines IH]; intros n; [reflexivity|].
  cbn [formatLines]. cbv zeta.
  destruct (negb (truthy (trim line)) || startsWith (lit "#") (trim line))
    eqn:Hskip.
  - cbn [formatLines]. cbv zeta. rewrite Hskip, IH. reflexivity.
  - cbn [formatLines]. cbv zeta. rewrite trim_indented, Hskip.
    now rewrite IH.
Qed.

End TrimFacts.

(** X15.  Formatting is idempotent: formatting a formatted text changes
    nothing. *)
Theorem formatPythonCode_idempotent (code : jsstring) :
  formatPythonCode (formatPythonCode code) = formatPythonCode code.
Proof.
  unfold formatPythonCode.
  rewrite split_join.
  - now rewrite formatLines_idem.
  - intros H. apply (f_equal (@length _)) in H.
    rewrite formatLines_length in H.
    pose proof (split_length_pos LF code). cbn [length] in H. lia.
  - apply formatLines_no_LF, split_no_sep.
Qed.

(** X16.  Formatting keeps the lines of a text and changes only the white
    space around them: the formatted text has as many lines as the text,
    line by line the same content once the surrounding white space is
    removed, and a line that is blank or a comment is kept as it is. *)
Theorem formatPythonCode_preserves_lines (code : jsstring) :
  let formatted := split LF (formatPythonCode code) in
  length formatted = length (split LF code)
  /\ map trim formatted = map trim (split LF code)
  /\ (forall (i : nat) (line : jsstring),
         nth_error (split LF code) i = Some line ->
         trim line = [] \/ startsWith (lit "#") (trim line) = true ->
         nth_error formatted i = Some line).
Proof.
  cbv zeta. unfold formatPythonCode.
  rewrite split_join.
  - split; [apply formatLines_length|]. split; [apply formatLines_trim|].
    generalize (split LF code) as lines. generalize 0 as n.
    intros n lines. revert n.
    induction lines as [|l lines IH]; intros n i line Hnth Hskip.
    + destruct i; discriminate.
    + cbn [formatLines]. cbv zeta.
      destruct i as [|i].
      * cbn [nth_error] in Hnth. inversion Hnth; subst l.
        assert (negb (truthy (trim line))
                || startsWith (lit "#") (trim line) = true) as ->.
        { destruct Hskip as [->| ->]; [reflexivity | apply orb_true_r]. }
        reflexivity.
      * cbn [nth_error] in Hnth.
        destruct (negb (truthy (trim l)) || startsWith (lit "#") (trim l));
          cbn [nth_error]; now apply IH.
  - intros H. apply (f_equal (@length _)) in H.
    rewrite formatLines_length in H.
    pose proof (split_length_pos LF code). cbn [length] in H. lia.
  - apply formatLines_no_LF, split_no_sep.
Qed.

Lemma formatPythonCode_preserves_lines_witness :
  nth_error (split LF (formatPythonCode (lit "if x:
  # why
y = 1"))) 1 = Some (lit "  # why").
Proof.
  apply (proj2 (proj2 (formatPythonCode_preserves_lines (lit "if x:
  # why
y = 1"))) 1 (lit "  # why") eq_refl).
  right. reflexivity.
Defined.

(* ================================================================== *)
(** * Keys, wheel ticks and the click timer *)
(* ================================================================== *)

Section InputFacts.

Context {B : Builtins}.

(** The handlers of the keys and of the wheel leave the drag data and
    the click timer as they are. *)
Lemma handleKeyDown_keeps_timer (cfg : Config) (env : Env) (e : KeyEvent)
      (st : State) :
  clickTimeoutRef (ko_state (handleKeyDown cfg env e st))
  = clickTimeoutRef st
  /\ dragDataRef (ko_state (handleKeyDown cfg env e st)) = dragDataRef st.
Proof.
  unfold handleKeyDown. cbv zeta.
  repeat match goal with
         | |- context [if ?c then _ else _] => destruct c
         end; split; reflexivity.
Qed.

Lemma handleWheelCapture_keeps_timer (cfg : Config) (env : Env)
      (e : WheelEvent) (st : State) :
  clickTimeoutRef (fst (handleWheelCapture cfg env e st))
  = clickTimeoutRef st
  /\ dragDataRef (fst (handleWheelCapture cfg env e st)) = dragDataRef st.
Proof.
  unfold handleWheelCapture.
  destruct (negb (isRecording cfg) || isPaused cfg || isVerifyMode cfg
            || isVerifyTextMode cfg); [split; reflexivity|].
  destruct (canvas env); split; reflexivity.
Qed.

Lemma stepInput_keeps_timer (cfg : Config) (env : Env) (inp : Input)
      (st : State) :
  isWheelOrKey inp = true ->
  clickTimeoutRef (fst (stepInput cfg env inp st)) = clickTimeoutRef st.
Proof.
  destruct inp as [[| | |e|]|e]; try discriminate; intros _;
    cbn [stepInput step fst].
  - apply handleWheelCapture_keeps_timer.
  - apply handleKeyDown_keeps_timer.
Qed.

(** When the timer fires after wheel ticks and keys that came in while a
    click was buffered, its callback runs after the handlers of all of
    them. *)
Lemma runInputs_then_timer (inputs : list (Env * Input)) (envT : Env)
      (t : Timeout) :
  forallb (fun p => isWheelOrKey (snd p)) inputs = true ->
  (due t <= now envT)%Z ->
  forall (cfg : Config) (st : State),
    clickTimeoutRef st = Some t ->
    runInputs cfg (inputs ++ [(envT, Pointer TimerFire)]) st
    = (setTimer None (fst (runInputs cfg inputs st)),
       snd (runInputs cfg inputs st)
         ++ commitAction (timeoutProps t) (timeoutStep t)).
Proof.
  intros Hall Hdue.
  induction inputs as [|[env inp] inputs IH]; intros cfg st Hpending.
  - cbn [app runInputs stepInput step fst snd]. unfold timerFire.
    rewrite Hpending. destruct (Z.leb_spec (due t) (now envT)); [|lia].
    now rewrite app_nil_r.
  - cbn [forallb snd] in Hall. apply andb_prop in Hall as [Hinp Hall].
    cbn [app runInputs].
    pose proof (stepInput_keeps_timer cfg env inp st Hinp) as Hkeep.
    destruct (stepInput cfg env inp st) as [st1 calls1]. cbn [fst] in Hkeep.
    rewrite (IH Hall (propsAfter cfg env inp st) st1)
      by (now rewrite Hkeep).
    destruct (runInputs (propsAfter cfg env inp st) inputs st1)
      as [st2 calls2].
    cbn [fst snd]. now rewrite app_assoc.
Qed.

(** The conditions under which the handlers hand over nothing do not
    depend on the verify modes. *)
Lemma propsAfter_props (cfg : Config) (env : Env) (inp : Input)
      (st : State) :
  isRecording (propsAfter cfg env inp st) = isRecording cfg
  /\ isPaused (propsAfter cfg env inp st) = isPaused cfg
  /\ hasOnInteraction (propsAfter cfg env inp st) = hasOnInteraction cfg.
Proof.
  destruct inp as [ev|e]; cbn [propsAfter]; [repeat split|].
  destruct (ko_leftVerify (handleKeyDown cfg env e st)); repeat split.
Qed.

Lemma stepInput_silent (cfg : Config) (env : Env) (inp : Input)
      (st : State) :
  isRecording cfg && isPaused cfg = true
  \/ (isRecording cfg = false /\ hasOnInteraction cfg = false) ->
  dragDataRef st = None -> clickTimeoutRef st = None ->
  selectionStart st = None ->
  snd (stepInput cfg env inp st) = []
  /\ dragDataRef (fst (stepInput cfg env inp st)) = None
  /\ clickTimeoutRef (fst (stepInput cfg env inp st)) = None
  /\ selectionStart (fst (stepInput cfg env inp st)) = None
  /\ lastActionTimeRef (fst (stepInput cfg env inp st))
     = lastActionTimeRef st.
Proof.
  intros Hcfg Hdrag Htimer Hsel.
  assert (Hdown : negb (isRecording cfg) && negb (hasOnInteraction cfg) = true
                  \/ isRecording cfg && isPaused cfg = true).
  { destruct Hcfg as [H|[H1 H2]]; [now right|left]. now rewrite H1, H2. }
  assert (Hwheel : negb (isRecording cfg) || isPaused cfg = true).
  { destruct Hcfg as [H|[H1 H2]].
    - apply andb_prop in H as [_ ->]. apply orb_true_r.
    - now rewrite H1. }
  destruct inp as [[e|e|e|e|]|e]; cbn [stepInput step].
  - unfold handleMouseDown.
    destruct Hdown as [-> | H2]; [auto|].
    destruct (negb (isRecording cfg) && negb (hasOnInteraction cfg)); [auto|].
    rewrite H2. auto.
  - unfold handleMouseMoveCapture. rewrite Hdrag. auto.
  - unfold handleMouseUpCapture. rewrite Hdrag. auto.
  - unfold handleWheelCapture. rewrite Hwheel. cbn [orb]. auto.
  - unfold timerFire. rewrite Htimer. auto.
  - unfold handleKeyDown. cbv zeta.
    destruct (keyRepeat e); [auto|].
    destruct (streq (key e) (lit "Escape")
              && (keyDown_isVerifyMode cfg || keyDown_isVerifyTextMode cfg));
      [auto|].
    destruct Hdown as [-> | H2]; [auto|].
    destruct (negb (isRecording cfg) && negb (hasOnInteraction cfg)); [auto|].
    rewrite H2. auto.
Qed.

End InputFacts.


(** X17.  While the recording is paused, or while nothing is recorded and
    no interaction callback is set, the handlers of the canvas wrapper, of
    the click timer and of the keys are silent.  Starting with no drag
    under way, no buffered click and no selection being drawn, no sequence
    of pointer events on the canvas wrapper, wheel ticks, timer callbacks
    and keys going down makes them call a callback; the time of the last
    action is left as it was, and no drag, no timer and no selection is
    started, so that the window-level listeners of a selection are never
    installed. *)
Theorem paused_handlers_are_silent
        {B : Builtins} (cfg : Config) (trace : list (Env * Input))
        (st : State) :
  isRecording cfg && isPaused cfg = true
  \/ (isRecording cfg = false /\ hasOnInteraction cfg = false) ->
  dragDataRef st = None -> clickTimeoutRef st = None ->
  selectionStart st = None ->
  snd (runInputs cfg trace st) = []
  /\ lastActionTimeRef (fst (runInputs cfg trace st)) = lastActionTimeRef st
  /\ dragDataRef (fst (runInputs cfg trace st)) = None
  /\ clickTimeoutRef (fst (runInputs cfg trace st)) = None
  /\ selectionStart (fst (runInputs cfg trace st)) = None.
Proof.
  revert cfg st.
  induction trace as [|[env inp] trace IH]; intros cfg st Hcfg Hdrag Htimer Hsel.
  - repeat split; assumption.
  - cbn [runInputs].
    destruct (stepInput_silent cfg env inp st Hcfg Hdrag Htimer Hsel)
      as (Hcalls & Hdrag1 & Htimer1 & Hsel1 & Hlast1).
    destruct (propsAfter_props cfg env inp st) as (Hrec' & Hpaused' & Hint').
    assert (Hcfg' : isRecording (propsAfter cfg env inp st)
                    && isPaused (propsAfter cfg env inp st) = true
                    \/ (isRecording (propsAfter cfg env inp st) = false
                        /\ hasOnInteraction (propsAfter cfg env inp st)
                           = false))
      by (now rewrite Hrec', Hpaused', Hint').
    destruct (stepInput cfg env inp st) as [st1 calls1]. cbn [fst snd] in *.
    destruct (IH (propsAfter cfg env inp st) st1 Hcfg' Hdrag1 Htimer1 Hsel1)
      as (Hcalls2 & Hlast2 & Hrest).
    destruct (runInputs (propsAfter cfg env inp st) trace st1)
      as [st2 calls2].
    cbn [fst snd] in *.
    subst. split; [reflexivity|]. split; [congruence | exact Hrest].
Qed.

(** X18.  Neither a wheel tick nor a key going down cancels or flushes a
    buffered click: when wheel ticks and keys come in while a click is
    buffered and the timer fires after them, the callback of the timer
    passes the click to [onStep], if the render that buffered it was
    recording and had that callback, and then to [onInteraction], if it had
    that one, and these calls come after the calls made for all these
    inputs, although the click happened before them. *)
Theorem buffered_click_follows_later_inputs
        {B : Builtins} (cfg : Config) (inputs : list (Env * Input))
        (envT : Env) (st : State) (t : Timeout) :
  clickTimeoutRef st = Some t ->
  forallb (fun p => isWheelOrKey (snd p)) inputs = true ->
  (due t <= now envT)%Z ->
  let result := runInputs cfg (inputs ++ [(envT, Pointer TimerFire)]) st in
  snd result
  = snd (runInputs cfg inputs st)
      ++ (if isRecording (timeoutProps t) && hasOnStep (timeoutProps t)
          then [OnStep (timeoutStep t)] else [])
      ++ (if hasOnInteraction (timeoutProps t)
          then [OnInteraction (timeoutStep t)] else [])
  /\ clickTimeoutRef (fst result) = None.
Proof.
  intros Hpending Hinputs Hdue. cbv zeta.
  rewrite (runInputs_then_timer inputs envT t Hinputs Hdue cfg st Hpending).
  cbn [fst snd]. unfold commitAction. split; reflexivity.
Qed.

Lemma paused_handlers_are_silent_witness :
  snd (runInputs (B := Examples.asciiBuiltins) Examples.paused
         [(Examples.atTime 100, Pointer (MouseDown (Examples.mouseAt 10 20 0 1)));
          (Examples.atTime 150, Pointer (MouseUp (Examples.mouseAt 10 20 0 1)));
          (Examples.atTime 200, Pointer (Wheel (Examples.wheelAt 10 20 120)));
          (Examples.atTime 300,
           KeyDown (Examples.keyDown (lit "a") false false false));
          (Examples.atTime 500, Pointer TimerFire)]
         Examples.idle)
  = [].
Proof.
  apply (proj1 (paused_handlers_are_silent (B := Examples.asciiBuiltins)
                  Examples.paused _ Examples.idle
                  (or_introl eq_refl) eq_refl eq_refl eq_refl)).
Defined.

Lemma buffered_click_follows_later_inputs_witness :
  snd (runInputs (B := Examples.asciiBuiltins) Examples.recording
         ([(Examples.atTime 100,
            KeyDown (Examples.keyDown (lit "a") false false false))]
            ++ [(Examples.atTime 250, Pointer TimerFire)])
         Examples.buffered)
  = snd (runInputs (B := Examples.asciiBuiltins) Examples.recording
           [(Examples.atTime 100,
             KeyDown (Examples.keyDown (lit "a") false false false))]
           Examples.buffered)
      ++ [OnStep (Examples.clickAt 10 20 0);
          OnInteraction (Examples.clickAt 10 20 0)].
Proof.
  apply (proj1 (buffered_click_follows_later_inputs
                  (B := Examples.asciiBuiltins) Examples.recording
                  [(Examples.atTime 100,
                    KeyDown (Examples.keyDown (lit "a") false false false))]
                  (Examples.atTime 250) Examples.buffered
                  {| due := 250%Z; timeoutProps := Examples.recording;
                     timeoutStep := Examples.clickAt 10 20 0 |}
                  eq_refl eq_refl ltac:(cbn; lia))).
Defined.

(* ================================================================== *)
(** * From the inputs of the viewer to the live insertion *)
(* ================================================================== *)



Lemma handleVNCInteraction_dropped
      {B : Builtins} (cfg : App.Config) (now : Z) (sd : StepData)
      (st : App.State) :
  sd_type sd = lit "double_click" \/ sd_type sd = lit "drag"
  \/ sd_type sd = lit "scroll" ->
  App.insertions (App.handleVNCInteraction cfg now sd st)
  = App.insertions st
  /\ App.pending (App.handleVNCInteraction cfg now sd st) = App.pending st.
Proof.
  intros Htype. unfold App.handleVNCInteraction.
  destruct (negb (App.isRecording cfg) || App.isPaused cfg
            || negb (App.editorReady cfg)); [split; reflexivity|].
  pose proof (timing_keeps_queue now sd st) as (Hp & _ & Hi).
  destruct (App.timing now sd st) as [codeToInsert st1]. cbn [snd] in *.
  assert (Hdispatch : App.dispatch sd = App.Nothing).
  { unfold App.dispatch. cbv zeta.
    destruct Htype as [-> | [-> | ->]]; reflexivity. }
  rewrite Hdispatch. split; assumption.
Qed.

(** X20.  In a live recording a wheel tick and a completed drag insert
    nothing: every step that the viewer hands over for a wheel tick, or
    for the release that ends a drag, goes through the insertion handler
    without a call on the editor and without starting a capture. *)
Theorem wheel_and_drag_insert_nothing
        {B : Builtins} (cfg : Config) (env : Env) (st : State)
        (appCfg : App.Config) (appNow : Z) (appSt : App.State)
        (sd : StepData) :
  (forall e : WheelEvent,
      In (OnInteraction sd) (snd (handleWheelCapture cfg env e st)) ->
      App.insertions (App.handleVNCInteraction appCfg appNow sd appSt)
      = App.insertions appSt
      /\ App.pending (App.handleVNCInteraction appCfg appNow sd appSt)
         = App.pending appSt)
  /\ (forall (e : MouseEvent) (d : DragData),
         dragDataRef st = Some d -> isDragging d = true ->
         In (OnInteraction sd) (snd (handleMouseUpCapture cfg env e st)) ->
         App.insertions (App.handleVNCInteraction appCfg appNow sd appSt)
         = App.insertions appSt
         /\ App.pending (App.handleVNCInteraction appCfg appNow sd appSt)
            = App.pending appSt).
Proof.
  split.
  - intros e Hin. apply handleVNCInteraction_dropped.
    unfold handleWheelCapture in Hin.
    destruct (negb (isRecording cfg) || isPaused cfg || isVerifyMode cfg
              || isVerifyTextMode cfg); [contradiction|].
    destruct (canvas env) as [rect|]; [|contradiction].
    cbv zeta in Hin. cbn [snd] in Hin. unfold notify in Hin.
    right. right.
    apply in_app_or in Hin as [Hin|Hin];
      [destruct (hasOnStep cfg) | destruct (hasOnInteraction cfg)];
      try contradiction; destruct Hin as [Hin|[]];
      inversion Hin; reflexivity.
  - intros e d Hdrag Hdragging Hin. apply handleVNCInteraction_dropped.
    unfold handleMouseUpCapture in Hin. rewrite Hdrag, Hdragging in Hin.
    destruct (canvas env) as [rect|]; [|contradiction].
    cbv zeta in Hin. cbn [snd] in Hin. unfold notify in Hin.
    right. left.
    apply in_app_or in Hin as [Hin|Hin];
      [destruct (hasOnStep cfg) | destruct (hasOnInteraction cfg)];
      try contradiction; destruct Hin as [Hin|[]];
      inversion Hin; reflexivity.
Qed.

Lemma wheel_and_drag_insert_nothing_witness :
  App.insertions
    (App.handleVNCInteraction (B := Examples.asciiBuiltins)
       Examples.appRecording 5000
       (Recording.withScroll (lit "down") (Num.ofZ 1)
          (Recording.pointerStep (lit "scroll") (Num.ofZ 10) (Num.ofZ 20)
             (lit "Scroll down at (10, 20)") 100
             (Num.div (Num.ofZ 1) (Num.ofZ 10))))
       Examples.appStart)
  = App.insertions Examples.appStart.
Proof.
  apply (proj1 (proj1 (wheel_and_drag_insert_nothing
                         (B := Examples.asciiBuiltins) Examples.recording
                         (Examples.atTime 100) Examples.idle
                         Examples.appRecording 5000 Examples.appStart
                         (Recording.withScroll (lit "down") (Num.ofZ 1)
                            (Recording.pointerStep (lit "scroll")
                               (Num.ofZ 10) (Num.ofZ 20)
                               (lit "Scroll down at (10, 20)") 100
                               (Num.div (Num.ofZ 1) (Num.ofZ 10)))))
                  (Examples.wheelAt 10 20 120)
                  ltac:(right; left; vm_compute; reflexivity))).
Defined.

(* ================================================================== *)
(** * Live insertion after the body of the entry function *)
(* ================================================================== *)

Lemma split_In (sep : codeunit) (s l : jsstring) (x : codeunit) :
  In l (split sep s) -> In x l -> In x s.
Proof.
  revert l. induction s as [|c s IH]; intros l; cbn [split].
  - intros [<-|[]] [].
  - destruct (N.eqb c sep).
    + intros [<-|Hl] Hx; [destruct Hx | right; now apply (IH l)].
    + destruct (split sep s) as [|l0 ls].
      * intros [<-|[]] [->|[]]. now left.
      * intros [<-|Hl] Hx.
        -- destruct Hx as [->|Hx]; [now left|].
           right. apply (IH l0); [now left | assumption].
        -- right. apply (IH l); [now right | assumption].
Qed.

Lemma split_noLineBreak (text : jsstring) :
  ~ In CR text -> forallb noLineBreak (split LF text) = true.
Proof.
  intros Hcr. apply forallb_forall. intros l Hl.
  unfold noLineBreak. apply negb_true_iff.
  destruct (existsb isLineBreak l) eqn:E; [|reflexivity]. exfalso.
  apply existsb_exists in E as (x & Hx & Hbreak).
  unfold isLineBreak in Hbreak.
  apply orb_prop in Hbreak as [H|H]; apply N.eqb_eq in H; subst x.
  - pose proof (split_no_sep LF text) as Hall.
    rewrite Forall_forall in Hall. now apply (Hall l Hl).
  - apply Hcr. now apply (split_In LF text l CR).
Qed.

Lemma join_no_CR (ls : list jsstring) :
  Forall (fun l => ~ In CR l) ls -> ~ In CR (join LF ls).
Proof.
  induction 1 as [|l ls Hl _ IH]; [intros []|].
  destruct ls as [|l' ls]; [exact Hl|].
  rewrite join_cons by discriminate. intros Hin.
  apply in_app_or in Hin as [Hin|[Hin|Hin]]; [tauto | discriminate | tauto].
Qed.

(** Lines without line break, written one after the other with line feeds
    in between, are cut into the same lines again. *)
Lemma breakLines_join (ls : list jsstring) :
  ls <> [] -> forallb noLineBreak ls = true -> breakLines (join LF ls) = ls.
Proof.
  intros Hne Hall. destruct (noLineBreak_lines ls Hall) as [Hlf Hcr].
  rewrite breakLines_split by (now apply join_no_CR).
  now apply split_join.
Qed.

Lemma indentAppending_noLineBreak (lines : list jsstring) :
  forallb noLineBreak lines = true ->
  forallb noLineBreak (indentAppending (lit "    ") lines) = true.
Proof.
  unfold indentAppending. induction lines as [|l lines IH]; [reflexivity|].
  cbn [forallb map]. intros H. apply andb_prop in H as [Hl Hls].
  rewrite (IH Hls), andb_true_r.
  destruct (streq (trim l) []); [reflexivity|].
  now rewrite indented_noLineBreak.
Qed.

Lemma indentReplacing_noLineBreak (lines : list jsstring) :
  forallb noLineBreak lines = true ->
  forallb noLineBreak (indentReplacing (lit "    ") lines) = true.
Proof.
  destruct lines as [|first lines]; [reflexivity|].
  cbn [forallb indentReplacing]. intros H. apply andb_prop in H as [Hl Hls].
  apply andb_true_intro. split.
  - destruct (streq first []); [reflexivity|].
    now rewrite indented_noLineBreak.
  - clear Hl. induction lines as [|l lines IH]; [reflexivity|].
    cbn [forallb map] in Hls |- *. apply andb_prop in Hls as [Hl Hls].
    now rewrite indented_noLineBreak, Hl, IH.
Qed.

(** A forced insertion keeps the invariant of the text model. *)
Lemma insertCode_valid (m : TextModel) (selection : Range)
      (text : jsstring) (force : bool) :
  validModel m = true ->
  exists m',
    insertCode (Monaco m selection) text force = Monaco m' selection
    /\ validModel m' = true.
Proof.
  intros Hvalid. unfold insertCode.
  destruct (force || _);
    [|eexists; split; [reflexivity | now apply executeEdits_valid]].
  destruct (findInsertionPosition m) as [pos|];
    [destruct (replacePass pos)|];
    eexists; (split; [reflexivity | now apply executeEdits_valid]).
Qed.

Lemma executeEdits_at_line_start (m : TextModel)
      (before after : list jsstring) (l text : jsstring) :
  modelLines m = before ++ l :: after ->
  executeEdits m
    {| startLineNumber := S (length before); startColumn := 1;
       endLineNumber := S (length before); endColumn := 1 |}
    text
  = {| modelLines := before ++ breakLines (text ++ l) ++ after;
       modelEOL := modelEOL m |}.
Proof.
  intros Hlines. unfold executeEdits. rewrite Hlines.
  cbn [startLineNumber startColumn endLineNumber endColumn].
  assert (Hin : length before < length (before ++ l :: after))
    by (rewrite length_app; cbn [length]; lia).
  assert (Hnth : nth (length before) (before ++ l :: after) [] = l)
    by (rewrite app_nth2 by lia; now rewrite Nat.sub_diag).
  rewrite (validatePosition_start _ _ Hin).
  replace (S (length before) - 1) with (length before) by lia.
  rewrite Hnth, firstn_length_app.
  change (1 - 1) with 0. change (firstn 0 l) with (@nil codeunit).
  change (skipn 0 l) with l. cbn [app].
  rewrite skipn_app, skipn_all2 by lia.
  replace (S (length before) - length before) with 1 by lia.
  reflexivity.
Qed.

Lemma passAfter_none (xs : list jsstring) (i : nat) :
  Forall (fun l => isPlaceholder l = false) xs ->
  passAfter xs i None = None.
Proof.
  intros H. revert i. induction H as [|l xs Hl _ IH]; intros i;
    [reflexivity|].
  cbn [passAfter]. rewrite Hl. apply IH.
Qed.

(** The forced insertion into an entry function whose block holds no
    placeholder: the snippet lines go in right after the last line of the
    block that is not blank. *)
Lemma insertCode_after_block
      (m : TextModel) (selection : Range)
      (pre init blanks rest : list jsstring) (def final text : jsstring) :
  validModel m = true ->
  modelLines m = pre ++ def :: (init ++ [final]) ++ blanks ++ rest ->
  Forall (fun l => matchesDefRun l = false) pre ->
  matchesDefRun def = true ->
  Forall (fun l => inBlock (leadingSpaces def) l = true) init ->
  inBlock (leadingSpaces def) final = true ->
  isBlank final = false ->
  Forall (fun l => isPlaceholder l = false) (init ++ [final]) ->
  Forall (fun l => isBlank l = true) blanks ->
  blockEnds (leadingSpaces def) rest = true ->
  blanks ++ rest <> [] ->
  ~ In CR text ->
  insertCode (Monaco m selection) text true
  = Monaco
      {| modelLines :=
           pre ++ def :: (init ++ [final])
               ++ indentAppending (lit "    ") (split LF text)
               ++ blanks ++ rest;
         modelEOL := modelEOL m |}
      selection.
Proof.
  intros Hvalid Hlines Hpre Hdef Hinit Hfinal Hfnb Hnopass Hblanks Hends
         Hnext Htext.
  destruct (block_extent pre def init blanks rest final
              Hinit Hfinal Hfnb Hblanks Hends) as [Hscan Hback].
  cbv zeta in Hscan, Hback.
  assert (Hpos : findInsertionPosition m
                 = Some {| lineNumber := S (length pre) + length init + 1;
                           column := 1;
                           indent := lit "    ";
                           replacePass := false;
                           replaceLine := S (length pre) + length init + 1 |}).
  { rewrite (findInsertionPosition_lines m Hvalid).
    unfold insertionPositionIn. rewrite Hlines.
    rewrite (findRunFunctionLine_app pre _ def 0 Hpre Hdef).
    cbn [Nat.add]. rewrite nth_header.
    rewrite Hscan in Hback |- *. cbn [fst] in Hback.
    rewrite Hback, passAfter_none by assumption. reflexivity. }
  destruct (blanks ++ rest) as [|next after] eqn:Htail;
    [now destruct Hnext|].
  assert (Hlines' : modelLines m
                    = (pre ++ def :: init ++ [final]) ++ next :: after).
  { rewrite Hlines. now reassociate. }
  assert (Hline : S (length pre) + length init + 1 + 1
                  = S (length (pre ++ def :: init ++ [final]))).
  { rewrite !length_app. cbn [length]. rewrite length_app. cbn [length]. lia. }
  pose proof (validModel_lines m Hvalid) as Hall. rewrite Hlines' in Hall.
  rewrite forallb_app in Hall. apply andb_prop in Hall as [_ Hall].
  cbn [forallb] in Hall. apply andb_prop in Hall as [Hnext' _].
  set (ind := indentAppending (lit "    ") (split LF text)).
  assert (Hind : forallb noLineBreak ind = true)
    by (apply indentAppending_noLineBreak, split_noLineBreak, Htext).
  assert (Hindne : ind <> []).
  { unfold ind, indentAppending. intros H. apply map_eq_nil in H.
    now apply split_not_nil in H. }
  unfold insertCode. cbn [orb]. rewrite Hpos.
  cbn [replacePass lineNumber indent].
  fold ind. rewrite Hline.
  rewrite (executeEdits_at_line_start m _ _ next _ Hlines').
  replace ((join LF ind ++ [LF]) ++ next) with (join LF (ind ++ [next]))
    by (rewrite join_app by (assumption || discriminate);
        now rewrite <- app_assoc).
  rewrite breakLines_join.
  - do 2 f_equal. now reassociate.
  - destruct ind; discriminate.
  - rewrite forallb_app, Hind. cbn [forallb]. now rewrite Hnext'.
Qed.

Lemma indented_placeholder (s : jsstring) :
  isPlaceholder (lit "    " ++ s) = isPlaceholder s.
Proof. reflexivity. Qed.

Lemma indented_inBlock (base : nat) (s : jsstring) :
  base < 4 -> inBlock base (lit "    " ++ s) = true.
Proof.
  intros Hbase. unfold inBlock. rewrite (proj1 (indented_facts s)).
  destruct (Nat.leb_spec (4 + leadingSpaces s) base); [lia|].
  now rewrite andb_false_r.
Qed.

Lemma indentAppending_code (lines : list jsstring) :
  Forall (fun l => isBlank l = false /\ isPlaceholder l = false) lines ->
  indentAppending (lit "    ") lines = map (fun l => lit "    " ++ l) lines.
Proof.
  unfold indentAppending.
  induction 1 as [|l lines [Hl _] _ IH]; [reflexivity|].
  cbn [map]. unfold isBlank in Hl. now rewrite Hl, IH.
Qed.

(** X21.  Take a buffer, with either end-of-line sequence, in which the
    block of the entry function holds no placeholder and a line follows its
    last line that is not blank.  A forced insertion of a snippet without
    carriage return puts the lines of the snippet right after that line,
    each line that is not blank with four spaces in front of it and a blank
    one as an empty line; every line of the buffer stays as it was, and so
    does its end-of-line sequence. *)
Theorem insertion_appends_after_body
        (m : TextModel) (selection : Range)
        (pre init blanks rest : list jsstring) (def final text : jsstring) :
  validModel m = true ->
  modelLines m = pre ++ def :: (init ++ [final]) ++ blanks ++ rest ->
  Forall (fun l => matchesDefRun l = false) pre ->
  matchesDefRun def = true ->
  Forall (fun l => inBlock (leadingSpaces def) l = true) init ->
  inBlock (leadingSpaces def) final = true ->
  isBlank final = false ->
  Forall (fun l => isPlaceholder l = false) (init ++ [final]) ->
  Forall (fun l => isBlank l = true) blanks ->
  blockEnds (leadingSpaces def) rest = true ->
  blanks ++ rest <> [] ->
  ~ In CR text ->
  insertCode (Monaco m selection) text true
  = Monaco
      {| modelLines :=
           pre ++ def :: (init ++ [final])
               ++ map (fun line =>
                         if isBlank line then [] else lit "    " ++ line)
                      (split LF text)
               ++ blanks ++ rest;
         modelEOL := modelEOL m |}
      selection.
Proof. apply insertCode_after_block. Qed.

(** Snippets inserted one after the other after the body. *)
Lemma insertCode_sequence
        (selection : Range) (pre blanks rest : list jsstring)
        (def : jsstring) (snippets : list jsstring) :
  Forall (fun l => matchesDefRun l = false) pre ->
  matchesDefRun def = true ->
  leadingSpaces def < 4 ->
  Forall (fun l => isBlank l = true) blanks ->
  blockEnds (leadingSpaces def) rest = true ->
  blanks ++ rest <> [] ->
  Forall (fun text =>
            ~ In CR text
            /\ Forall (fun l => isBlank l = false /\ isPlaceholder l = false)
                      (split LF text)) snippets ->
  forall (m : TextModel) (init : list jsstring) (final : jsstring),
    validModel m = true ->
    modelLines m = pre ++ def :: (init ++ [final]) ++ blanks ++ rest ->
    Forall (fun l => inBlock (leadingSpaces def) l = true) init ->
    inBlock (leadingSpaces def) final = true ->
    isBlank final = false ->
    Forall (fun l => isPlaceholder l = false) (init ++ [final]) ->
    fold_left (fun ed text => insertCode ed text true) snippets
              (Monaco m selection)
    = Monaco
        {| modelLines :=
             pre ++ def :: (init ++ [final])
                 ++ flat_map (fun text =>
                                map (fun l => lit "    " ++ l)
                                    (split LF text))
                             snippets
                 ++ blanks ++ rest;
           modelEOL := modelEOL m |}
        selection.
Proof.
  intros Hpre Hdef Hbase Hblanks Hends Hnext Hsnippets.
  induction Hsnippets as [|text snippets [Hcr Htext] _ IH];
    intros m init final Hvalid Hlines Hinit Hfinal Hfnb Hnopass.
  - cbn [fold_left flat_map app]. rewrite <- Hlines. now destruct m.
  - cbn [fold_left flat_map].
    pose proof (insertCode_after_block m selection pre init blanks rest
                  def final text Hvalid Hlines Hpre Hdef Hinit Hfinal Hfnb
                  Hnopass Hblanks Hends Hnext Hcr) as Hstep.
    rewrite indentAppending_code in Hstep by assumption.
    destruct (insertCode_valid m selection text true Hvalid)
      as (m1 & Hed & Hvalid1).
    rewrite Hed in Hstep. injection Hstep as Hm1.
    rewrite Hed.
    destruct (exists_last (split_not_nil LF text)) as (ls & l & Hsplit).
    rewrite Hsplit in *.
    apply Forall_app in Htext as [Hls Hl].
    pose proof (Forall_inv Hl) as [Hlnb Hlnp].
    rewrite map_app in Hm1 |- *. cbn [map] in Hm1 |- *.
    set (ind := fun l : jsstring => lit "    " ++ l) in *.
    assert (Hlines1 : modelLines m1
                      = pre ++ def
                            :: (((init ++ [final]) ++ map ind ls) ++ [ind l])
                            ++ blanks ++ rest).
    { rewrite Hm1. cbn [modelLines]. now reassociate. }
    assert (Heol : modelEOL m1 = modelEOL m) by (now rewrite Hm1).
    rewrite (IH m1 ((init ++ [final]) ++ map ind ls) (ind l) Hvalid1 Hlines1).
    + rewrite Heol. do 2 f_equal. now reassociate.
    + apply Forall_app. split.
      * apply Forall_app. split; [assumption|]. now repeat constructor.
      * apply Forall_forall. intros x Hx. apply in_map_iff in Hx as (y & <- & _).
        now apply indented_inBlock.
    + now apply indented_inBlock.
    + unfold ind. now rewrite (proj2 (indented_facts l)).
    + apply Forall_app. split; [apply Forall_app; split|].
      * assumption.
      * apply Forall_forall. intros x Hx.
        apply in_map_iff in Hx as (y & <- & Hy).
        unfold ind. rewrite indented_placeholder.
        rewrite Forall_forall in Hls. now apply Hls.
      * constructor; [|constructor]. unfold ind.
        now rewrite indented_placeholder.
Qed.

(** X22.  Snippets inserted one after the other into an entry function
    without placeholder, whose header is indented by fewer than four
    columns, end up in the body in the order of their insertion: after the
    insertions the buffer is the old one with the lines of the first
    snippet, then those of the second, and so on, each with four spaces in
    front, between the old body and the lines that followed it.  This holds
    for a buffer with either end-of-line sequence, which the insertions
    keep, and for snippets without carriage return none of whose lines is
    blank or the placeholder. *)
Theorem insertions_accumulate_in_order
        (selection : Range) (pre blanks rest : list jsstring)
        (def : jsstring) (snippets : list jsstring) :
  Forall (fun l => matchesDefRun l = false) pre ->
  matchesDefRun def = true ->
  leadingSpaces def < 4 ->
  Forall (fun l => isBlank l = true) blanks ->
  blockEnds (leadingSpaces def) rest = true ->
  blanks ++ rest <> [] ->
  Forall (fun text =>
            ~ In CR text
            /\ Forall (fun l => isBlank l = false /\ isPlaceholder l = false)
                      (split LF text)) snippets ->
  forall (m : TextModel) (init : list jsstring) (final : jsstring),
    validModel m = true ->
    modelLines m = pre ++ def :: (init ++ [final]) ++ blanks ++ rest ->
    Forall (fun l => inBlock (leadingSpaces def) l = true) init ->
    inBlock (leadingSpaces def) final = true ->
    isBlank final = false ->
    Forall (fun l => isPlaceholder l = false) (init ++ [final]) ->
    fold_left (fun ed text => insertCode ed text true) snippets
              (Monaco m selection)
    = Monaco
        {| modelLines :=
             pre ++ def :: (init ++ [final])
                 ++ flat_map (fun text =>
                                map (fun l => lit "    " ++ l)
                                    (split LF text))
                             snippets
                 ++ blanks ++ rest;
           modelEOL := modelEOL m |}
        selection.
Proof. apply insertCode_sequence. Qed.

Lemma insertion_appends_after_body_witness :
  insertCode
    (Monaco (Examples.modelOf EolCRLF (lit "def run(vnc):
    vnc.wait(1)

run(None)")) (Build_Range 1 1 1 1))
    (lit "vnc.click(1, 2)") true
  = Monaco
      {| modelLines :=
           [] ++ lit "def run(vnc):" :: ([] ++ [lit "    vnc.wait(1)"])
              ++ map (fun line =>
                        if isBlank line then [] else lit "    " ++ line)
                     (split LF (lit "vnc.click(1, 2)"))
              ++ [[]] ++ [lit "run(None)"];
         modelEOL := EolCRLF |}
      (Build_Range 1 1 1 1).
Proof.
  pose proof (insertion_appends_after_body
                (Examples.modelOf EolCRLF (lit "def run(vnc):
    vnc.wait(1)

run(None)")) (Build_Range 1 1 1 1)
                [] [] [[]] [lit "run(None)"] (lit "def run(vnc):")
                (lit "    vnc.wait(1)") (lit "vnc.click(1, 2)")) as H.
  specialize (H eq_refl eq_refl (Forall_nil _) eq_refl (Forall_nil _) eq_refl
                eq_refl).
  specialize (H ltac:(repeat constructor) ltac:(repeat constructor) eq_refl).
  specialize (H ltac:(discriminate) ltac:(cbn; intuition discriminate)).
  exact H.
Defined.

Lemma insertions_accumulate_in_order_witness :
  fold_left (fun ed text => insertCode ed text true)
    [lit "vnc.click(1, 2)"; lit "vnc.wait(2)
vnc.right_click(3, 4)"]
    (Monaco (Examples.modelOf EolCRLF (lit "def run(vnc):
    vnc.wait(1)

run(None)")) (Build_Range 1 1 1 1))
  = Monaco
      {| modelLines :=
           [] ++ lit "def run(vnc):" :: ([] ++ [lit "    vnc.wait(1)"])
              ++ flat_map (fun text =>
                             map (fun l => lit "    " ++ l) (split LF text))
                          [lit "vnc.click(1, 2)"; lit "vnc.wait(2)
vnc.right_click(3, 4)"]
              ++ [[]] ++ [lit "run(None)"];
         modelEOL := EolCRLF |}
      (Build_Range 1 1 1 1).
Proof.
  pose proof (insertions_accumulate_in_order
                (Build_Range 1 1 1 1) [] [[]] [lit "run(None)"]
                (lit "def run(vnc):")
                [lit "vnc.click(1, 2)"; lit "vnc.wait(2)
vnc.right_click(3, 4)"]) as H.
  specialize (H (Forall_nil _) eq_refl ltac:(cbn; lia)).
  specialize (H ltac:(repeat constructor) eq_refl ltac:(discriminate)).
  assert (Hsnippets :
            Forall
              (fun text =>
                 ~ In CR text
                 /\ Forall (fun l => isBlank l = false
                                     /\ isPlaceholder l = false)
                           (split LF text))
              [lit "vnc.click(1, 2)"; lit "vnc.wait(2)
vnc.right_click(3, 4)"]).
  { constructor; [|constructor; [|constructor]].
    - split; [cbn; intuition discriminate|].
      change (split LF (lit "vnc.click(1, 2)")) with [lit "vnc.click(1, 2)"].
      constructor; [split; reflexivity | constructor].
    - split; [cbn; intuition discriminate|].
      change (split LF (lit "vnc.wait(2)
vnc.right_click(3, 4)"))
        with [lit "vnc.wait(2)"; lit "vnc.right_click(3, 4)"].
      constructor; [split; reflexivity|].
      constructor; [split; reflexivity | constructor]. }
  specialize (H Hsnippets).
  specialize (H (Examples.modelOf EolCRLF (lit "def run(vnc):
    vnc.wait(1)

run(None)")) [] (lit "    vnc.wait(1)")).
  specialize (H eq_refl eq_refl (Forall_nil _) eq_refl eq_refl).
  specialize (H ltac:(repeat constructor)).
  exact H.
Defined.

(* ================================================================== *)
(** * Live insertion without an entry function *)
(* ================================================================== *)

Lemma executeEdits_at_end (m : TextModel) (front : list jsstring)
      (l text : jsstring) :
  modelLines m = front ++ [l] ->
  executeEdits m
    {| startLineNumber := S (length front); startColumn := length l + 1;
       endLineNumber := S (length front); endColumn := length l + 1 |}
    text
  = {| modelLines := front ++ breakLines (l ++ text);
       modelEOL := modelEOL m |}.
Proof.
  intros Hlines. unfold executeEdits. rewrite Hlines.
  cbn [startLineNumber startColumn endLineNumber endColumn].
  assert (Hin : length front < length (front ++ [l]))
    by (rewrite length_app; cbn [length]; lia).
  assert (Hnth : nth (length front) (front ++ [l]) [] = l)
    by (rewrite app_nth2 by lia; now rewrite Nat.sub_diag).
  pose proof (validatePosition_end _ _ Hin) as Hend.
  rewrite Hnth in Hend. rewrite Hend.
  replace (S (length front) - 1) with (length front) by lia.
  rewrite Hnth, firstn_length_app.
  replace (length l + 1 - 1) with (length l) by lia.
  rewrite firstn_all, skipn_all.
  rewrite skipn_all2 by (rewrite length_app; cbn [length]; lia).
  now rewrite !app_nil_r.
Qed.

Lemma join_last_line (front : list jsstring) (l text : jsstring) :
  join LF (front ++ split LF (l ++ text)) = join LF (front ++ [l]) ++ text.
Proof.
  destruct front as [|f front].
  - cbn [app join]. apply join_split.
  - rewrite !join_app by (discriminate || apply split_not_nil).
    rewrite join_split. cbn [join]. now rewrite <- app_assoc.
Qed.

(** X23.  When no line of the buffer starts a definition of the entry
    function, a forced insertion of a snippet without carriage return
    appends to the last line of the buffer: the snippet goes behind that
    line when it is blank, and behind an empty line after it otherwise, and
    an empty line becomes the last line; no other line is changed, and the
    end-of-line sequence of the buffer is kept.  In a buffer whose
    end-of-line sequence is the line feed, the text of the buffer is
    afterwards the old text followed by the snippet and a line feed, with
    two line feeds in front of the snippet unless the last line was
    blank. *)
Theorem insertion_without_entry_function
        (m : TextModel) (selection : Range) (front : list jsstring)
        (l text : jsstring) :
  validModel m = true ->
  modelLines m = front ++ [l] ->
  findRunFunctionLine (modelLines m) 0 = None ->
  ~ In CR text ->
  let prefix := if isBlank l then [] else [LF; LF] in
  let after :=
    {| modelLines := front ++ split LF (l ++ prefix ++ text) ++ [[]];
       modelEOL := modelEOL m |} in
  insertCode (Monaco m selection) text true = Monaco after selection
  /\ (modelEOL m = EolLF ->
      getValue after = getValue m ++ prefix ++ text ++ [LF]).
Proof.
  intros Hvalid Hlines Hnone Htext. cbv zeta.
  assert (Hcount : getLineCount m = S (length front)).
  { unfold getLineCount. rewrite Hlines, length_app. cbn [length]. lia. }
  assert (Hlast : getLineContent m (getLineCount m) = l).
  { unfold getLineContent. rewrite Hcount, Hlines.
    replace (S (length front) - 1) with (length front) by lia.
    rewrite app_nth2 by lia. now rewrite Nat.sub_diag. }
  pose proof (validModel_lines m Hvalid) as Hall. rewrite Hlines in Hall.
  rewrite forallb_app in Hall. apply andb_prop in Hall as [_ Hl].
  cbn [forallb] in Hl. rewrite andb_true_r in Hl.
  destruct (noLineBreak_spec l Hl) as [_ Hlcr].
  set (prefix := if isBlank l then [] else [LF; LF]).
  assert (Hsplit : split LF (l ++ prefix ++ text ++ [LF])
                   = split LF (l ++ prefix ++ text) ++ [[]]).
  { replace (l ++ prefix ++ text ++ [LF])
      with ((l ++ prefix ++ text) ++ LF :: [])
      by (now rewrite <- !app_assoc).
    now rewrite split_app_sep. }
  assert (Hcut : breakLines (l ++ prefix ++ text ++ [LF])
                 = split LF (l ++ prefix ++ text) ++ [[]]).
  { rewrite breakLines_split; [exact Hsplit|].
    intros Hin. apply in_app_or in Hin as [Hin|Hin]; [tauto|].
    apply in_app_or in Hin as [Hin|Hin].
    - unfold prefix in Hin. destruct (isBlank l); [destruct Hin|].
      destruct Hin as [Hin|[Hin|[]]]; discriminate.
    - apply in_app_or in Hin as [Hin|[Hin|[]]]; [tauto | discriminate]. }
  split.
  - unfold insertCode. cbn [orb].
    rewrite (findInsertionPosition_lines m Hvalid).
    unfold insertionPositionIn. rewrite Hnone.
    cbv zeta. rewrite Hlast, Hcount.
    rewrite (executeEdits_at_end m front l _ Hlines).
    fold (isBlank l). fold prefix. now rewrite Hcut.
  - intros Heol. unfold getValue. cbn [modelLines modelEOL].
    rewrite Heol. cbn [eolText]. rewrite !joinWith_LF, Hlines.
    rewrite <- Hsplit, join_last_line. reflexivity.
Qed.

Lemma insertion_without_entry_function_witness :
  insertCode (Monaco (Examples.modelOf EolCRLF (lit "import os
x = 1")) (Build_Range 2 3 2 3)) (lit "vnc.click(1, 2)") true
  = Monaco
      {| modelLines :=
           [lit "import os"]
             ++ split LF (lit "x = 1" ++ [LF; LF] ++ lit "vnc.click(1, 2)")
             ++ [[]];
         modelEOL := EolCRLF |}
      (Build_Range 2 3 2 3).
Proof.
  pose proof (insertion_without_entry_function
                (Examples.modelOf EolCRLF (lit "import os
x = 1")) (Build_Range 2 3 2 3) [lit "import os"] (lit "x = 1")
                (lit "vnc.click(1, 2)")) as H.
  specialize (H eq_refl eq_refl eq_refl ltac:(cbn; intuition discriminate)).
  exact (proj1 H).
Defined.

(* ================================================================== *)
(** * Recording into a freshly synthesized script *)
(* ================================================================== *)

Lemma indentReplacing_code (lines : list jsstring) :
  Forall (fun l => isBlank l = false /\ isPlaceholder l = false) lines ->
  indentReplacing (lit "    ") lines = map (fun l => lit "    " ++ l) lines.
Proof.
  intros H. destruct H as [|first lines [Hfirst _] _]; [reflexivity|].
  cbn [indentReplacing map].
  destruct first as [|c first]; [discriminate|]. reflexivity.
Qed.

(** The forced insertion into an entry function whose block ends with the
    placeholder: the placeholder line is replaced by the lines of the
    snippet and an empty line. *)
Lemma insertCode_replaces_placeholder
      (m : TextModel) (selection : Range)
      (pre mid blanks rest : list jsstring) (def p text : jsstring) :
  validModel m = true ->
  modelLines m = pre ++ def :: (mid ++ [p]) ++ blanks ++ rest ->
  Forall (fun l => matchesDefRun l = false) pre ->
  matchesDefRun def = true ->
  Forall (fun l => inBlock (leadingSpaces def) l = true) mid ->
  inBlock (leadingSpaces def) p = true ->
  isPlaceholder p = true ->
  Forall (fun l => isBlank l = true) blanks ->
  blockEnds (leadingSpaces def) rest = true ->
  ~ In CR text ->
  insertCode (Monaco m selection) text true
  = Monaco
      {| modelLines :=
           pre ++ def :: mid
               ++ indentReplacing (lit "    ") (split LF text)
               ++ ([] :: blanks) ++ rest;
         modelEOL := modelEOL m |}
      selection.
Proof.
  intros Hvalid Hlines Hpre Hdef Hmid Hp Hpass Hblanks Hends Htext.
  pose proof (isPlaceholder_not_blank _ Hpass) as Hpnb.
  destruct (block_extent pre def mid blanks rest p Hmid Hp Hpnb Hblanks Hends)
    as [Hscan Hback].
  cbv zeta in Hscan, Hback.
  assert (Hpassline : passAfter (mid ++ [p]) (S (length pre)) None
                      = Some (S (length pre) + length mid + 1)).
  { rewrite passAfter_app. cbn [passAfter]. rewrite Hpass. f_equal. lia. }
  assert (Hpos : findInsertionPosition m
                 = Some {| lineNumber := S (length pre) + length mid + 1;
                           column := 1;
                           indent := lit "    ";
                           replacePass := true;
                           replaceLine := S (length pre) + length mid + 1 |}).
  { rewrite (findInsertionPosition_lines m Hvalid).
    unfold insertionPositionIn. rewrite Hlines.
    rewrite (findRunFunctionLine_app pre _ def 0 Hpre Hdef).
    cbn [Nat.add]. rewrite nth_header.
    rewrite Hscan in Hback |- *. cbn [fst] in Hback.
    rewrite Hback, Hpassline. reflexivity. }
  assert (Hlines' : modelLines m
                    = (pre ++ def :: mid) ++ p :: blanks ++ rest).
  { rewrite Hlines. now reassociate. }
  assert (Hline : S (length pre) + length mid + 1
                  = S (length (pre ++ def :: mid))).
  { rewrite length_app. cbn [length]. lia. }
  assert (Hcontent : getLineContent m (S (length pre) + length mid + 1)
                     = p).
  { unfold getLineContent. rewrite Hline, Hlines'.
    cbn [Nat.sub]. rewrite Nat.sub_0_r, app_nth2 by lia.
    now rewrite Nat.sub_diag. }
  set (ind := indentReplacing (lit "    ") (split LF text)).
  assert (Hind : forallb noLineBreak ind = true)
    by (apply indentReplacing_noLineBreak, split_noLineBreak, Htext).
  assert (Hindne : ind <> []).
  { unfold ind. pose proof (split_not_nil LF text) as Hne.
    destruct (split LF text); [congruence | discriminate]. }
  unfold insertCode. cbn [orb]. rewrite Hpos.
  cbn [replacePass replaceLine indent].
  fold ind. rewrite Hcontent, Hline.
  rewrite (executeEdits_line m _ _ p _ Hlines').
  replace (join LF ind ++ [LF]) with (join LF (ind ++ [[]]))
    by (now rewrite join_app by (assumption || discriminate)).
  rewrite breakLines_join.
  - do 2 f_equal. now reassociate.
  - destruct ind; discriminate.
  - rewrite forallb_app, Hind. reflexivity.
Qed.

Section FreshScript.

Context {B : Builtins}.
Variables (isoNow scriptName description : jsstring).
Hypothesis Hiso : noLineBreak isoNow = true.
Hypothesis Hname : noLineBreak scriptName = true.
Hypothesis Hdescription : noLineBreak description = true.
Hypothesis Hnodef : matchesDefRun description = false.

Local Abbreviation fresh :=
  (generateCode isoNow [] scriptName description) (only parsing).

Lemma headerLines_noLineBreak :
  forallb noLineBreak (headerLines isoNow scriptName description) = true.
Proof.
  unfold headerLines. cbn [forallb].
  rewrite !noLineBreak_app, Hiso, Hname.
  destruct description; [reflexivity|].
  cbn [truthy]. now rewrite Hdescription.
Qed.

Lemma fresh_lines :
  breakLines fresh
  = firstn 10 (headerLines isoNow scriptName description)
      ++ lit "def run(vnc):"
      :: ([litq "    ```Execute the automation script.```"]
            ++ [lit "    pass"])
      ++ [[]] ++ tl harnessLines.
Proof.
  unfold generateCode. rewrite breakLines_join.
  - reflexivity.
  - discriminate.
  - rewrite !forallb_app, headerLines_noLineBreak. reflexivity.
Qed.

Lemma header_no_entry :
  Forall (fun l => matchesDefRun l = false)
         (firstn 10 (headerLines isoNow scriptName description)).
Proof.
  unfold headerLines. cbn [firstn].
  repeat (apply Forall_cons; [try reflexivity|]); try apply Forall_nil.
  destruct description; [reflexivity | assumption].
Qed.

End FreshScript.

Lemma validModel_breakLines (m : TextModel) (text : jsstring) :
  modelLines m = breakLines text -> validModel m = true.
Proof.
  intros Hlines. unfold validModel. rewrite Hlines.
  destruct (breakLines_valid text) as [Hne Hall].
  destruct (breakLines text); [congruence | exact Hall].
Qed.

(** X24.  Recording into a script that has just been synthesized from no
    step, in a buffer with either end-of-line sequence: the first snippet
    takes the place of the placeholder of the entry function and every later
    snippet goes in after the one before it, so that after the insertions
    the lines of the buffer are the header, the lines of all snippets in the
    order of their insertion, each with four spaces in front, an empty line,
    and the harness.  This holds when the time stamp, the script name and
    the description hold no line break, the description does not read as
    the header of an entry function, no snippet holds a carriage return,
    and no snippet line is blank or the placeholder. *)
Theorem recording_into_fresh_script
        {B : Builtins} (isoNow scriptName description : jsstring)
        (m : TextModel) (selection : Range)
        (first : jsstring) (others : list jsstring) :
  modelLines m = breakLines (generateCode isoNow [] scriptName description) ->
  noLineBreak isoNow = true -> noLineBreak scriptName = true ->
  noLineBreak description = true ->
  matchesDefRun description = false ->
  Forall (fun text =>
            ~ In CR text
            /\ Forall (fun l => isBlank l = false /\ isPlaceholder l = false)
                      (split LF text)) (first :: others) ->
  fold_left (fun ed text => insertCode ed text true) (first :: others)
            (Monaco m selection)
  = Monaco
      {| modelLines :=
           headerLines isoNow scriptName description
             ++ flat_map (fun text =>
                            map (fun l => lit "    " ++ l) (split LF text))
                         (first :: others)
             ++ [[]] ++ harnessLines;
         modelEOL := modelEOL m |}
      selection.
Proof.
  intros Hmodel Hiso Hname Hdescription Hnodef Hsnippets.
  pose proof (validModel_breakLines m _ Hmodel) as Hvalid.
  inversion Hsnippets as [|? ? [Hcr Hfirst] Hothers]; subst.
  pose proof (fresh_lines isoNow scriptName description) as Hlines.
  repeat specialize (Hlines ltac:(assumption)).
  rewrite <- Hmodel in Hlines.
  pose proof (header_no_entry isoNow scriptName description) as Hpre.
  repeat specialize (Hpre ltac:(assumption)).
  set (pre := firstn 10 (headerLines isoNow scriptName description)) in *.
  set (doc := litq "    ```Execute the automation script.```") in *.
  cbn [fold_left flat_map].
  destruct (insertCode_valid m selection first true Hvalid)
    as (m1 & Hed & Hvalid1).
  pose proof (insertCode_replaces_placeholder
                m selection
                pre [doc] [[]] (tl harnessLines) (lit "def run(vnc):")
                (lit "    pass") first Hvalid Hlines Hpre eq_refl
                ltac:(repeat constructor) eq_refl eq_refl
                ltac:(repeat constructor) eq_refl Hcr) as Hstep.
  rewrite Hed in Hstep |- *. injection Hstep as Hm1.
  rewrite indentReplacing_code in Hm1 by assumption.
  destruct (exists_last (split_not_nil LF first)) as (ls & l & Hsplit).
  rewrite Hsplit in *.
  apply Forall_app in Hfirst as [Hls Hl].
  pose proof (Forall_inv Hl) as [Hlnb Hlnp].
  rewrite map_app in Hm1 |- *. cbn [map] in Hm1 |- *.
  set (ind := fun l : jsstring => lit "    " ++ l) in *.
  assert (Hlines1 : modelLines m1
                    = pre ++ lit "def run(vnc):"
                          :: (([doc] ++ map ind ls) ++ [ind l])
                          ++ [[]; []] ++ tl harnessLines).
  { rewrite Hm1. cbn [modelLines]. now reassociate. }
  assert (Heol : modelEOL m1 = modelEOL m) by (now rewrite Hm1).
  rewrite (insertCode_sequence selection pre [[]; []] (tl harnessLines)
             (lit "def run(vnc):") others Hpre eq_refl
             ltac:(cbn; lia) ltac:(repeat constructor) eq_refl
             ltac:(discriminate) Hothers
             m1 ([doc] ++ map ind ls) (ind l) Hvalid1 Hlines1).
  - rewrite Heol. do 2 f_equal.
    unfold pre, headerLines, harnessLines. cbn [firstn tl].
    now reassociate.
  - apply Forall_app. split; [now repeat constructor|].
    apply Forall_forall. intros x Hx. apply in_map_iff in Hx as (y & <- & _).
    apply indented_inBlock. cbn. lia.
  - apply indented_inBlock. cbn. lia.
  - unfold ind. now rewrite (proj2 (indented_facts l)).
  - apply Forall_app. split; [apply Forall_app; split|].
    + now repeat constructor.
    + apply Forall_forall. intros x Hx.
      apply in_map_iff in Hx as (y & <- & Hy).
      unfold ind. rewrite indented_placeholder.
      rewrite Forall_forall in Hls. now apply Hls.
    + constructor; [|constructor]. unfold ind.
      now rewrite indented_placeholder.
Qed.

Lemma recording_into_fresh_script_witness :
  fold_left (fun ed text => insertCode ed text true)
    [lit "vnc.click(1, 2)"; lit "vnc.wait(2)"]
    (Monaco (Examples.modelOf EolCRLF
               (generateCode (B := Examples.asciiBuiltins)
                  (lit "2024-01-01T00:00:00.000Z") [] (lit "demo") []))
            (Build_Range 1 1 1 1))
  = Monaco
      {| modelLines :=
           headerLines (lit "2024-01-01T00:00:00.000Z") (lit "demo") []
             ++ flat_map (fun text =>
                            map (fun l => lit "    " ++ l) (split LF text))
                         [lit "vnc.click(1, 2)"; lit "vnc.wait(2)"]
             ++ [[]] ++ harnessLines;
         modelEOL := EolCRLF |}
      (Build_Range 1 1 1 1).
Proof.
  pose proof (recording_into_fresh_script (B := Examples.asciiBuiltins)
                (lit "2024-01-01T00:00:00.000Z") (lit "demo") []
                (Examples.modelOf EolCRLF
                   (generateCode (B := Examples.asciiBuiltins)
                      (lit "2024-01-01T00:00:00.000Z") [] (lit "demo") []))
                (Build_Range 1 1 1 1)
                (lit "vnc.click(1, 2)") [lit "vnc.wait(2)"]) as H.
  specialize (H eq_refl eq_refl eq_refl eq_refl eq_refl).
  assert (Hsnippets :
            Forall
              (fun text =>
                 ~ In CR text
                 /\ Forall (fun l => isBlank l = false
                                     /\ isPlaceholder l = false)
                           (split LF text))
              [lit "vnc.click(1, 2)"; lit "vnc.wait(2)"]).
  { constructor; [|constructor; [|constructor]].
    - split; [cbn; intuition discriminate|].
      change (split LF (lit "vnc.click(1, 2)")) with [lit "vnc.click(1, 2)"].
      constructor; [split; reflexivity | constructor].
    - split; [cbn; intuition discriminate|].
      change (split LF (lit "vnc.wait(2)")) with [lit "vnc.wait(2)"].
      constructor; [split; reflexivity | constructor]. }
  specialize (H Hsnippets). exact H.
Defined.

(* ================================================================== *)
(** * From a click on the canvas to the inserted statement *)
(* ================================================================== *)

(** The release reads the smart-capture flag that its handler has captured:
    after smart capture has been switched off, a handler created while it
    was on still buffers a smart click. *)
Lemma release_reads_captured_smart_record
      {B : Builtins} (cfg : Config) (st : State)
      (env0 env1 : Env) (e0 e1 : MouseEvent) (rect0 rect1 : Rect)
      (url : jsstring) :
  isRecording cfg = true -> isPaused cfg = false ->
  isVerifyMode cfg = false -> isVerifyTextMode cfg = false ->
  isSmartRecord cfg = false -> mouseUp_isSmartRecord cfg = true ->
  canvas env0 = Some rect0 -> canvas env1 = Some rect1 ->
  smartCapture env1 = Some url ->
  button e0 = 0%Z -> detail e0 <> 2%Z ->
  exists t,
    clickTimeoutRef
      (fst (run cfg [(env0, MouseDown e0); (env1, MouseUp e1)] st))
    = Some t
    /\ sd_type (timeoutStep t) = lit "smart_click"
    /\ sd_smartTemplate (timeoutStep t) = Some url.
Proof.
  intros Hrec Hpaused Hverify Hverifytext Hnow Hcaptured Hcanvas0 Hcanvas1
         Hurl Hbutton Hdetail.
  assert (Hkind : clickKind 0 (detail e0) = lit "click").
  { unfold clickKind. cbn [Z.eqb].
    destruct (Z.eqb_spec (detail e0) 2); [contradiction | reflexivity]. }
  cbn [run step].
  unfold handleMouseDown.
  rewrite Hrec, Hpaused, Hverify, Hverifytext, Hcanvas0, Hbutton.
  cbn [negb andb orb Z.eqb]. cbv zeta.
  unfold handleMouseUpCapture.
  cbn [dragDataRef setDrag isDragging].
  unfold processMouseAction. rewrite Hcanvas1, Hrec, Hcaptured, Hurl.
  cbn [andb dragButton dragDetail]. cbv zeta.
  rewrite Hkind.
  cbn [sd_type sd_originalType withSmart pointerStep].
  change (streq (lit "smart_click") (lit "click")) with false.
  change (streq (lit "smart_click") (lit "smart_click")) with true.
  change (streq (lit "click") (lit "click")) with true.
  cbn [orb andb fst snd].
  eexists. split; [reflexivity|]. split; reflexivity.
Qed.

(** X25.  In a recording session in which the handler of the release has
    captured smart capture as switched off, with no selection being drawn,
    a press and a release of the primary button that is not the second of a
    double click make no call by themselves; when the timer set at the
    release fires, 250 ms later or more, its callback passes one step of
    type click, at the remote coordinates of the release, to [onStep], if
    that callback is set, and then to [onInteraction], if that one is set,
    and these are all the calls; the live insertion turns the step into the
    statement [vnc.click] on these coordinates.  A click that was still
    buffered at the release is dropped: it is not among the steps handed
    over. *)
Theorem click_is_recorded_after_the_timer
        {B : Builtins} (cfg : Config) (st : State)
        (env0 env1 env2 : Env) (e0 e1 : MouseEvent) (rect0 rect1 : Rect) :
  isRecording cfg = true -> isPaused cfg = false ->
  isVerifyMode cfg = false -> isVerifyTextMode cfg = false ->
  selectionStart st = None ->
  mouseUp_isSmartRecord cfg = false ->
  canvas env0 = Some rect0 -> canvas env1 = Some rect1 ->
  button e0 = 0%Z -> detail e0 <> 2%Z ->
  (now env1 + 250 <= now env2)%Z ->
  let point :=
    scaleCoordinates (clientX e1) (clientY e1) rect1
                     (screenWidth cfg) (screenHeight cfg) in
  let released := run cfg [(env0, MouseDown e0); (env1, MouseUp e1)] st in
  let fired :=
    run cfg [(env0, MouseDown e0); (env1, MouseUp e1); (env2, TimerFire)]
        st in
  snd released = []
  /\ exists sd,
      snd fired
      = (if hasOnStep cfg then [OnStep sd] else [])
          ++ (if hasOnInteraction cfg then [OnInteraction sd] else [])
      /\ sd_type sd = lit "click"
      /\ sd_x sd = Some (px point) /\ sd_y sd = Some (py point)
      /\ clickTimeoutRef (fst fired) = None
      /\ App.dispatch sd
         = App.InsertNow (lit "vnc.click(" ++ numberToString (px point)
                            ++ lit ", " ++ numberToString (py point)
                            ++ lit ")").
Proof.
  intros Hrec Hpaused Hverify Hverifytext Hsel Hsmart Hcanvas0 Hcanvas1
         Hbutton Hdetail Hdue.
  cbv zeta.
  assert (Hkind : clickKind 0 (detail e0) = lit "click").
  { unfold clickKind. cbn [Z.eqb].
    destruct (Z.eqb_spec (detail e0) 2); [contradiction | reflexivity]. }
  cbn [run step].
  unfold handleMouseDown.
  rewrite Hrec, Hpaused, Hverify, Hverifytext, Hcanvas0, Hbutton.
  cbn [negb andb orb Z.eqb]. cbv zeta.
  unfold handleMouseUpCapture.
  cbn [dragDataRef setDrag isDragging].
  unfold processMouseAction. rewrite Hcanvas1, Hrec, Hsmart.
  cbn [andb dragButton dragDetail]. cbv zeta.
  rewrite Hkind.
  cbn [sd_type pointerStep]. 
  change (streq (lit "click") (lit "click")) with true. cbn [orb].
  cbn [fst snd app].
  unfold timerFire.
  cbn [clickTimeoutRef setDrag setTimer setLastAction due timeoutProps
       timeoutStep].
  destruct (Z.leb_spec (now env1 + 250) (now env2)); [|lia].
  cbn [fst snd app].
  split; [reflexivity|].
  eexists. split; [rewrite app_nil_r; unfold commitAction; now rewrite Hrec|].
  repeat split.
Qed.

Lemma click_is_recorded_after_the_timer_witness :
  snd (run (B := Examples.asciiBuiltins) Examples.recording
         [(Examples.atTime 1000, MouseDown (Examples.mouseAt 10 20 0 1));
          (Examples.atTime 1100, MouseUp (Examples.mouseAt 10 20 0 1))]
         Examples.buffered)
  = [].
Proof.
  pose proof (click_is_recorded_after_the_timer
                (B := Examples.asciiBuiltins) Examples.recording
                Examples.buffered
                (Examples.atTime 1000) (Examples.atTime 1100)
                (Examples.atTime 1350)
                (Examples.mouseAt 10 20 0 1) (Examples.mouseAt 10 20 0 1)
                (Coordinates.canvasAtOrigin 1024 768)
                (Coordinates.canvasAtOrigin 1024 768)) as H.
  specialize (H eq_refl eq_refl eq_refl eq_refl eq_refl eq_refl eq_refl).
  specialize (H eq_refl eq_refl ltac:(discriminate) ltac:(cbn; lia)).
  exact (proj1 H).
Defined.

(** X26.  In a recording session without smart capture, the handler of a
    press of the secondary button passes one step of type right_click, at
    the remote coordinates of the press, to [onStep], if that callback is
    set, and then to [onInteraction], if that one is set, and makes no other
    call; the live insertion turns the step into the statement
    [vnc.right_click] on these coordinates.  A click that was buffered at
    that time is cancelled, so that the timer hands over nothing
    afterwards. *)
Theorem right_click_is_recorded_at_once
        {B : Builtins} (cfg : Config) (st : State)
        (env0 : Env) (e0 : MouseEvent) (rect0 : Rect) :
  isRecording cfg = true -> isPaused cfg = false ->
  isVerifyMode cfg = false -> isVerifyTextMode cfg = false ->
  isSmartRecord cfg = false ->
  canvas env0 = Some rect0 -> button e0 = 2%Z ->
  let point :=
    scaleCoordinates (clientX e0) (clientY e0) rect0
                     (screenWidth cfg) (screenHeight cfg) in
  let pressed := step cfg env0 (MouseDown e0) st in
  (exists sd,
      snd pressed
      = (if hasOnStep cfg then [OnStep sd] else [])
          ++ (if hasOnInteraction cfg then [OnInteraction sd] else [])
      /\ sd_type sd = lit "right_click"
      /\ sd_x sd = Some (px point) /\ sd_y sd = Some (py point)
      /\ App.dispatch sd
         = App.InsertNow (lit "vnc.right_click("
                            ++ numberToString (px point) ++ lit ", "
                            ++ numberToString (py point) ++ lit ")"))
  /\ clickTimeoutRef (fst pressed) = None
  /\ (forall env, timerFire env (fst pressed) = (fst pressed, [])).
Proof.
  intros Hrec Hpaused Hverify Hverifytext Hsmart Hcanvas Hbutton.
  cbv zeta. cbn [step]. unfold handleMouseDown.
  rewrite Hrec, Hpaused, Hverify, Hverifytext, Hcanvas, Hbutton.
  cbn [negb andb orb Z.eqb]. cbv zeta.
  unfold processMouseAction. rewrite Hcanvas, Hrec, Hsmart, Hbutton.
  cbn [andb]. cbv zeta.
  change (clickKind 2 (detail e0)) with (lit "right_click").
  cbn [sd_type pointerStep].
  change (streq (lit "right_click") (lit "click")) with false.
  change (streq (lit "right_click") (lit "smart_click")) with false.
  cbn [orb andb fst snd].
  split; [|split].
  - eexists. split; [unfold commitAction; now rewrite Hrec|]. repeat split.
  - reflexivity.
  - intros env. reflexivity.
Qed.

Lemma right_click_is_recorded_at_once_witness :
  clickTimeoutRef
    (fst (step (B := Examples.asciiBuiltins) Examples.recording
            (Examples.atTime 100) (MouseDown (Examples.mouseAt 10 20 2 1))
            Examples.buffered))
  = None.
Proof.
  pose proof (right_click_is_recorded_at_once
                (B := Examples.asciiBuiltins) Examples.recording
                Examples.buffered (Examples.atTime 100)
                (Examples.mouseAt 10 20 2 1)
                (Coordinates.canvasAtOrigin 1024 768)) as H.
  specialize (H eq_refl eq_refl eq_refl eq_refl eq_refl eq_refl eq_refl).
  exact (proj1 (proj2 H)).
Defined.

(* ================================================================== *)
(** * The formatter never goes back to a lower indentation *)
(* ================================================================== *)

Lemma formatPythonCode_lines (code : jsstring) :
  split LF (formatPythonCode code) = formatLines (split LF code) 0.
Proof.
  unfold formatPythonCode. apply split_join.
  - intros H. apply (f_equal (@length _)) in H.
    rewrite formatLines_length in H.
    pose proof (split_length_pos LF code). cbn [length] in H. lia.
  - apply formatLines_no_LF, split_no_sep.
Qed.

Lemma formatLines_level (lines : list jsstring) :
  Forall (fun l => dedents (trim l) = false) lines ->
  forall (n j : nat) (line : jsstring),
    nth_error lines j = Some line ->
    negb (truthy (trim line)) || startsWith (lit "#") (trim line) = false ->
    exists k,
      n <= k
      /\ nth_error (formatLines lines n) j = Some (indentation k ++ trim line).
Proof.
  induction 1 as [|l lines Hl _ IH]; intros n j line Hnth Hcode.
  - destruct j; discriminate.
  - cbn [formatLines]. cbv zeta. rewrite Hl.
    destruct j as [|j]; cbn [nth_error] in Hnth.
    + inversion Hnth; subst l. rewrite Hcode.
      exists n. split; [lia | reflexivity].
    + destruct (negb (truthy (trim l)) || startsWith (lit "#") (trim l)).
      * cbn [nth_error]. now apply IH.
      * cbn [nth_error].
        destruct (IH (if endsWithColon (trim l) then S n else n) j line
                     Hnth Hcode) as (k & Hk & Heq).
        exists k. split; [|exact Heq].
        destruct (endsWithColon (trim l)); lia.
Qed.

Lemma formatLines_below_header (lines : list jsstring) :
  Forall (fun l => dedents (trim l) = false) lines ->
  forall (n i j : nat) (header line : jsstring),
    nth_error lines i = Some header ->
    negb (truthy (trim header)) || startsWith (lit "#") (trim header)
    = false ->
    endsWithColon (trim header) = true ->
    i < j ->
    nth_error lines j = Some line ->
    negb (truthy (trim line)) || startsWith (lit "#") (trim line) = false ->
    exists k,
      S n <= k
      /\ nth_error (formatLines lines n) j = Some (indentation k ++ trim line).
Proof.
  induction 1 as [|l lines Hl Hlines IH];
    intros n i j header line Hi Hheader Hcolon Hlt Hj Hcode.
  - destruct j; discriminate.
  - destruct j as [|j]; [lia|]. cbn [nth_error] in Hj.
    cbn [formatLines]. cbv zeta. rewrite Hl.
    destruct i as [|i]; cbn [nth_error] in Hi.
    + inversion Hi; subst l. rewrite Hheader, Hcolon. cbn [nth_error].
      apply (formatLines_level lines Hlines (S n) j line Hj Hcode).
    + assert (Hlt' : i < j) by lia.
      destruct (negb (truthy (trim l)) || startsWith (lit "#") (trim l)).
      * cbn [nth_error].
        apply (IH n i j header line Hi Hheader Hcolon Hlt' Hj Hcode).
      * cbn [nth_error].
        destruct (IH (if endsWithColon (trim l) then S n else n) i j header
                     line Hi Hheader Hcolon Hlt' Hj Hcode) as (k & Hk & Heq).
        exists k. split; [|exact Heq].
        destruct (endsWithColon (trim l)); lia.
Qed.

(** X27.  The formatter never goes back to a lower indentation by itself:
    in a text without a line that starts with [else:], [elif ], [except:]
    or [finally:], every line of code that comes after a line of code
    ending with a colon is written with at least four spaces in front,
    also when it stood at the first column, as the line after the body of
    a function does. *)
Theorem formatPythonCode_never_dedents
        (code : jsstring) (i j : nat) (header line : jsstring) :
  Forall (fun l => dedents (trim l) = false) (split LF code) ->
  nth_error (split LF code) i = Some header ->
  negb (truthy (trim header)) || startsWith (lit "#") (trim header) = false ->
  endsWithColon (trim header) = true ->
  i < j ->
  nth_error (split LF code) j = Some line ->
  negb (truthy (trim line)) || startsWith (lit "#") (trim line) = false ->
  exists written,
    nth_error (split LF (formatPythonCode code)) j = Some written
    /\ startsWith (lit "    ") written = true
    /\ trim written = trim line.
Proof.
  intros Hnodedent Hi Hheader Hcolon Hlt Hj Hcode.
  rewrite formatPythonCode_lines.
  destruct (formatLines_below_header (split LF code) Hnodedent 0 i j header
              line Hi Hheader Hcolon Hlt Hj Hcode) as (k & Hk & Heq).
  exists (indentation k ++ trim line). split; [exact Heq|].
  split; [|apply trim_indented].
  destruct k as [|k]; [lia|].
  unfold indentation. cbn [repeat concat]. rewrite <- app_assoc.
  apply startsWith_app.
Qed.

Lemma formatPythonCode_never_dedents_witness :
  exists written,
    nth_error (split LF (formatPythonCode (lit "def run(vnc):
    vnc.wait(1)
run(None)"))) 2 = Some written
    /\ startsWith (lit "    ") written = true
    /\ trim written = trim (lit "run(None)").
Proof.
  pose proof (formatPythonCode_never_dedents (lit "def run(vnc):
    vnc.wait(1)
run(None)") 0 2 (lit "def run(vnc):") (lit "run(None)")) as H.
  assert (Hnodedent :
            Forall (fun l => dedents (trim l) = false)
                   (split LF (lit "def run(vnc):
    vnc.wait(1)
run(None)"))).
  { change (split LF (lit "def run(vnc):
    vnc.wait(1)
run(None)")) with [lit "def run(vnc):"; lit "    vnc.wait(1)"; lit "run(None)"].
    repeat (constructor; [reflexivity|]). constructor. }
  specialize (H Hnodedent eq_refl eq_refl eq_refl ltac:(lia) eq_refl eq_refl).
  exact H.
Defined.

(* ================================================================== *)
(** * Resynthesis of a script that was not edited above its manual part *)
(* ================================================================== *)

Lemma separate_at_generated (G M : jsstring) :
  separateGeneratedFromManual (concatenateCodes G M) (countLines G)
  = {| generated := G; manual := M |}.
Proof.
  unfold separateGeneratedFromManual, concatenateCodes, countLines.
  destruct G as [|g G'], M as [|m M']; cbn [truthy negb andb];
    try reflexivity.
  - set (G := g :: G').
    pose proof (split_length_pos LF G) as Hlen.
    destruct (Z.leb_spec (Z.of_nat (length (split LF G))) 0); [lia|].
    rewrite Nat2Z.id, firstn_all, skipn_all.
    now rewrite join_split.
  - set (G := g :: G'). set (M := m :: M').
    replace (truthy (G ++ LF :: M)) with true by reflexivity.
    pose proof (split_length_pos LF G) as Hlen.
    cbn [negb].
    destruct (Z.leb_spec (Z.of_nat (length (split LF G))) 0); [lia|].
    rewrite Nat2Z.id, split_app_sep.
    rewrite firstn_app, Nat.sub_diag, firstn_all, firstn_O, app_nil_r.
    rewrite skipn_app, Nat.sub_diag, skipn_all, skipn_O, app_nil_l.
    now rewrite !join_split.
Qed.

(** X28.  When the stored text is the concatenation of the old generated
    text and a manual text, the merge with a freshly generated text reports
    no conflict and is the concatenation of the fresh text and the same
    manual text, so that separating it at the line count of the fresh text
    gives back the fresh text and the manual text.  Both generated texts
    are taken to be non-empty. *)
Theorem merge_of_unedited_script (G1 G2 M : jsstring) :
  G1 <> [] -> G2 <> [] ->
  let result := mergeGeneratedAndManual G2 G1 (concatenateCodes G1 M) in
  hasConflict result = false
  /\ merged result = concatenateCodes G2 M
  /\ separateGeneratedFromManual (merged result) (countLines G2)
     = {| generated := G2; manual := M |}.
Proof.
  intros HG1 HG2. cbv zeta.
  assert (Hmerge : mergeGeneratedAndManual G2 G1 (concatenateCodes G1 M)
                   = {| merged := concatenateCodes G2 M;
                        hasConflict := false |}).
  { destruct G1 as [|g1 G1']; [congruence|].
    destruct G2 as [|g2 G2']; [congruence|].
    set (G1 := g1 :: G1'). set (G2 := g2 :: G2').
    unfold mergeGeneratedAndManual, sliceFrom.
    destruct M as [|m M'].
    - change (concatenateCodes G1 []) with G1.
      change (concatenateCodes G2 []) with G2.
      assert (Hself : startsWith G1 G1 = true).
      { rewrite <- (app_nil_r G1) at 2. apply startsWith_app. }
      rewrite Hself, skipn_all. now rewrite app_nil_r.
    - change (concatenateCodes G1 (m :: M')) with (G1 ++ LF :: m :: M').
      change (concatenateCodes G2 (m :: M')) with (G2 ++ LF :: m :: M').
      rewrite startsWith_app, skipn_app, skipn_all, Nat.sub_diag.
      reflexivity. }
  rewrite Hmerge. cbn [hasConflict merged].
  split; [reflexivity|]. split; [reflexivity|].
  apply separate_at_generated.
Qed.

Lemma merge_of_unedited_script_witness :
  merged (mergeGeneratedAndManual (lit "new
code") (lit "old") (concatenateCodes (lit "old") (lit "x = 1")))
  = concatenateCodes (lit "new
code") (lit "x = 1").
Proof.
  pose proof (merge_of_unedited_script (lit "old") (lit "new
code") (lit "x = 1")) as H.
  specialize (H ltac:(discriminate) ltac:(discriminate)).
  exact (proj1 (proj2 H)).
Defined.

(* ================================================================== *)
(** * Duplicate imports in the conflict scan *)
(* ================================================================== *)

(** X29.  The conflict scan reports a manual import line as a duplicate
    whenever the second of its fields separated by single spaces occurs in
    some import line of the generated text, whatever module the lines
    import.  A manual import line that starts with two spaces has the empty
    text as this field, so that it is reported as soon as the generated
    text has an import line at all. *)
Theorem duplicate_import_is_reported
        (generatedCode manualCode manualImport imp : jsstring) :
  In manualImport (split LF manualCode) ->
  isImportLine manualImport = true ->
  In imp (split LF generatedCode) ->
  isImportLine imp = true ->
  includes (secondWord manualImport) imp = true ->
  hasConflicts (detectCodeConflicts generatedCode manualCode) = true
  /\ In {| conflictType := lit "duplicate-import";
           message := lit "Duplicate import detected: " ++ trim manualImport |}
        (conflicts (detectCodeConflicts generatedCode manualCode)).
Proof.
  intros Hmanual Himport Himp Himpimport Hincludes.
  assert (Htruthy : truthy manualCode = true).
  { destruct manualCode as [|c manualCode']; [|reflexivity].
    destruct Hmanual as [<-|[]]. discriminate. }
  unfold detectCodeConflicts. rewrite Htruthy. cbn [negb]. cbv zeta.
  cbn [hasConflicts conflicts].
  assert (Hin : In {| conflictType := lit "duplicate-import";
                      message := lit "Duplicate import detected: "
                                   ++ trim manualImport |}
                   (flat_map
                      (fun manualImport0 =>
                         if existsb
                              (fun imp0 =>
                                 includes (secondWord manualImport0) imp0)
                              (filter isImportLine (split LF generatedCode))
                         then [{| conflictType := lit "duplicate-import";
                                  message := lit "Duplicate import detected: "
                                               ++ trim manualImport0 |}]
                         else [])
                      (filter isImportLine (split LF manualCode)))).
  { apply in_flat_map. exists manualImport. split.
    - apply filter_In. split; assumption.
    - assert (Hex : existsb
                      (fun imp0 => includes (secondWord manualImport) imp0)
                      (filter isImportLine (split LF generatedCode)) = true).
      { apply existsb_exists. exists imp. split; [|assumption].
        apply filter_In. split; assumption. }
      rewrite Hex. now left. }
  split.
  - apply Nat.ltb_lt.
    match goal with
    | |- 0 < length ?l =>
        assert (Hne : l <> []); [|destruct l; [congruence | cbn; lia]]
    end.
    intros Hnil. apply app_eq_nil in Hnil as [_ Hnil].
    apply app_eq_nil in Hnil as [Hnil _].
    rewrite Hnil in Hin. contradiction.
  - apply in_or_app. right. apply in_or_app. left. exact Hin.
Qed.

Lemma duplicate_import_is_reported_witness :
  hasConflicts
    (detectCodeConflicts (lit "from autovnc import Keys") (lit "x = 1
  import os"))
  = true.
Proof.
  pose proof (duplicate_import_is_reported
                (lit "from autovnc import Keys") (lit "x = 1
  import os") (lit "  import os") (lit "from autovnc import Keys")) as H.
  specialize (H ltac:(right; left; reflexivity) eq_refl
                ltac:(left; reflexivity) eq_refl eq_refl).
  exact (proj1 H).
Defined.

(* ================================================================== *)
(** * The wait put in front of an inserted statement *)
(* ================================================================== *)

(** X30.  A step that carries a recorded delay above 0.1 is inserted after
    a wait on exactly that delay, and the time kept for the computed waits
    is left as it was.  The wait computed for a later step without such a
    delay is therefore taken from the time kept before, not from the time
    of the step in between: when that difference lies between 1 and 30
    seconds, the later statement is inserted after a wait on it. *)
Theorem computed_wait_skips_recorded_delays
        {B : Builtins} (cfg : App.Config) (st : App.State)
        (now1 now2 t0 t2 : Z) (sd1 sd2 : StepData)
        (d1 : number) (s1 s2 : jsstring) :
  App.isRecording cfg = true -> App.isPaused cfg = false ->
  App.editorReady cfg = true ->
  App.lastRecordTimeRef st = Some t0 -> t0 <> 0%Z ->
  App.recordedDelay sd1 = Some d1 ->
  App.dispatch sd1 = App.InsertNow s1 -> s1 <> [] ->
  App.recordedDelay sd2 = None ->
  sd_timestamp sd2 = Some t2 -> t2 <> 0%Z ->
  App.dispatch sd2 = App.InsertNow s2 -> s2 <> [] ->
  let diffSeconds := Num.div (Num.ofZ (t2 - t0)) (Num.ofZ 1000) in
  Num.gt diffSeconds (Num.ofZ 1) && Num.lt diffSeconds (Num.ofZ 30) = true ->
  let after :=
    App.run cfg [App.Interaction now1 sd1; App.Interaction now2 sd2] st in
  App.insertedTexts after
  = App.insertedTexts st
      ++ [lit "vnc.wait(" ++ numberToString d1 ++ lit ")" ++ [LF] ++ s1;
          lit "vnc.wait("
            ++ numberToString
                 (Num.div (Num.round (Num.mul diffSeconds (Num.ofZ 10)))
                          (Num.ofZ 10))
            ++ lit ")" ++ [LF] ++ s2]
  /\ App.lastRecordTimeRef after = Some t2.
Proof.
  intros Hrec Hpaused Hready Hlast Ht0 Hd1 Hs1 Hs1ne Hd2 Hts Ht2 Hs2 Hs2ne
         diffSeconds Hrange after.
  assert (Hfirst : App.handleVNCInteraction cfg now1 sd1 st
                   = App.insert
                       ((lit "vnc.wait(" ++ numberToString d1 ++ lit ")"
                           ++ [LF]) ++ s1) st).
  { unfold App.handleVNCInteraction.
    rewrite Hrec, Hpaused, Hready. cbn [negb orb].
    unfold App.timing. rewrite Hd1, Hs1.
    destruct s1; [congruence | reflexivity]. }
  assert (Hsecond :
            forall st1,
              App.lastRecordTimeRef st1 = Some t0 ->
              App.handleVNCInteraction cfg now2 sd2 st1
              = App.insert
                  ((lit "vnc.wait("
                      ++ numberToString
                           (Num.div
                              (Num.round (Num.mul diffSeconds (Num.ofZ 10)))
                              (Num.ofZ 10))
                      ++ lit ")" ++ [LF]) ++ s2)
                  (App.setLastRecord (Some t2) st1)).
  { intros st1 Hlast1. unfold App.handleVNCInteraction.
    rewrite Hrec, Hpaused, Hready. cbn [negb orb].
    unfold App.timing. rewrite Hd2, Hlast1.
    unfold App.timeTruthy, App.timestampOr. rewrite Hts.
    destruct (Z.eqb_spec t0 0) as [|_]; [contradiction|].
    destruct (Z.eqb_spec t2 0) as [|_]; [contradiction|].
    cbn [negb]. cbv zeta. fold diffSeconds. rewrite Hrange, Hs2.
    destruct s2; [congruence | reflexivity]. }
  unfold after, App.run. cbn [fold_left App.step].
  rewrite Hfirst, Hsecond by exact Hlast.
  unfold App.insertedTexts.
  cbn [App.insertions App.insert App.setLastRecord App.lastRecordTimeRef].
  rewrite !map_app. cbn [map App.insertedText].
  rewrite <- !app_assoc. cbn [app].
  split; [|reflexivity].
  repeat (rewrite <- app_assoc; cbn [app]). reflexivity.
Qed.

Lemma computed_wait_skips_recorded_delays_witness :
  App.lastRecordTimeRef
    (App.run (B := Examples.asciiBuiltins) Examples.appRecording
       [App.Interaction 4000
          (Recording.pointerStep (lit "click") (Num.ofZ 30) (Num.ofZ 40)
             (lit "Click at (30, 40)") 4000 (Num.ofZ 2));
        App.Interaction 6000 (Examples.clickAt 10 20 6000)]
       Examples.appStart)
  = Some 6000%Z.
Proof.
  pose proof (computed_wait_skips_recorded_delays
                (B := Examples.asciiBuiltins) Examples.appRecording
                Examples.appStart 4000 6000 1000 6000
                (Recording.pointerStep (lit "click") (Num.ofZ 30) (Num.ofZ 40)
                   (lit "Click at (30, 40)") 4000 (Num.ofZ 2))
                (Examples.clickAt 10 20 6000)
                (Num.ofZ 2) (lit "vnc.click(30, 40)")
                (lit "vnc.click(10, 20)")) as H.
  cbv zeta in H.
  specialize (H eq_refl eq_refl eq_refl eq_refl ltac:(discriminate)).
  specialize (H ltac:(vm_compute; reflexivity)
                ltac:(vm_compute; reflexivity) ltac:(discriminate)).
  specialize (H ltac:(vm_compute; reflexivity) eq_refl ltac:(discriminate)).
  specialize (H ltac:(vm_compute; reflexivity) ltac:(discriminate)).
  specialize (H ltac:(vm_compute; reflexivity)).
  exact (proj2 H).
Defined.
